(** * spark-optimus: configuration parser and rule engine

    A shallow embedding of [spark_config_mcp/spark_config_parser.py],
    [spark_config_mcp/models.py] and the deterministic part of
    [spark_config_mcp/config_analyzer.py], with the properties of the
    specification stated over it; then the scan of a directory, the
    metrics client in the mode that reads its mock file, and the tool
    [get_recommendations] of [spark_config_mcp/server.py], with
    properties read off the code.

    Conventions of the embedding.
    - Python [str] values are [string]s.  The character classes and case
      maps are those of Python on ASCII text (code points below 128);
      characters from 128 on are carried along as ordinary, caseless,
      non-blank, non-digit characters.
    - Python [int] is [Z]; [Optional[T]] is [option T].
    - An exception that leaves a function is a [Raise] result.
    - A [dict] is an association list with unique keys kept in insertion
      order.
    - The file system is a function from paths to the text of the readable
      file at that path, if there is one.
    - [int] and [str] convert numerals of any length: the cap that the
      interpreter puts on the digits converted (4300 by default, a longer
      numeral raising [ValueError]) is not modelled, so what is said of
      a numeral that is converted is said of numerals within the cap.
    - Floats are not approximated: where the source divides or converts
      through a float, the embedding computes the same result on integers
      and says why at the definition.
    - The directory walker, the prompt text and the client of the
      text-generation service are outside the embedding; the last two are
      parameters of the analysis, and what the walker lists is a
      parameter of the scan.  So is the content of the mock file of the
      metrics client; requests over the network are not modelled. *)

From Stdlib Require Import ZArith NArith List Bool Lia.
From Stdlib Require Import Sorting.Permutation.
From Stdlib Require Import Strings.Ascii Strings.String Numbers.DecimalString.
Import ListNotations.

Open Scope string_scope.
Open Scope list_scope.

(** ** Python strings *)

Module PyStr.

(** The characters that cannot be written inside a literal here. *)
Definition nl : ascii := "010"%char.
Definition cr : ascii := "013"%char.
Definition backslash : ascii := "092"%char.
Definition dquote : ascii := "034"%char.
Definition squote : ascii := "039"%char.

Definition NL : string := String nl EmptyString.
Definition BS : string := String backslash EmptyString.

Definition code (c : ascii) : N := N_of_ascii c.

Definition between (lo hi : N) (c : ascii) : bool :=
  ((lo <=? code c) && (code c <=? hi))%N.

(** [str.isspace] on one character, which is also the class [\s] of [re]
    and what [str.strip()] removes: 9-13, 28-31 and the blank. *)
Definition isspace (c : ascii) : bool := between 9 13 c || between 28 32 c.

(** The class [\d] of [re]. *)
Definition isdigit (c : ascii) : bool := between 48 57 c.

Definition digit_val (c : ascii) : Z := Z.of_N (code c) - 48.

Definition lower_char (c : ascii) : ascii :=
  if between 65 90 c then ascii_of_N (code c + 32) else c.

Definition upper_char (c : ascii) : ascii :=
  if between 97 122 c then ascii_of_N (code c - 32) else c.

Fixpoint map_chars (f : ascii -> ascii) (s : string) : string :=
  match s with
  | EmptyString => EmptyString
  | String c s' => String (f c) (map_chars f s')
  end.

(** [s.lower()] and [s.upper()]. *)
Definition lower : string -> string := map_chars lower_char.
Definition upper : string -> string := map_chars upper_char.

(** [not s]: the truth value of a string is whether it is non-empty. *)
Definition is_empty (s : string) : bool :=
  match s with EmptyString => true | String _ _ => false end.

Fixpoint lstrip_by (p : ascii -> bool) (s : string) : string :=
  match s with
  | EmptyString => EmptyString
  | String c s' => if p c then lstrip_by p s' else s
  end.

Fixpoint rstrip_by (p : ascii -> bool) (s : string) : string :=
  match s with
  | EmptyString => EmptyString
  | String c s' =>
      match rstrip_by p s' with
      | EmptyString => if p c then EmptyString else String c EmptyString
      | String d r => String c (String d r)
      end
  end.

(** [s.strip()], and [s.rstrip('\n')]. *)
Definition lstrip : string -> string := lstrip_by isspace.
Definition rstrip : string -> string := rstrip_by isspace.
Definition strip (s : string) : string := rstrip (lstrip s).
Definition rstrip_nl : string -> string := rstrip_by (Ascii.eqb nl).

(** [s.startswith(p)]. *)
Definition startswith (p s : string) : bool := String.prefix p s.

(** [s.endswith(p)]. *)
Fixpoint endswith (p s : string) : bool :=
  String.eqb s p ||
  match s with
  | EmptyString => false
  | String _ s' => endswith p s'
  end.

(** [p in s] for strings. *)
Fixpoint contains (p s : string) : bool :=
  String.prefix p s ||
  match s with
  | EmptyString => false
  | String _ s' => contains p s'
  end.

(** [c in s] for one character. *)
Fixpoint has_char (c : ascii) (s : string) : bool :=
  match s with
  | EmptyString => false
  | String d s' => Ascii.eqb c d || has_char c s'
  end.

(** [s[:-1]]. *)
Fixpoint drop_last (s : string) : string :=
  match s with
  | EmptyString => EmptyString
  | String c EmptyString => EmptyString
  | String c s' => String c (drop_last s')
  end.

(** [s.split(sep)] for a one-character separator: every occurrence
    splits, empty pieces are kept, and there is always one piece. *)
Fixpoint split_on (sep : ascii) (s : string) : list string :=
  match s with
  | EmptyString => [EmptyString]
  | String c s' =>
      if Ascii.eqb c sep then EmptyString :: split_on sep s'
      else match split_on sep s' with
           | [] => [String c EmptyString]
           | p :: ps => String c p :: ps
           end
  end.

(** [s.split(sep, 1)[1]] where it is defined: what follows the first
    occurrence of [sep]. *)
Fixpoint after_first (sep : ascii) (s : string) : option string :=
  match s with
  | EmptyString => None
  | String c s' => if Ascii.eqb c sep then Some s' else after_first sep s'
  end.

(** [s.replace(old, '')] for a non-empty [old]: occurrences are removed
    from left to right without overlap.  [skip] counts the characters of
    an occurrence that are still to be passed over. *)
Fixpoint remove_all_from (old : string) (skip : nat) (s : string) : string :=
  match s with
  | EmptyString => EmptyString
  | String c s' =>
      match skip with
      | S k => remove_all_from old k s'
      | O => if String.prefix old s
             then remove_all_from old (String.length old - 1) s'
             else String c (remove_all_from old 0 s')
      end
  end.

Definition remove_all (old s : string) : string := remove_all_from old 0 s.

(** [s.replace(a, b)] for single characters. *)
Definition replace_char (a b : ascii) : string -> string :=
  map_chars (fun c => if Ascii.eqb c a then b else c).

(** [sep.join(parts)]. *)
Definition join (sep : string) (parts : list string) : string :=
  String.concat sep parts.

(** The longest prefix whose characters satisfy [p], and what follows. *)
Fixpoint span (p : ascii -> bool) (s : string) : string * string :=
  match s with
  | EmptyString => (EmptyString, EmptyString)
  | String c s' =>
      if p c then let (a, b) := span p s' in (String c a, b)
      else (EmptyString, s)
  end.

(** The number written by a run of digits. *)
Fixpoint digits_value_from (acc : Z) (digits : string) : Z :=
  match digits with
  | EmptyString => acc
  | String c rest => digits_value_from (10 * acc + digit_val c)%Z rest
  end.

Definition digits_value (digits : string) : Z := digits_value_from 0 digits.

(** [int(s)] for a string, base ten: blanks around (9-13 and 32 for ASCII
    text), an optional sign, then digits in which single underscores may
    separate digits.  [None] stands for [ValueError].  A numeral of any
    length is converted: the interpreter's cap on the digits (4300 by
    default), past which it raises [ValueError] too, has no counterpart
    here. *)
Definition int_blank (c : ascii) : bool := between 9 13 c || between 32 32 c.

Fixpoint int_digits (acc : Z) (after_digit : bool) (s : string) : option Z :=
  match s with
  | EmptyString => if after_digit then Some acc else None
  | String c s' =>
      if isdigit c then int_digits (10 * acc + digit_val c) true s'
      else if Ascii.eqb c "_"%char
           then (if after_digit then int_digits acc false s' else None)
           else None
  end.

Definition int (s : string) : option Z :=
  let t := rstrip_by int_blank (lstrip_by int_blank s) in
  match t with
  | String c r =>
      if Ascii.eqb c "+"%char then int_digits 0 false r
      else if Ascii.eqb c "-"%char then option_map Z.opp (int_digits 0 false r)
      else int_digits 0 false t
  | EmptyString => None
  end.

(** [str(n)] for an integer. *)
Definition str (n : Z) : string := NilZero.string_of_int (Z.to_int n).

End PyStr.


(** ** The fragments of [re] that the program uses

    Each pattern of the source is a matcher: applied at a position of the
    subject it yields the captured groups and what follows the match.  The
    patterns only chain greedy runs over character classes that exclude
    whatever must follow them, so the backtracking of [re] never finds a
    match that the longest runs miss. *)

Module Re.
Import PyStr.

Definition matcher (A : Type) : Type := string -> option (A * string).

(** A literal at the current position. *)
Fixpoint skip_lit (lit s : string) : option string :=
  match lit, s with
  | EmptyString, _ => Some s
  | String a lit', String b s' =>
      if Ascii.eqb a b then skip_lit lit' s' else None
  | String _ _, EmptyString => None
  end.

(** One or more characters of a class, greedy. *)
Definition plus (p : ascii -> bool) (s : string) : option (string * string) :=
  let (run, rest) := span p s in
  if is_empty run then None else Some (run, rest).

(** [re.search]: the match at the leftmost position that has one. *)
Fixpoint search {A : Type} (m : matcher A) (s : string) : option (A * string) :=
  match m s with
  | Some r => Some r
  | None =>
      match s with
      | EmptyString => None
      | String _ s' => search m s'
      end
  end.

(** [re.finditer] for a pattern without empty matches: the matches from
    left to right, each search resuming where the previous match ended.
    [skip] counts the characters of the last match still to be passed. *)
Fixpoint finditer_from {A : Type} (m : matcher A) (skip : nat) (s : string)
  : list A :=
  match s with
  | EmptyString => []
  | String _ s' =>
      match skip with
      | S k => finditer_from m k s'
      | O =>
          match m s with
          | Some (v, rest) =>
              v :: finditer_from m (String.length s - String.length rest - 1) s'
          | None => finditer_from m 0 s'
          end
      end
  end.

Definition finditer {A : Type} (m : matcher A) (s : string) : list A :=
  finditer_from m 0 s.

(** [flag\s+(\S+)] and [flag\s+(\d+)]: the flag, blanks, then a run of
    the class [tok], which is the group. *)
Definition flag_value (flag : string) (tok : ascii -> bool) : matcher string :=
  fun s =>
    match skip_lit flag s with
    | None => None
    | Some r =>
        match plus isspace r with
        | None => None
        | Some (_, r1) => plus tok r1
        end
    end.

Definition nonspace (c : ascii) : bool := negb (isspace c).

(** [[^\s=]]. *)
Definition key_char (c : ascii) : bool :=
  negb (isspace c) && negb (Ascii.eqb c "="%char).

(** [--conf\s+([^\s=]+)=(\S+)]. *)
Definition conf_flag : matcher (string * string) :=
  fun s =>
    match skip_lit "--conf" s with
    | None => None
    | Some r =>
        match plus isspace r with
        | None => None
        | Some (_, r1) =>
            match plus key_char r1 with
            | None => None
            | Some (key, r2) =>
                match skip_lit "=" r2 with
                | None => None
                | Some r3 =>
                    match plus nonspace r3 with
                    | None => None
                    | Some (value, r4) => Some ((key, value), r4)
                    end
                end
            end
        end
    end.

Definition is_quote (c : ascii) : bool :=
  Ascii.eqb c dquote || Ascii.eqb c squote.

(** The [APP_NAME=] pattern: the literal, a single or double quote, then
    as few characters as possible (none of them a line feed) up to the
    next single or double quote.  The group is what lies between. *)
Definition app_name_assignment : matcher string :=
  fun s =>
    match skip_lit "APP_NAME=" s with
    | Some (String q r) =>
        if is_quote q then
          let (body, r1) := span (fun c => negb (is_quote c) && negb (Ascii.eqb c nl)) r in
          match r1 with
          | String q' r2 => if is_quote q' then Some (body, r2) else None
          | EmptyString => None
          end
        else None
    | _ => None
    end.

(** [re.split(r'\s+|=', s, maxsplit=1)] when it yields two parts: the
    split is at the leftmost position holding a blank run (taken whole)
    or an equals sign.  [None] when there is no such position, where the
    source gets a list of one part. *)
Fixpoint split_blank_or_eq (s : string) : option (string * string) :=
  match s with
  | EmptyString => None
  | String c s' =>
      if isspace c then Some (EmptyString, snd (span isspace s'))
      else if Ascii.eqb c "="%char then Some (EmptyString, s')
      else match split_blank_or_eq s' with
           | Some (a, b) => Some (String c a, b)
           | None => None
           end
  end.

(** [[kmgt]]. *)
Definition unit_char (c : ascii) : bool :=
  Ascii.eqb c "k"%char || Ascii.eqb c "m"%char ||
  Ascii.eqb c "g"%char || Ascii.eqb c "t"%char.

(** [re.match(r'(\d+)([kmgt]?)', s)]: both groups, at the start of [s]. *)
Definition digits_unit (s : string) : option (string * string) :=
  match plus isdigit s with
  | None => None
  | Some (digits, String u _) =>
      if unit_char u then Some (digits, String u EmptyString)
      else Some (digits, EmptyString)
  | Some (digits, EmptyString) => Some (digits, EmptyString)
  end.

(** [re.match(r'(\d+(?:\.\d+)?)\s*([kmgt]?)b?', s)]: the first group as
    its digits before and after the point (no digits after when it has
    no fraction), and the second group. *)
Definition number_unit (s : string) : option (string * string * string) :=
  match plus isdigit s with
  | None => None
  | Some (whole, r) =>
      let (fraction, r1) :=
        match r with
        | String dot r' =>
            if Ascii.eqb dot "."%char then
              match plus isdigit r' with
              | Some (digits, r'') => (digits, r'')
              | None => (EmptyString, r)
              end
            else (EmptyString, r)
        | EmptyString => (EmptyString, r)
        end in
      let unit :=
        match snd (span isspace r1) with
        | String u _ => if unit_char u then String u EmptyString else EmptyString
        | EmptyString => EmptyString
        end in
      Some (whole, fraction, unit)
  end.

End Re.

(** ** Exceptions *)

Inductive exn : Type := ValueError | OverflowError.

Inductive result (A : Type) : Type :=
| Ok (a : A)
| Raise (e : exn).

Arguments Ok {A} a.
Arguments Raise {A} e.

Definition bind {A B : Type} (r : result A) (f : A -> result B) : result B :=
  match r with
  | Ok a => f a
  | Raise e => Raise e
  end.

Notation "x <- r ;; k" := (bind r (fun x => k))
  (at level 61, r at next level, right associativity).

(** [int(value)] where a [ValueError] propagates. *)
Definition int_or_raise (value : string) : result Z :=
  match PyStr.int value with
  | Some n => Ok n
  | None => Raise ValueError
  end.

(** ** Dictionaries from strings to strings *)

Module Dict.

Definition t : Type := list (string * string).

Definition empty : t := [].

(** [d.get(k)]. *)
Fixpoint get (k : string) (d : t) : option string :=
  match d with
  | [] => None
  | (k', v) :: d' => if String.eqb k k' then Some v else get k d'
  end.

(** [d[k] = v]: an existing key keeps its place, a new one goes last. *)
Fixpoint set (k v : string) (d : t) : t :=
  match d with
  | [] => [(k, v)]
  | (k', v') :: d' =>
      if String.eqb k k' then (k', v) :: d' else (k', v') :: set k v d'
  end.

End Dict.

(** ** Data model ([models.py]) *)

Inductive RecommendationSeverity : Type := CRITICAL | WARNING | INFO.

Record SparkConfig : Type := mkSparkConfig {
  source_file : string;
  driver_memory : option string;
  executor_memory : option string;
  executor_cores : option Z;
  num_executors : option Z;
  default_parallelism : option Z;
  shuffle_partitions : option Z;
  dynamic_allocation_enabled : bool;
  app_name : option string;
  deploy_mode : option string;
  master : option string;
  raw_configs : Dict.t
}.

(** [SparkConfig(source_file=path)]: every other field at its default. *)
Definition new_config (path : string) : SparkConfig :=
  {| source_file := path;
     driver_memory := None;
     executor_memory := None;
     executor_cores := None;
     num_executors := None;
     default_parallelism := None;
     shuffle_partitions := None;
     dynamic_allocation_enabled := false;
     app_name := None;
     deploy_mode := None;
     master := None;
     raw_configs := Dict.empty |}.

(** Attribute assignments. *)
Definition set_driver_memory (v : string) (c : SparkConfig) : SparkConfig :=
  mkSparkConfig (source_file c) (Some v) (executor_memory c) (executor_cores c)
    (num_executors c) (default_parallelism c) (shuffle_partitions c)
    (dynamic_allocation_enabled c) (app_name c) (deploy_mode c) (master c)
    (raw_configs c).

Definition set_executor_memory (v : string) (c : SparkConfig) : SparkConfig :=
  mkSparkConfig (source_file c) (driver_memory c) (Some v) (executor_cores c)
    (num_executors c) (default_parallelism c) (shuffle_partitions c)
    (dynamic_allocation_enabled c) (app_name c) (deploy_mode c) (master c)
    (raw_configs c).

Definition set_executor_cores (n : Z) (c : SparkConfig) : SparkConfig :=
  mkSparkConfig (source_file c) (driver_memory c) (executor_memory c) (Some n)
    (num_executors c) (default_parallelism c) (shuffle_partitions c)
    (dynamic_allocation_enabled c) (app_name c) (deploy_mode c) (master c)
    (raw_configs c).

Definition set_num_executors (n : Z) (c : SparkConfig) : SparkConfig :=
  mkSparkConfig (source_file c) (driver_memory c) (executor_memory c)
    (executor_cores c) (Some n) (default_parallelism c) (shuffle_partitions c)
    (dynamic_allocation_enabled c) (app_name c) (deploy_mode c) (master c)
    (raw_configs c).

Definition set_default_parallelism (n : Z) (c : SparkConfig) : SparkConfig :=
  mkSparkConfig (source_file c) (driver_memory c) (executor_memory c)
    (executor_cores c) (num_executors c) (Some n) (shuffle_partitions c)
    (dynamic_allocation_enabled c) (app_name c) (deploy_mode c) (master c)
    (raw_configs c).

Definition set_shuffle_partitions (n : Z) (c : SparkConfig) : SparkConfig :=
  mkSparkConfig (source_file c) (driver_memory c) (executor_memory c)
    (executor_cores c) (num_executors c) (default_parallelism c) (Some n)
    (dynamic_allocation_enabled c) (app_name c) (deploy_mode c) (master c)
    (raw_configs c).

Definition set_dynamic_allocation_enabled (b : bool) (c : SparkConfig)
  : SparkConfig :=
  mkSparkConfig (source_file c) (driver_memory c) (executor_memory c)
    (executor_cores c) (num_executors c) (default_parallelism c)
    (shuffle_partitions c) b (app_name c) (deploy_mode c) (master c)
    (raw_configs c).

Definition set_app_name (v : string) (c : SparkConfig) : SparkConfig :=
  mkSparkConfig (source_file c) (driver_memory c) (executor_memory c)
    (executor_cores c) (num_executors c) (default_parallelism c)
    (shuffle_partitions c) (dynamic_allocation_enabled c) (Some v)
    (deploy_mode c) (master c) (raw_configs c).

Definition set_deploy_mode (v : string) (c : SparkConfig) : SparkConfig :=
  mkSparkConfig (source_file c) (driver_memory c) (executor_memory c)
    (executor_cores c) (num_executors c) (default_parallelism c)
    (shuffle_partitions c) (dynamic_allocation_enabled c) (app_name c)
    (Some v) (master c) (raw_configs c).

Definition set_master (v : string) (c : SparkConfig) : SparkConfig :=
  mkSparkConfig (source_file c) (driver_memory c) (executor_memory c)
    (executor_cores c) (num_executors c) (default_parallelism c)
    (shuffle_partitions c) (dynamic_allocation_enabled c) (app_name c)
    (deploy_mode c) (Some v) (raw_configs c).

(** [config.raw_configs[key] = value]. *)
Definition set_raw (key value : string) (c : SparkConfig) : SparkConfig :=
  mkSparkConfig (source_file c) (driver_memory c) (executor_memory c)
    (executor_cores c) (num_executors c) (default_parallelism c)
    (shuffle_partitions c) (dynamic_allocation_enabled c) (app_name c)
    (deploy_mode c) (master c) (Dict.set key value (raw_configs c)).

(** [raw_metrics], the payload kept beside the typed fields, is read by
    nothing here and is left out.  The field [app_name] is
    [metrics_app_name], the shorter name being the one of [SparkConfig]. *)
Record ExecutionMetrics : Type := mkExecutionMetrics {
  app_id : string;
  metrics_app_name : string;
  duration_ms : option Z;
  total_tasks : Z;
  failed_tasks : Z;
  total_stages : Z;
  failed_stages : Z;
  executor_memory_used : option Z;
  executor_memory_spilled : option Z;
  shuffle_read_bytes : option Z;
  shuffle_write_bytes : option Z;
  input_bytes : option Z;
  output_bytes : option Z;
  peak_memory_usage : option Z;
  gc_time_ms : option Z
}.

Record Recommendation : Type := mkRecommendation {
  severity : RecommendationSeverity;
  category : string;
  title : string;
  description : string;
  current_value : option string;
  recommended_value : option string;
  expected_impact : option string
}.

Record AnalysisResult : Type := mkAnalysisResult {
  config : SparkConfig;
  metrics : option ExecutionMetrics;
  recommendations : list Recommendation;
  summary : string;
  analyzed_at : option string
}.

(** ** Files *)

(** What [open(path, 'r')] can read at each path; [None] where
    [os.path.exists] is false. *)
Definition filesystem : Type := string -> option string.

Module TextIO.
Import PyStr.

(** Text mode reads every line ending, CR LF or CR alone included, as a
    line feed. *)
Fixpoint universal_newlines (s : string) : string :=
  match s with
  | EmptyString => EmptyString
  | String c s' =>
      if Ascii.eqb c cr then
        match s' with
        | String d s'' =>
            if Ascii.eqb d nl then universal_newlines s'
            else String nl (universal_newlines s')
        | EmptyString => String nl EmptyString
        end
      else String c (universal_newlines s')
  end.

(** The lines of a text, each with its line feed; the last one has none
    when the text does not end in one. *)
Fixpoint keepends (s : string) : list string :=
  match s with
  | EmptyString => []
  | String c s' =>
      if Ascii.eqb c nl then String c EmptyString :: keepends s'
      else match keepends s' with
           | [] => [String c EmptyString]
           | l :: ls => String c l :: ls
           end
  end.

(** [f.read()]. *)
Definition read (text : string) : string := universal_newlines text.

(** [f.readlines()], and the lines that [for line in f] goes through. *)
Definition readlines (text : string) : list string :=
  keepends (universal_newlines text).

End TextIO.

(** ** Floats, as far as the parser's memory utility needs them

    [float(text)] of a decimal numeral is the binary64 value nearest to
    the number written, halves going to the even neighbour; multiplying
    it by a power of two is exact unless the product leaves the range of
    the floats, and [int] drops the fraction.  The functions work on the
    numeral as a quotient of integers and give the same integer. *)

Module Float.

Open Scope Z_scope.

(** The integer nearest to [n / d], halves going to the even one. *)
Definition round_half_even (n d : Z) : Z :=
  let k := n / d in
  let r := n mod d in
  if 2 * r <? d then k
  else if d <? 2 * r then k + 1
  else if Z.even k then k else k + 1.

(** [2 ^ e <= p / t], for an exponent of either sign. *)
Definition reaches (p t e : Z) : bool :=
  if 0 <=? e then t * 2 ^ e <=? p else t <=? p * 2 ^ (- e).

(** The value of 53 bits nearest to [p / t], for positive [p] and [t]:
    [(m, s)] stands for [m * 2 ^ s]. *)
Definition nearest (p t : Z) : Z * Z :=
  let a := Z.log2 p - Z.log2 t in
  let e := if reaches p t a then a else a - 1 in
  let s := e - 52 in
  let m := if 0 <=? s then round_half_even p (t * 2 ^ s)
           else round_half_even (p * 2 ^ (- s)) t in
  (m, s).

(** [int(float(p / t) * 2 ^ k)]; [None] when the float or the product is
    infinite, where [int] raises [OverflowError].  A value or product
    too small for 53 bits is below one, and so is what this computes for
    it: the integer is zero either way. *)
Definition scaled_int (p t k : Z) : option Z :=
  if p =? 0 then Some 0
  else
    let (m, s) := nearest p t in
    if (2 ^ 1024 <=? Z.shiftl m s) || (2 ^ 1024 <=? Z.shiftl m (s + k)) then None
    else Some (Z.shiftl m (s + k)).

End Float.

(** ** The configuration parser ([spark_config_parser.py]) *)

Module SparkConfigParser.
Import PyStr.

(** *** Memory sizes *)

(** The table [multipliers], each entry as the power of two it is, with
    [multipliers.get(unit, 1)]. *)
Definition multiplier_exponent (unit : string) : Z :=
  if String.eqb unit "k" then (-10)%Z
  else if String.eqb unit "g" then 10%Z
  else if String.eqb unit "t" then 20%Z
  else 0%Z.

Definition parse_memory_to_mb (memory_str : string) : result (option Z) :=
  if is_empty memory_str then Ok None
  else
    match Re.number_unit (strip (lower memory_str)) with
    | None => Ok None
    | Some (whole, fraction, unit) =>
        match Float.scaled_int (digits_value (whole ++ fraction))
                (10 ^ Z.of_nat (String.length fraction))
                (multiplier_exponent unit) with
        | Some mb => Ok (Some mb)
        | None => Raise OverflowError
        end
    end.

(** *** Key/value dialect *)

(** The chain of comparisons that promotes a recognised key. *)
Definition promote_default (key value : string) (config : SparkConfig)
  : result SparkConfig :=
  if String.eqb key "spark.driver.memory" then
    Ok (set_driver_memory value config)
  else if String.eqb key "spark.executor.memory" then
    Ok (set_executor_memory value config)
  else if String.eqb key "spark.executor.cores" then
    n <- int_or_raise value ;; Ok (set_executor_cores n config)
  else if String.eqb key "spark.executor.instances" then
    n <- int_or_raise value ;; Ok (set_num_executors n config)
  else if String.eqb key "spark.default.parallelism" then
    n <- int_or_raise value ;; Ok (set_default_parallelism n config)
  else if String.eqb key "spark.sql.shuffle.partitions" then
    n <- int_or_raise value ;; Ok (set_shuffle_partitions n config)
  else if String.eqb key "spark.dynamicAllocation.enabled" then
    Ok (set_dynamic_allocation_enabled (String.eqb (lower value) "true") config)
  else if String.eqb key "spark.app.name" then
    Ok (set_app_name value config)
  else Ok config.

(** The key and value of a line, for the lines that carry a pair: not a
    blank line, not a comment, and split in two by [re.split]. *)
Definition key_value (raw_line : string) : option (string * string) :=
  let line := strip raw_line in
  if is_empty line || startswith "#" line then None
  else
    match Re.split_blank_or_eq line with
    | None => None
    | Some (part0, part1) => Some (strip part0, strip part1)
    end.

(** One turn of the loop over the lines of the file. *)
Definition defaults_line (config : SparkConfig) (raw_line : string)
  : result SparkConfig :=
  match key_value raw_line with
  | None => Ok config
  | Some (key, value) => promote_default key value (set_raw key value config)
  end.

Fixpoint defaults_lines (lines : list string) (config : SparkConfig)
  : result SparkConfig :=
  match lines with
  | [] => Ok config
  | line :: rest =>
      config' <- defaults_line config line ;; defaults_lines rest config'
  end.

Definition parse_spark_defaults (fs : filesystem) (file_path : string)
  : result SparkConfig :=
  let config := new_config file_path in
  match fs file_path with
  | None => Ok config
  | Some text => defaults_lines (TextIO.readlines text) config
  end.

(** *** Deploy-script dialect *)

(** The two nested loops that join continued lines.  [line] is the
    logical line being built and [rest] the physical lines not yet looked
    at: while [line] ends in a backslash and a physical line is left, that
    line is taken in; otherwise [line] is complete and the next physical
    line starts a new one. *)
Fixpoint join_from (line : string) (rest : list string) : list string :=
  match rest with
  | [] => [line]
  | next :: rest' =>
      if endswith BS line
      then join_from (strip (drop_last line) ++ " " ++ rstrip_nl (strip next)) rest'
      else line :: join_from (rstrip_nl next) rest'
  end.

Definition command_lines (lines : list string) : list string :=
  match lines with
  | [] => []
  | first :: rest => join_from (rstrip_nl first) rest
  end.

(** The buffer that every pattern is searched in. *)
Definition full_command (lines : list string) : string :=
  join " " (command_lines lines).

Definition group1 (m : option (string * string)) : option string :=
  option_map fst m.

(** The [APP_NAME=] assignment. *)
Definition app_name_pass (buffer : string) (config : SparkConfig) : SparkConfig :=
  match group1 (Re.search Re.app_name_assignment buffer) with
  | Some name => set_app_name name config
  | None => config
  end.

(** One entry of [patterns] whose value is stored as it is. *)
Definition string_flag (flag : string) (setter : string -> SparkConfig -> SparkConfig)
  (buffer : string) (config : SparkConfig) : result SparkConfig :=
  match group1 (Re.search (Re.flag_value flag Re.nonspace) buffer) with
  | Some value => Ok (setter value config)
  | None => Ok config
  end.

(** One entry of [patterns] whose value goes through [int]. *)
Definition int_flag (flag : string) (setter : Z -> SparkConfig -> SparkConfig)
  (buffer : string) (config : SparkConfig) : result SparkConfig :=
  match group1 (Re.search (Re.flag_value flag isdigit) buffer) with
  | Some value => n <- int_or_raise value ;; Ok (setter n config)
  | None => Ok config
  end.

(** The loop over [patterns], in the order of the dictionary. *)
Definition flags_pass (buffer : string) (config : SparkConfig)
  : result SparkConfig :=
  c1 <- string_flag "--master" set_master buffer config ;;
  c2 <- string_flag "--deploy-mode" set_deploy_mode buffer c1 ;;
  c3 <- string_flag "--driver-memory" set_driver_memory buffer c2 ;;
  c4 <- string_flag "--executor-memory" set_executor_memory buffer c3 ;;
  c5 <- int_flag "--executor-cores" set_executor_cores buffer c4 ;;
  int_flag "--num-executors" set_num_executors buffer c5.

(** One turn of the loop over the [--conf] occurrences. *)
Definition conf_step (config : SparkConfig) (kv : string * string)
  : result SparkConfig :=
  let (key, value) := kv in
  let config := set_raw key value config in
  if String.eqb key "spark.default.parallelism" then
    n <- int_or_raise value ;; Ok (set_default_parallelism n config)
  else if String.eqb key "spark.sql.shuffle.partitions" then
    n <- int_or_raise value ;; Ok (set_shuffle_partitions n config)
  else if String.eqb key "spark.dynamicAllocation.enabled" then
    Ok (set_dynamic_allocation_enabled (String.eqb (lower value) "true") config)
  else Ok config.

Fixpoint conf_steps (matches : list (string * string)) (config : SparkConfig)
  : result SparkConfig :=
  match matches with
  | [] => Ok config
  | kv :: rest => config' <- conf_step config kv ;; conf_steps rest config'
  end.

Definition conf_pass (buffer : string) (config : SparkConfig)
  : result SparkConfig :=
  conf_steps (Re.finditer Re.conf_flag buffer) config.

(** [not config.app_name]: absent or empty. *)
Definition app_name_unset (config : SparkConfig) : bool :=
  match app_name config with
  | None => true
  | Some name => is_empty name
  end.

(** The [--name] flag, looked at only while no name is set. *)
Definition name_pass (buffer : string) (config : SparkConfig) : SparkConfig :=
  if app_name_unset config then
    match group1 (Re.search (Re.flag_value "--name" Re.nonspace) buffer) with
    | Some name => set_app_name name config
    | None => config
    end
  else config.

Definition parse_spark_submit_script (fs : filesystem) (file_path : string)
  : result SparkConfig :=
  let config := new_config file_path in
  match fs file_path with
  | None => Ok config
  | Some text =>
      let buffer := full_command (TextIO.readlines text) in
      let config := app_name_pass buffer config in
      config <- flags_pass buffer config ;;
      config <- conf_pass buffer config ;;
      Ok (name_pass buffer config)
  end.

(** *** Dispatcher *)

Definition parse_file (fs : filesystem) (file_path : string)
  : result SparkConfig :=
  if endswith "spark-defaults.conf" file_path then
    parse_spark_defaults fs file_path
  else if endswith ".sh" file_path then
    parse_spark_submit_script fs file_path
  else
    match fs file_path with
    | Some text =>
        if contains "spark-submit" (TextIO.read text)
        then parse_spark_submit_script fs file_path
        else parse_spark_defaults fs file_path
    | None => parse_spark_defaults fs file_path
    end.

End SparkConfigParser.

(** ** The recommendation engine ([config_analyzer.py]) *)

Module ConfigAnalyzer.
Import PyStr.

Open Scope Z_scope.

(** The table [multipliers], with [multipliers.get(unit, 1)]. *)
Definition multiplier (unit : string) : Z :=
  if String.eqb unit EmptyString then 1
  else if String.eqb unit "k" then 1
  else if String.eqb unit "m" then 1
  else if String.eqb unit "g" then 1024
  else if String.eqb unit "t" then 1024 * 1024
  else 1.

Definition _parse_memory_mb (memory_str : string) : option Z :=
  match Re.digits_unit (lower memory_str) with
  | None => None
  | Some (digits, unit) =>
      match int digits with
      | Some value => Some (value * multiplier unit)
      | None => None
      end
  end.

(** The truth value of an optional integer: present and not zero. *)
Definition truthy (n : option Z) : bool :=
  match n with
  | Some v => negb (v =? 0)
  | None => false
  end.

(** [input_bytes / (1024**3) < 10].  The quotient of an integer by a
    power of two is a float without rounding up to 2^53, and rounding
    keeps the order beyond, so the test is the one on the integers.
    (The division has no float to return on quotients past the largest
    one, near 2^1024; byte counts stay far below.) *)
Definition below_10_gib (bytes : Z) : bool := bytes <? 10 * 1024 ^ 3.

(** [spilled / used > 0.1].  The float [0.1] is 7205759403792794 / 2^56
    with an even last digit, and the quotient is rounded to the nearest
    float, ties to even: it lies above [0.1] exactly when the ratio lies
    above the midpoint to the next float, 14411518807585589 / 2^57.
    [used] is positive where this is called.  (As above for quotients
    past the largest float.) *)
Definition ratio_above_tenth (spilled used : Z) : bool :=
  14411518807585589 * used <? spilled * 2 ^ 57.

Definition excessive_driver_memory (current : string) : Recommendation :=
  {| severity := CRITICAL;
     category := "resource_allocation";
     title := "Excessive Driver Memory";
     description := "Driver memory is oversized for typical workloads. This wastes resources and increases costs.";
     current_value := Some current;
     recommended_value := Some "2g-4g";
     expected_impact := Some "Reduce resource waste and costs by 50-75%" |}.

Definition inefficient_shuffle_partitions (partitions : Z) : Recommendation :=
  {| severity := WARNING;
     category := "performance_tuning";
     title := "Inefficient Shuffle Partitions";
     description := "Too many shuffle partitions for dataset size causes overhead.";
     current_value := Some (str partitions);
     recommended_value := Some "50-100";
     expected_impact := Some "Reduce shuffle overhead by 30-40%" |}.

Definition enable_dynamic_allocation : Recommendation :=
  {| severity := INFO;
     category := "best_practices";
     title := "Enable Dynamic Allocation";
     description := "Dynamic allocation can optimize resource usage automatically.";
     current_value := Some "false";
     recommended_value := Some "true";
     expected_impact := Some "Better resource utilization and cost savings" |}.

Definition high_memory_spilling (current : string) : Recommendation :=
  {| severity := WARNING;
     category := "performance_tuning";
     title := "High Memory Spilling";
     description := "Significant memory spilling detected. Increase executor memory.";
     current_value := Some current;
     recommended_value := Some "Increase by 50%";
     expected_impact := Some "Reduce disk I/O and improve performance by 20-30%" |}.

(** The four checks; each yields what it appends to [recommendations]. *)
Definition check_driver_memory (config : SparkConfig) : list Recommendation :=
  match driver_memory config with
  | Some memory =>
      if is_empty memory then []
      else
        let driver_mb := _parse_memory_mb memory in
        if truthy driver_mb &&
           match driver_mb with Some mb => 10240 <? mb | None => false end
        then [excessive_driver_memory memory]
        else []
  | None => []
  end.

Definition check_shuffle_partitions (config : SparkConfig)
  (metrics : option ExecutionMetrics) : list Recommendation :=
  match shuffle_partitions config with
  | Some partitions =>
      if negb (partitions =? 0) && (200 <? partitions) then
        match metrics with
        | Some m =>
            match input_bytes m with
            | Some bytes =>
                if negb (bytes =? 0) && below_10_gib bytes
                then [inefficient_shuffle_partitions partitions]
                else []
            | None => []
            end
        | None => []
        end
      else []
  | None => []
  end.

Definition check_dynamic_allocation (config : SparkConfig) : list Recommendation :=
  if negb (dynamic_allocation_enabled config) then [enable_dynamic_allocation]
  else [].

(** [x or fallback] for an optional integer. *)
Definition or_int (x : option Z) (fallback : Z) : Z :=
  match x with
  | Some v => if v =? 0 then fallback else v
  | None => fallback
  end.

(** [x or fallback] for an optional string. *)
Definition or_str (x : option string) (fallback : string) : string :=
  match x with
  | Some v => if is_empty v then fallback else v
  | None => fallback
  end.

Definition check_memory_spilling (config : SparkConfig)
  (metrics : option ExecutionMetrics) : list Recommendation :=
  match metrics with
  | Some m =>
      match executor_memory_spilled m with
      | Some spilled =>
          if negb (spilled =? 0) &&
             ratio_above_tenth spilled (Z.max (or_int (executor_memory_used m) 1) 1)
          then [high_memory_spilling (or_str (executor_memory config) "unknown")]
          else []
      | None => []
      end
  | None => []
  end.

Definition _rule_based_analysis (config : SparkConfig)
  (metrics : option ExecutionMetrics) : list Recommendation :=
  (check_driver_memory config
   ++ check_shuffle_partitions config metrics
   ++ check_dynamic_allocation config
   ++ check_memory_spilling config metrics)%list.

(** *** Reading the reply of the text-generation service *)

(** The tag a line starts with. *)
Definition severity_tag (line : string) : option RecommendationSeverity :=
  if startswith "[CRITICAL]" line then Some CRITICAL
  else if startswith "[WARNING]" line then Some WARNING
  else if startswith "[INFO]" line then Some INFO
  else None.

(** Whether the line is taken as the summary: both nested conditions. *)
Definition summary_line (summary line : string) : bool :=
  (contains "SUMMARY" (upper line) ||
   (is_empty summary && negb (is_empty line) &&
    negb (startswith "[" line) && negb (startswith "#" line)))
  &&
  (is_empty summary && negb (is_empty line) &&
   negb (existsb (fun x => contains x (upper line))
           ["CRITICAL"; "WARNING"; "INFO"; "SUGGESTION"])).

(** [part.split(':', 1)[1].strip()]; the test that guards each use puts
    a colon in [part]. *)
Definition after_colon (part : string) : string :=
  match after_first ":" part with
  | Some value => strip value
  | None => EmptyString
  end.

Record fields : Type := mkFields {
  f_current : option string;
  f_recommended : option string;
  f_impact : option string
}.

(** One turn of the loop over [parts[2:]]. *)
Definition scan_part (acc : fields) (raw_part : string) : fields :=
  let part := strip raw_part in
  if startswith "current:" (lower part) then
    mkFields (Some (after_colon part)) (f_recommended acc) (f_impact acc)
  else if startswith "recommended:" (lower part) then
    mkFields (f_current acc) (Some (after_colon part)) (f_impact acc)
  else if startswith "impact:" (lower part) then
    mkFields (f_current acc) (f_recommended acc) (Some (after_colon part))
  else acc.

(** The category read from [parts[0]]. *)
Definition category_of (part0 : string) : string :=
  let category_part :=
    match after_first "]" part0 with
    | Some text => strip text
    | None => "general"
    end in
  replace_char " " "_" (lower category_part).

(** The recommendation built from a tagged line, when the line has at
    least two segments. *)
Definition tagged_line (sev : RecommendationSeverity) (line : string)
  : option Recommendation :=
  match split_on "|" line with
  | part0 :: part1 :: more =>
      let title := strip part1 in
      let found := fold_left scan_part more (mkFields None None None) in
      Some {| severity := sev;
              category := category_of part0;
              title := title;
              description := title ++ ". " ++ or_str (f_impact found) EmptyString;
              current_value := f_current found;
              recommended_value := f_recommended found;
              expected_impact := f_impact found |}
  | _ => None
  end.

(** One turn of the loop over the lines of the reply. *)
Definition response_line (state : string * list Recommendation) (raw_line : string)
  : string * list Recommendation :=
  let (summary, recs) := state in
  let line := strip raw_line in
  if summary_line summary line then
    (strip (remove_all "SUMMARY:" (remove_all "**SUMMARY**:" line)), recs)
  else
    match severity_tag line with
    | None => state
    | Some sev =>
        match tagged_line sev line with
        | Some r => (summary, (recs ++ [r])%list)
        | None => state
        end
    end.

Definition _parse_openai_response (response_text : string)
  : string * list Recommendation :=
  let (summary, recs) :=
    fold_left response_line (split_on nl response_text) (EmptyString, []) in
  (if is_empty summary
   then "Configuration analyzed. See recommendations below."
   else summary,
   recs).

(** *** The analysis *)

Section Analyze.

(** The text-generation service: [None] when no client is configured;
    otherwise what the request made from a prompt comes back with, the
    text of the reply or [None] for an exception. *)
Variable client : option (string -> option string).

(** The prompt built from the inputs ([None] if building it raises);
    it is only handed to the service. *)
Variable _create_analysis_prompt :
  SparkConfig -> option ExecutionMetrics -> option string.

(** [datetime.now().isoformat()]. *)
Variable now : string.

(** The [try] block: [None] when an exception is caught. *)
Definition ai_stage (call : string -> option string) (config : SparkConfig)
  (metrics : option ExecutionMetrics) : option (string * list Recommendation) :=
  match _create_analysis_prompt config metrics with
  | None => None
  | Some prompt =>
      match call prompt with
      | None => None
      | Some content => Some (_parse_openai_response content)
      end
  end.

Definition analyze (config : SparkConfig) (metrics : option ExecutionMetrics)
  : AnalysisResult :=
  let rule_based := _rule_based_analysis config metrics in
  match client with
  | Some call =>
      match ai_stage call config metrics with
      | Some (summary, ai_recommendations) =>
          mkAnalysisResult config metrics
            (rule_based ++ ai_recommendations)%list summary (Some now)
      | None =>
          mkAnalysisResult config metrics rule_based
            "Configuration analyzed using rule-based system." (Some now)
      end
  | None =>
      mkAnalysisResult config metrics rule_based
        "Configuration analyzed using rule-based system. Set OPENAI_API_KEY for AI-powered insights."
        (Some now)
  end.

End Analyze.

End ConfigAnalyzer.

(** ** Vocabulary of the specification *)

Module Spec.
Import PyStr SparkConfigParser ConfigAnalyzer.

(** A file system holding one file. *)
Definition single_file (path text : string) : filesystem :=
  fun p => if String.eqb p path then Some text else None.

(** *** Key/value dialect *)

(** The settings of a file, in the order of its lines. *)
Definition entries (lines : list string) : list (string * string) :=
  flat_map (fun line =>
              match key_value line with
              | Some kv => [kv]
              | None => []
              end) lines.

(** The value on the last line that sets [key]. *)
Fixpoint last_value (key : string) (es : list (string * string)) : option string :=
  match es with
  | [] => None
  | (k, v) :: rest =>
      match last_value key rest with
      | Some later => Some later
      | None => if String.eqb key k then Some v else None
      end
  end.

(** The recognised names whose value is an integer. *)
Definition integer_setting (key : string) : bool :=
  String.eqb key "spark.executor.cores" ||
  String.eqb key "spark.executor.instances" ||
  String.eqb key "spark.default.parallelism" ||
  String.eqb key "spark.sql.shuffle.partitions".

(** The two names promoted to integers from [--conf]. *)
Definition conf_integer_setting (key : string) : bool :=
  String.eqb key "spark.default.parallelism" ||
  String.eqb key "spark.sql.shuffle.partitions".

(** *** Typed fields and their raw form *)

Definition recorded_str (cfg : SparkConfig) (key : string) (field : option string)
  : Prop :=
  forall v, field = Some v -> Dict.get key (raw_configs cfg) = Some v.

Definition recorded_int (cfg : SparkConfig) (key : string) (field : option Z)
  : Prop :=
  forall n, field = Some n ->
    exists v, Dict.get key (raw_configs cfg) = Some v /\ int v = Some n.

Definition recorded_flag (cfg : SparkConfig) (key : string) (field : bool)
  : Prop :=
  field = true ->
    exists v, Dict.get key (raw_configs cfg) = Some v /\ lower v = "true".

(** Every typed field that is present is in [raw_configs] under its
    canonical name. *)
Definition typed_fields_recorded (cfg : SparkConfig) : Prop :=
  recorded_str cfg "spark.driver.memory" (driver_memory cfg) /\
  recorded_str cfg "spark.executor.memory" (executor_memory cfg) /\
  recorded_int cfg "spark.executor.cores" (executor_cores cfg) /\
  recorded_int cfg "spark.executor.instances" (num_executors cfg) /\
  recorded_int cfg "spark.default.parallelism" (default_parallelism cfg) /\
  recorded_int cfg "spark.sql.shuffle.partitions" (shuffle_partitions cfg) /\
  recorded_flag cfg "spark.dynamicAllocation.enabled" (dynamic_allocation_enabled cfg) /\
  recorded_str cfg "spark.app.name" (app_name cfg).

(** The same for the three fields that [--conf] promotes. *)
Definition conf_fields_recorded (cfg : SparkConfig) : Prop :=
  recorded_int cfg "spark.default.parallelism" (default_parallelism cfg) /\
  recorded_int cfg "spark.sql.shuffle.partitions" (shuffle_partitions cfg) /\
  recorded_flag cfg "spark.dynamicAllocation.enabled" (dynamic_allocation_enabled cfg).

(** [raw_configs] after the assignments of a list of pairs. *)
Definition record_all (pairs : list (string * string)) (d : Dict.t) : Dict.t :=
  fold_left (fun acc kv => Dict.set (fst kv) (snd kv) acc) pairs d.

(** *** Continued lines *)

(** A physical line whose text [body] is followed by the continuation
    character and the line feed. *)
Definition continued (body : string) : string := body ++ BS ++ NL.

(** The text gathered from a chain of continued lines: what was gathered
    before is trimmed, one blank is put in, and the next body follows
    without its leading blanks. *)
Fixpoint chain_text (acc : string) (bodies : list string) : string :=
  match bodies with
  | [] => acc
  | b :: bs => chain_text (strip acc ++ " " ++ lstrip b) bs
  end.

(** The logical line made of a chain of continued lines and the line
    [last] that ends it. *)
Definition logical_line (bodies : list string) (last : string) : string :=
  match bodies with
  | [] => rstrip_nl last
  | b :: bs => strip (chain_text b bs) ++ " " ++ rstrip_nl (strip last)
  end.

(** *** Rule battery *)

Definition rule_titles : list string :=
  [ "Excessive Driver Memory";
    "Inefficient Shuffle Partitions";
    "Enable Dynamic Allocation";
    "High Memory Spilling" ].

(** [xs] is [ys] with some elements left out. *)
Fixpoint subsequence (xs ys : list string) : bool :=
  match xs, ys with
  | [], _ => true
  | _ :: _, [] => false
  | x :: xs', y :: ys' =>
      if String.eqb x y then subsequence xs' ys' else subsequence xs ys'
  end.




Fixpoint all_chars (p : ascii -> bool) (s : string) : bool :=
  match s with
  | EmptyString => true
  | String c rest => p c && all_chars p rest
  end.

(** A non-empty run of digits. *)
Definition numeral (s : string) : bool :=
  negb (is_empty s) && all_chars isdigit s.


(** A field after the lines [es]: the last value of [key], read by
    [f], or what the field held before when no line sets [key]. *)
Definition overwritten {A : Type} (es : list (string * string)) (key : string)
  (f : string -> A) (old : A) : A :=
  match last_value key es with
  | Some v => f v
  | None => old
  end.

(** The record [c'] is [c] after the settings [es] of the key/value
    dialect. *)
Definition settled (es : list (string * string)) (c c' : SparkConfig) : Prop :=
  (forall key, Dict.get key (raw_configs c') =
               overwritten es key Some (Dict.get key (raw_configs c))) /\
  source_file c' = source_file c /\
  master c' = master c /\
  deploy_mode c' = deploy_mode c /\
  driver_memory c' =
    overwritten es "spark.driver.memory" Some (driver_memory c) /\
  executor_memory c' =
    overwritten es "spark.executor.memory" Some (executor_memory c) /\
  executor_cores c' =
    overwritten es "spark.executor.cores" int (executor_cores c) /\
  num_executors c' =
    overwritten es "spark.executor.instances" int (num_executors c) /\
  default_parallelism c' =
    overwritten es "spark.default.parallelism" int (default_parallelism c) /\
  shuffle_partitions c' =
    overwritten es "spark.sql.shuffle.partitions" int (shuffle_partitions c) /\
  dynamic_allocation_enabled c' =
    overwritten es "spark.dynamicAllocation.enabled"
      (fun v => String.eqb (lower v) "true") (dynamic_allocation_enabled c) /\
  app_name c' =
    overwritten es "spark.app.name" Some (app_name c).

(** The record [c'] is [c] after the [--conf] occurrences [es]. *)
Definition conf_settled (es : list (string * string)) (c c' : SparkConfig) : Prop :=
  (forall key, Dict.get key (raw_configs c') =
               overwritten es key Some (Dict.get key (raw_configs c))) /\
  default_parallelism c' =
    overwritten es "spark.default.parallelism" int (default_parallelism c) /\
  shuffle_partitions c' =
    overwritten es "spark.sql.shuffle.partitions" int (shuffle_partitions c) /\
  dynamic_allocation_enabled c' =
    overwritten es "spark.dynamicAllocation.enabled"
      (fun v => String.eqb (lower v) "true") (dynamic_allocation_enabled c).

(** The part of a record that only [--conf] writes. *)
Definition conf_part (c : SparkConfig)
  : Dict.t * option Z * option Z * bool :=
  (raw_configs c, default_parallelism c, shuffle_partitions c,
   dynamic_allocation_enabled c).

(** The value found for a flag, if the buffer has one. *)
Definition flag_found (flag : string) (tok : ascii -> bool) (buffer : string)
  : option string :=
  option_map fst (Re.search (Re.flag_value flag tok) buffer).

(** The record after the loop over [patterns]. *)
Definition with_flags (buffer : string) (c : SparkConfig) : SparkConfig :=
  let put {A : Type} (found : option A) (setter : A -> SparkConfig -> SparkConfig)
        (c : SparkConfig) : SparkConfig :=
    match found with
    | Some value => setter value c
    | None => c
    end in
  put (option_map digits_value (flag_found "--num-executors" isdigit buffer))
    set_num_executors
  (put (option_map digits_value (flag_found "--executor-cores" isdigit buffer))
     set_executor_cores
  (put (flag_found "--executor-memory" Re.nonspace buffer) set_executor_memory
  (put (flag_found "--driver-memory" Re.nonspace buffer) set_driver_memory
  (put (flag_found "--deploy-mode" Re.nonspace buffer) set_deploy_mode
  (put (flag_found "--master" Re.nonspace buffer) set_master c))))).

(** The part of a record that [--conf] leaves alone. *)
Definition flag_part (c : SparkConfig)
  : string * option string * option string * option Z * option Z *
    option string * option string :=
  (source_file c, driver_memory c, executor_memory c, executor_cores c,
   num_executors c, deploy_mode c, master c).

(** The settings of the file at [path], none when there is no file. *)
Definition settings_of (fs : filesystem) (path : string) : list (string * string) :=
  match fs path with
  | Some text => entries (TextIO.readlines text)
  | None => []
  end.

(** The search buffer of the script at [path]. *)
Definition buffer_of (fs : filesystem) (path : string) : string :=
  match fs path with
  | Some text => full_command (TextIO.readlines text)
  | None => EmptyString
  end.

(** The [--conf] occurrences of the script at [path], in order. *)
Definition conf_occurrences (fs : filesystem) (path : string)
  : list (string * string) :=
  match fs path with
  | Some text => Re.finditer Re.conf_flag (full_command (TextIO.readlines text))
  | None => []
  end.

(** A script of three physical lines in which the continuation falls
    between [--executor-cores] and its value. *)
Definition three_line_script (value : string) : string :=
  "spark-submit " ++ BS ++ NL ++
  "  --executor-cores " ++ BS ++ NL ++
  "  " ++ value ++ " app.py" ++ NL.

(** The reply line of the sixth scenario. *)
Definition scenario_line : string :=
  "[WARNING] performance_tuning | Too many partitions | Current: 500 | Recommended: 100 | Impact: faster shuffles".

(** The two fixed summaries of an analysis without a reply. *)
Definition summary_without_client : string :=
  "Configuration analyzed using rule-based system. Set OPENAI_API_KEY for AI-powered insights.".

Definition summary_after_failure : string :=
  "Configuration analyzed using rule-based system.".


(** [s] has neither a line feed nor a carriage return. *)
Definition one_line (s : string) : bool :=
  negb (has_char nl s) && negb (has_char cr s).

(** The text of a script made of a chain of continued lines and the
    line that ends it. *)
Definition chain_script (bodies : list string) (last : string) : string :=
  String.concat EmptyString (map continued bodies) ++ last ++ NL.


Fixpoint last_char (s : string) : option ascii :=
match s with
| EmptyString => None
| String c EmptyString => Some c
| String _ rest => last_char rest
end.

(** [s] is not empty and neither starts nor ends with a blank. *)
Definition trimmed (s : string) : bool :=
match s with
| String c _ => negb (isspace c)
| EmptyString => false
end &&
match last_char s with
| Some c => negb (isspace c)
| None => false
end.


(** No match of [m] begins inside [pre] when [s] follows it. *)
Fixpoint no_match_in {A : Type} (m : Re.matcher A) (pre s : string) : Prop :=
match pre with
| EmptyString => True
| String c p => m (String c (p ++ s)) = None /\ no_match_in m p s
end.

End Spec.

Module Examples.
Import PyStr SparkConfigParser ConfigAnalyzer Spec.

(** A settings file that sets the executor cores twice. *)
Definition cores_twice : filesystem :=
  single_file "spark-defaults.conf"
    ("spark.executor.cores 2" ++ NL ++ "# tuned" ++ NL ++
     "spark.executor.cores=4" ++ NL).

Definition cores_twice_record : SparkConfig :=
  set_executor_cores 4
    (set_raw "spark.executor.cores" "4" (new_config "spark-defaults.conf")).

(** A settings file whose core count is not a number. *)
Definition cores_not_a_number : filesystem :=
  single_file "spark-defaults.conf" ("spark.executor.cores many" ++ NL).

(** A deploy script with a positional flag only. *)
Definition driver_flag_script : filesystem :=
  single_file "submit.sh" "spark-submit --driver-memory 4g app.py".

(** A deploy script that sets the shuffle partitions through [--conf]. *)
Definition conf_script : filesystem :=
  single_file "submit.sh"
    "spark-submit --conf spark.sql.shuffle.partitions=500 app.py".

Definition conf_script_record : SparkConfig :=
  set_shuffle_partitions 500
    (set_raw "spark.sql.shuffle.partitions" "500" (new_config "submit.sh")).

(** A deploy script whose core count is not a number. *)
Definition cores_flag_script : filesystem :=
  single_file "submit.sh" "spark-submit --executor-cores abc app.py".

(** A deploy script whose core count starts with a digit and goes on
    with a letter. *)
Definition cores_suffix_script : filesystem :=
  single_file "submit.sh" "spark-submit --executor-cores 4x app.py".

(** A record with 500 shuffle partitions and nothing else. *)
Definition partitions_500 : SparkConfig :=
  set_shuffle_partitions 500 (new_config "spark-defaults.conf").

(** A record with a driver memory of twenty gigabytes. *)
Definition driver_20g : SparkConfig :=
  set_driver_memory "20g"
    (set_raw "spark.driver.memory" "20g" (new_config "spark-defaults.conf")).
End Examples.

(** ** Vocabulary of the further properties *)

Module More.
Import PyStr SparkConfigParser ConfigAnalyzer Spec.

(** *** Settings files *)

(** A key as a settings file can carry it: not empty, without blanks and
    equals signs, and not starting like a comment. *)
Definition plain_key (k : string) : bool :=
  negb (is_empty k) && all_chars Re.key_char k && negb (startswith "#" k).

(** A value as a settings file can carry it: on one line, not empty, and
    without blanks at its ends. *)
Definition plain_value (v : string) : bool := trimmed v && one_line v.

(** What may stand between key and value: one equals sign, or a run of
    blanks that stays on the line. *)
Definition separator (sep : string) : bool :=
  String.eqb sep "=" ||
  (negb (is_empty sep) && all_chars isspace sep && one_line sep).

Definition setting_line (sep : string) (kv : string * string) : string :=
  fst kv ++ sep ++ snd kv ++ NL.

(** The text of a settings file that holds the settings [es], one to a
    line. *)
Definition settings_text (sep : string) (es : list (string * string)) : string :=
  String.concat EmptyString (map (setting_line sep) es).

(** A line that carries no setting: blank, a comment, or one token. *)
Definition noise (line : string) : bool :=
  let l := strip line in
  is_empty l || startswith "#" l || all_chars Re.key_char l.

(** A text that is empty or ends in a line feed, so that what follows it
    starts a line. *)
Definition whole_lines (text : string) : bool :=
  match last_char text with
  | Some c => Ascii.eqb c nl
  | None => true
  end.

(** Every pair of [es] can be written on a line of its own. *)
Definition writable (es : list (string * string)) : bool :=
  forallb (fun kv => plain_key (fst kv) && plain_value (snd kv)) es.

(** No name occurs twice. *)
Fixpoint distinct (ks : list string) : bool :=
  match ks with
  | [] => true
  | k :: rest => negb (existsb (String.eqb k) rest) && distinct rest
  end.

(** The values of the integer settings are accepted by [int]. *)
Definition integers_readable (es : list (string * string)) : bool :=
  forallb (fun kv => negb (integer_setting (fst kv)) ||
                     match int (snd kv) with Some _ => true | None => false end) es.

End More.

Module Script.
Import PyStr SparkConfigParser ConfigAnalyzer Spec.

(** *** Deploy scripts *)

(** The literal [lit] begins somewhere inside [pre] when [s] follows. *)
Fixpoint starts_in (lit pre s : string) : bool :=
  match pre with
  | EmptyString => false
  | String c p => String.prefix lit (pre ++ s) || starts_in lit p s
  end.

(** A physical line that does not ask for its successor. *)
Definition closed_line (line : string) : bool :=
  negb (endswith BS (rstrip_nl line)).

(** The chain of continued lines [bodies] ends with the line [last]:
    nothing follows it, or the line rebuilt does not end in a backslash
    and so does not take the next one in. *)
Definition chain_closed (bodies : list string) (last : string)
  (after : list string) : bool :=
  match after with
  | [] => true
  | _ :: _ => negb (endswith BS (logical_line bodies last))
  end.

(** The logical lines [xs] as they stand in the buffer before a further
    line: each followed by the blank that joins it to the next. *)
Definition joined_before (xs : list string) : string :=
  fold_right (fun x acc => (x ++ " " ++ acc)%string) EmptyString xs.

(** A run of blanks, and a token: a run of characters that are not. *)
Definition blanks (s : string) : bool :=
  negb (is_empty s) && all_chars isspace s.

Definition token (s : string) : bool :=
  negb (is_empty s) && all_chars Re.nonspace s.

(** Nothing, or something that starts with a blank. *)
Definition ends_token (rest : string) : bool :=
  match rest with
  | EmptyString => true
  | String c _ => isspace c
  end.

(** The name given by the [APP_NAME=] assignment of the buffer. *)
Definition assigned_name (buffer : string) : option string :=
  option_map fst (Re.search Re.app_name_assignment buffer).

(** The application name of a script: the assignment when it gives a
    name that is not empty, else the [--name] flag, else whatever the
    assignment gave. *)
Definition resolved_name (buffer : string) : option string :=
  match assigned_name buffer with
  | Some name =>
      if is_empty name then
        match flag_found "--name" Re.nonspace buffer with
        | Some flag_name => Some flag_name
        | None => Some name
        end
      else Some name
  | None => flag_found "--name" Re.nonspace buffer
  end.

(** The four flags whose value is stored as it is, and the field each
    one fills. *)
Definition string_flags : list string :=
  ["--master"; "--deploy-mode"; "--driver-memory"; "--executor-memory"].

Definition string_field (flag : string) (config : SparkConfig) : option string :=
  if String.eqb flag "--master" then master config
  else if String.eqb flag "--deploy-mode" then deploy_mode config
  else if String.eqb flag "--driver-memory" then driver_memory config
  else if String.eqb flag "--executor-memory" then executor_memory config
  else None.

End Script.

Module Memory.
Import PyStr SparkConfigParser ConfigAnalyzer Spec.

(** *** Memory sizes *)

Definition starts_with_digit (s : string) : bool :=
  match s with
  | String c _ => isdigit c
  | EmptyString => false
  end.

(** The four unit letters. *)
Definition unit_letters : list string := ["k"; "m"; "g"; "t"].

End Memory.

Module Rules.
Import PyStr SparkConfigParser ConfigAnalyzer Spec.

Open Scope Z_scope.

(** *** Rule battery *)

Definition is_warning (r : Recommendation) : bool :=
  match severity r with
  | WARNING => true
  | _ => false
  end.

(** What the spilled bytes are divided by:
    [max(metrics.executor_memory_used or 1, 1)]. *)
Definition spill_base (m : ExecutionMetrics) : Z :=
  Z.max (or_int (executor_memory_used m) 1) 1.

(** The values of a record and of the metrics that the rules read. *)
Definition config_view (c : SparkConfig)
  : option string * option string * option Z * bool :=
  (driver_memory c, executor_memory c, shuffle_partitions c,
   dynamic_allocation_enabled c).

Definition metrics_view (m : option ExecutionMetrics)
  : option (option Z * option Z * option Z) :=
  option_map (fun mm => (input_bytes mm, executor_memory_spilled mm,
                         executor_memory_used mm)) m.

End Rules.

Module Reply.
Import PyStr SparkConfigParser ConfigAnalyzer Spec.

(** *** Replies *)

(** The recommendations that one line of a reply stands for. *)
Definition line_recommendations (raw_line : string) : list Recommendation :=
  let line := strip raw_line in
  match severity_tag line with
  | Some sev =>
      match tagged_line sev line with
      | Some r => [r]
      | None => []
      end
  | None => []
  end.




End Reply.

(** ** Selections of recommendations ([models.py], [server.py]) *)

Module Selection.
Import PyStr SparkConfigParser ConfigAnalyzer Spec.

(** [==] on the members of the enumeration. *)
Definition severity_eqb (a b : RecommendationSeverity) : bool :=
  match a, b with
  | CRITICAL, CRITICAL => true
  | WARNING, WARNING => true
  | INFO, INFO => true
  | _, _ => false
  end.

(** [severity.value]. *)
Definition severity_value (s : RecommendationSeverity) : string :=
  match s with
  | CRITICAL => "critical"
  | WARNING => "warning"
  | INFO => "info"
  end.

(** The two selections of [AnalysisResult]. *)
Definition get_critical_recommendations (a : AnalysisResult) : list Recommendation :=
  filter (fun r => severity_eqb (severity r) CRITICAL) (recommendations a).

Definition get_by_category (a : AnalysisResult) (wanted : string)
  : list Recommendation :=
  filter (fun r => String.eqb (category r) wanted) (recommendations a).

(** The tool [get_recommendations], from the recommendations of the
    analysis on: the table [severity_map], the two filters, and the
    four counts of the answer.  The table is looked up inside the
    comprehension, once for each recommendation: a name it does not
    have raises [KeyError] at the first recommendation, and nothing
    where there is none.  [None] is that [KeyError], which the handler
    turns into an answer without success. *)
Definition severity_map (name : string) : option RecommendationSeverity :=
  if String.eqb name "critical" then Some CRITICAL
  else if String.eqb name "warning" then Some WARNING
  else if String.eqb name "info" then Some INFO
  else None.

Fixpoint by_severity (severity_filter : string) (recs : list Recommendation)
  : option (list Recommendation) :=
  match recs with
  | [] => Some []
  | r :: rest =>
      match severity_map severity_filter with
      | None => None
      | Some wanted =>
          match by_severity severity_filter rest with
          | Some kept =>
              Some (if severity_eqb (severity r) wanted then r :: kept else kept)
          | None => None
          end
      end
  end.

Definition filter_recommendations (severity_filter category_filter : string)
  (recs : list Recommendation) : option (list Recommendation) :=
  match
    (if String.eqb severity_filter "all" then Some recs
     else by_severity severity_filter recs)
  with
  | Some kept =>
      Some (if String.eqb category_filter "all" then kept
            else filter (fun r => String.eqb (category r) category_filter) kept)
  | None => None
  end.

Definition total_count (shown : list Recommendation) : Z :=
  Z.of_nat (List.length shown).

Definition count_of (value : string) (shown : list Recommendation) : Z :=
  Z.of_nat (List.length
              (filter (fun r => String.eqb (severity_value (severity r)) value)
                 shown)).

Definition critical_count : list Recommendation -> Z := count_of "critical".
Definition warning_count : list Recommendation -> Z := count_of "warning".
Definition info_count : list Recommendation -> Z := count_of "info".

End Selection.

(** ** The metrics client ([history_server_client.py])

    The payload of the History Server is taken as it is documented: an
    application has a name and an identifier, a list of attempts, a
    summary of its executors and a list of stages, and the numbers in
    them are integers.  A key that may be absent is an option; an
    absent list or summary reads as the empty one, which is what the
    fields below hold then.  Requests over the network are not
    modelled: the functions that make them are given for the mode that
    reads the mock file, whose content is a parameter. *)

Module HistoryServerClient.
Import PyStr ConfigAnalyzer.

Open Scope Z_scope.

Record Attempt : Type := mkAttempt {
  a_duration : option Z
}.

Record Stage : Type := mkStage {
  s_status : option string;
  s_numTasks : option Z;
  s_numFailedTasks : option Z;
  s_shuffleReadBytes : option Z;
  s_shuffleWriteBytes : option Z;
  s_inputBytes : option Z;
  s_outputBytes : option Z
}.

Record AppData : Type := mkAppData {
  d_id : option string;
  d_name : option string;
  d_attempts : list Attempt;
  d_executorSummary : list (string * Z);
  d_stages : list Stage
}.

(** [d.get(key, default)] on a dictionary of integers. *)
Fixpoint get_int (key : string) (d : list (string * Z)) (default : Z) : Z :=
  match d with
  | [] => default
  | (k, v) :: d' => if String.eqb key k then v else get_int key d' default
  end.

(** [d.get(key, '')] and [d.get(key, 0)] on an optional entry. *)
Definition or_empty (x : option string) : string :=
  match x with
  | Some v => v
  | None => EmptyString
  end.

Definition or_zero (x : option Z) : Z :=
  match x with
  | Some v => v
  | None => 0
  end.

(** [if key in stage: total = (total or 0) + stage[key]]. *)
Definition add_bytes (total : option Z) (stage_value : option Z) : option Z :=
  match stage_value with
  | Some v => Some (or_int total 0 + v)
  | None => total
  end.

(** [s.get('status') == 'FAILED']. *)
Definition is_failed (s : Stage) : bool :=
  match s_status s with
  | Some text => String.eqb text "FAILED"
  | None => false
  end.

(** One turn of the loop over the stages. *)
Definition stage_step (m : ExecutionMetrics) (s : Stage) : ExecutionMetrics :=
  mkExecutionMetrics (app_id m) (metrics_app_name m) (duration_ms m)
    (total_tasks m + or_zero (s_numTasks s))
    (failed_tasks m + or_zero (s_numFailedTasks s))
    (total_stages m) (failed_stages m)
    (executor_memory_used m) (executor_memory_spilled m)
    (add_bytes (shuffle_read_bytes m) (s_shuffleReadBytes s))
    (add_bytes (shuffle_write_bytes m) (s_shuffleWriteBytes s))
    (add_bytes (input_bytes m) (s_inputBytes s))
    (add_bytes (output_bytes m) (s_outputBytes s))
    (peak_memory_usage m) (gc_time_ms m).

(** The typed fields of the record that [_parse_metrics] returns.  The
    source also keeps the payload itself, as it came, in the field
    [raw_metrics] of that record, which has no counterpart here. *)
Definition _parse_metrics (app_data : AppData) : ExecutionMetrics :=
  let duration :=
    match d_attempts app_data with
    | [] => None
    | first :: rest => a_duration (last rest first)
    end in
  let executor_summary := d_executorSummary app_data in
  let used :=
    match executor_summary with
    | [] => None
    | _ :: _ => Some (get_int "memoryUsed" executor_summary 0)
    end in
  let spilled :=
    match executor_summary with
    | [] => None
    | _ :: _ => Some (get_int "diskUsed" executor_summary 0)
    end in
  let stages := d_stages app_data in
  fold_left stage_step stages
    (mkExecutionMetrics (or_empty (d_id app_data)) (or_empty (d_name app_data))
       duration 0 0
       (Z.of_nat (List.length stages))
       (Z.of_nat (List.length (filter is_failed stages)))
       used spilled None None None None None None).

(** The metrics returned when the mock file has nothing for the
    application. *)
Definition default_metrics (app_id : string) : ExecutionMetrics :=
  mkExecutionMetrics app_id "Production_Data_Pipeline_v1"
    (Some 1800000) 500 5 10 0
    (Some (60 * 1024 * 1024 * 1024))
    (Some (5 * 1024 * 1024 * 1024))
    (Some (20 * 1024 * 1024 * 1024))
    (Some (15 * 1024 * 1024 * 1024))
    (Some (50 * 1024 * 1024 * 1024))
    (Some (30 * 1024 * 1024 * 1024))
    (Some (75 * 1024 * 1024 * 1024))
    (Some 120000).

(** What a lookup in the mock data comes to: a value, or the
    [KeyError] of [app['id']] on an application without identifier. *)
Inductive lookup (A : Type) : Type :=
| Found (a : A)
| KeyError.

Arguments Found {A} a.
Arguments KeyError {A}.

(** The loop over the applications of the mock file; [Found None] when
    it ends without a match. *)
Fixpoint matching_application (apps : list AppData) (app_id : string)
  : lookup (option AppData) :=
  match apps with
  | [] => Found None
  | app :: rest =>
      match d_id app with
      | None => KeyError
      | Some i =>
          if String.eqb i app_id || String.eqb (or_empty (d_name app)) app_id
          then Found (Some app)
          else matching_application rest app_id
      end
  end.

(** [mock_file] is the list of applications in the mock file, [None]
    when the file does not exist. *)
Definition _get_mock_metrics (mock_file : option (list AppData)) (app_id : string)
  : lookup ExecutionMetrics :=
  match mock_file with
  | Some apps =>
      match matching_application apps app_id with
      | Found (Some app) => Found (_parse_metrics app)
      | Found None => Found (default_metrics app_id)
      | KeyError => KeyError
      end
  | None => Found (default_metrics app_id)
  end.

(** The one application listed when there is no mock file. *)
Definition default_application : AppData :=
  mkAppData (Some "app-20260126-001") (Some "Production_Data_Pipeline_v1")
    [] [] [].

(** [list_applications] and [find_application_by_name] in the mode that
    reads the mock file. *)
Definition list_applications (mock_file : option (list AppData)) (limit : nat)
  : list AppData :=
  match mock_file with
  | Some apps => firstn limit apps
  | None => [default_application]
  end.

Fixpoint first_by_name (mock_file : option (list AppData)) (apps : list AppData)
  (name_pattern : string) : lookup ExecutionMetrics :=
  match apps with
  | [] => _get_mock_metrics mock_file name_pattern
  | app :: rest =>
      if contains (lower name_pattern) (lower (or_empty (d_name app))) then
        match d_id app with
        | Some i => _get_mock_metrics mock_file i
        | None => KeyError
        end
      else first_by_name mock_file rest name_pattern
  end.

Definition find_application_by_name (mock_file : option (list AppData))
  (name_pattern : string) : lookup ExecutionMetrics :=
  first_by_name mock_file (list_applications mock_file 100) name_pattern.

(** The fields of the metrics other than [raw_metrics]. *)
Definition typed_fields (m : ExecutionMetrics)
  : string * string * option Z * Z * Z * Z * Z * option Z * option Z *
    option Z * option Z * option Z * option Z * option Z * option Z :=
  (app_id m, metrics_app_name m, duration_ms m, total_tasks m, failed_tasks m,
   total_stages m, failed_stages m, executor_memory_used m,
   executor_memory_spilled m, shuffle_read_bytes m, shuffle_write_bytes m,
   input_bytes m, output_bytes m, peak_memory_usage m, gc_time_ms m).

(** *** Aggregates *)

Definition sum_of (f : Stage -> option Z) (stages : list Stage) : Z :=
  fold_right (fun s acc => or_zero (f s) + acc) 0 stages.

Definition any_has (f : Stage -> option Z) (stages : list Stage) : bool :=
  existsb (fun s => match f s with Some _ => true | None => false end) stages.

(** The sum of the values that are there, when there is one. *)
Definition total_of (f : Stage -> option Z) (stages : list Stage) : option Z :=
  if any_has f stages then Some (sum_of f stages) else None.

End HistoryServerClient.

(** ** Scanning a directory ([parse_directory])

    The traversal itself is the operating system's: what [rglob] yields
    for the two patterns is given, in the order it yields it. *)

Module Directory.
Import PyStr SparkConfigParser.

Record listing : Type := mkListing {
  conf_files : list string;
  script_files : list string
}.

(** What stops a scan: an exception of a parser, or a listed script
    that cannot be opened. *)
Inductive failure : Type :=
| ParseError (e : exn)
| FileNotFoundError.

Inductive scan : Type :=
| Done (configs : list SparkConfig)
| Failed (f : failure).

(** The loop over the settings files. *)
Fixpoint parse_conf_files (fs : filesystem) (files : list string)
  (configs : list SparkConfig) : scan :=
  match files with
  | [] => Done configs
  | conf_file :: rest =>
      match parse_spark_defaults fs conf_file with
      | Ok config => parse_conf_files fs rest (configs ++ [config])
      | Raise e => Failed (ParseError e)
      end
  end.

(** The loop over the scripts: a script counts when its text mentions
    [spark-submit]. *)
Fixpoint parse_script_files (fs : filesystem) (files : list string)
  (configs : list SparkConfig) : scan :=
  match files with
  | [] => Done configs
  | script_file :: rest =>
      match fs script_file with
      | None => Failed FileNotFoundError
      | Some text =>
          if contains "spark-submit" (TextIO.read text) then
            match parse_spark_submit_script fs script_file with
            | Ok config => parse_script_files fs rest (configs ++ [config])
            | Raise e => Failed (ParseError e)
            end
          else parse_script_files fs rest configs
      end
  end.

(** [directory] is [None] when the directory does not exist. *)
Definition parse_directory (fs : filesystem) (directory : option listing) : scan :=
  match directory with
  | None => Done []
  | Some found =>
      match parse_conf_files fs (conf_files found) [] with
      | Done configs => parse_script_files fs (script_files found) configs
      | Failed f => Failed f
      end
  end.

(** The script at [path] mentions [spark-submit]. *)
Definition mentions_submit (fs : filesystem) (path : string) : bool :=
  match fs path with
  | Some text => contains "spark-submit" (TextIO.read text)
  | None => false
  end.

End Directory.

(** ** Sizes in the prompt ([_format_bytes])

    The size is an integer; formatting it and dividing it make a float
    of it.  A float is kept as a pair [(m, s)] standing for [m * 2 ^ s],
    as in [Float], with its sign aside: dividing by 1024 lowers [s] by
    ten and is exact, and [.2f] prints the hundredths nearest to the
    value, halves going to the even one. *)

Module Formatting.
Import PyStr.

Open Scope Z_scope.

(** [float(n)]; [None] where it raises [OverflowError]. *)
Definition float_of_int (n : Z) : option (Z * Z) :=
  if n =? 0 then Some (0, 0)
  else
    let (m, s) := Float.nearest (Z.abs n) 1 in
    if 2 ^ 1024 <=? Z.shiftl m s then None else Some (m, s).

(** The hundredths nearest to [m * 2 ^ s]. *)
Definition hundredths (m s : Z) : Z :=
  if 0 <=? s then 100 * m * 2 ^ s
  else Float.round_half_even (100 * m) (2 ^ (- s)).

Definition two_digits (d : Z) : string :=
  if d <? 10 then "0" ++ str d else str d.

(** The text of a number of hundredths. *)
Definition hundredths_text (h : Z) : string :=
  str (h / 100) ++ "." ++ two_digits (h mod 100).

(** [f"{x:.2f}"]. *)
Definition fixed2 (negative : bool) (m s : Z) : string :=
  (if negative then "-" else EmptyString) ++ hundredths_text (hundredths m s).

(** [x < 1024.0]. *)
Definition below_1024 (m s : Z) : bool :=
  if 0 <=? s then m * 2 ^ s <? 1024 else m <? 1024 * 2 ^ (- s).

(** The loop over the units.  The first comparison is made on the
    integer itself, which is below 1024 exactly when its float is. *)
Fixpoint units_loop (units : list string) (negative : bool) (m s : Z) : string :=
  match units with
  | [] => fixed2 negative m s ++ " PB"
  | unit :: rest =>
      if negative || below_1024 m s then fixed2 negative m s ++ " " ++ unit
      else units_loop rest negative m (s - 10)
  end.

Definition _format_bytes (bytes_value : option Z) : result string :=
  match bytes_value with
  | None => Ok "N/A"
  | Some n =>
      match float_of_int n with
      | None => Raise OverflowError
      | Some (m, s) =>
          Ok (units_loop ["B"; "KB"; "MB"; "GB"; "TB"] (n <? 0) m s)
      end
  end.

(** How many times a size is divided by 1024, and the unit it is shown
    in. *)
Definition unit_index (n : Z) : Z :=
  if n <? 1024 then 0
  else if n <? 1024 ^ 2 then 1
  else if n <? 1024 ^ 3 then 2
  else if n <? 1024 ^ 4 then 3
  else if n <? 1024 ^ 5 then 4
  else 5.

Definition unit_name (index : Z) : string :=
  nth (Z.to_nat index) ["B"; "KB"; "MB"; "GB"; "TB"] "PB".

End Formatting.

(** ** The tool [get_recommendations] ([server.py])

    The handler from its arguments to the answer it serialises, with
    the metrics client in the mode that reads the mock file, which is
    the mode it starts in.  Whatever exception is raised on the way
    makes the answer one without success; its message is not kept. *)

Module Server.
Import PyStr SparkConfigParser ConfigAnalyzer HistoryServerClient Selection.

Record answer : Type := mkAnswer {
  answer_summary : string;
  answer_recommendations : list Recommendation;
  answer_total_count : Z;
  answer_critical_count : Z;
  answer_warning_count : Z;
  answer_info_count : Z
}.

Inductive reply : Type :=
| Success (a : answer)
| Failure.

Section Handler.

Variable fs : filesystem.
Variable mock_file : option (list AppData).
Variable client : option (string -> option string).
Variable _create_analysis_prompt :
  SparkConfig -> option ExecutionMetrics -> option string.
Variable now : string.

(** [metrics = None], then the lookup [if app_identifier:]. *)
Definition requested_metrics (app_identifier : option string)
  : lookup (option ExecutionMetrics) :=
  match app_identifier with
  | Some identifier =>
      if is_empty identifier then Found None
      else
        match find_application_by_name mock_file identifier with
        | Found m => Found (Some m)
        | KeyError => KeyError
        end
  | None => Found None
  end.

Definition get_recommendations (config_path : string)
  (app_identifier : option string) (severity_filter category_filter : string)
  : reply :=
  match parse_file fs config_path with
  | Raise _ => Failure
  | Ok config =>
      match requested_metrics app_identifier with
      | KeyError => Failure
      | Found metrics =>
          let analysis := analyze client _create_analysis_prompt now config metrics in
          match filter_recommendations severity_filter category_filter
                  (recommendations analysis) with
          | None => Failure
          | Some shown =>
              Success (mkAnswer (summary analysis) shown
                         (total_count shown) (critical_count shown)
                         (warning_count shown) (info_count shown))
          end
      end
  end.

End Handler.

End Server.

(** * Properties *)

Import PyStr SparkConfigParser ConfigAnalyzer Spec Examples.

Open Scope string_scope.

(** ** Dictionaries *)

Lemma get_set_same (k v : string) (d : Dict.t) :
  Dict.get k (Dict.set k v d) = Some v.
Proof.
  induction d as [|[k' v'] d IH]; simpl.
  - now rewrite String.eqb_refl.
  - destruct (String.eqb_spec k k') as [->|N]; simpl.
    + now rewrite String.eqb_refl.
    + now rewrite (proj2 (String.eqb_neq k k') N).
Qed.

Lemma get_set_other (k k' v : string) (d : Dict.t) :
  k <> k' -> Dict.get k (Dict.set k' v d) = Dict.get k d.
Proof.
  intros N. induction d as [|[k0 v0] d IH]; simpl.
  - now rewrite (proj2 (String.eqb_neq k k') N).
  - destruct (String.eqb_spec k' k0) as [->|N0]; simpl.
    + now rewrite (proj2 (String.eqb_neq k k0) N).
    + now rewrite IH.
Qed.

Lemma get_set (k k' v : string) (d : Dict.t) :
  Dict.get k (Dict.set k' v d) = if String.eqb k k' then Some v else Dict.get k d.
Proof.
  destruct (String.eqb_spec k k') as [->|N].
  - apply get_set_same.
  - now apply get_set_other.
Qed.

(** ** Key/value dialect: one line *)

Ltac split_key k :=
  repeat match goal with
         | |- context [String.eqb k ?s] =>
             destruct (String.eqb_spec k s); [subst k; simpl | ]
         end.

(** What a successful promotion leaves in every field. *)
Lemma promote_default_fields (k v : string) (c c' : SparkConfig) :
  promote_default k v c = Ok c' ->
  raw_configs c' = raw_configs c /\
  source_file c' = source_file c /\
  master c' = master c /\
  deploy_mode c' = deploy_mode c /\
  driver_memory c' =
    (if String.eqb k "spark.driver.memory" then Some v else driver_memory c) /\
  executor_memory c' =
    (if String.eqb k "spark.executor.memory" then Some v else executor_memory c) /\
  executor_cores c' =
    (if String.eqb k "spark.executor.cores" then int v else executor_cores c) /\
  num_executors c' =
    (if String.eqb k "spark.executor.instances" then int v else num_executors c) /\
  default_parallelism c' =
    (if String.eqb k "spark.default.parallelism" then int v else default_parallelism c) /\
  shuffle_partitions c' =
    (if String.eqb k "spark.sql.shuffle.partitions" then int v else shuffle_partitions c) /\
  dynamic_allocation_enabled c' =
    (if String.eqb k "spark.dynamicAllocation.enabled"
     then String.eqb (lower v) "true" else dynamic_allocation_enabled c) /\
  app_name c' =
    (if String.eqb k "spark.app.name" then Some v else app_name c).
Proof.
  unfold promote_default, int_or_raise.
  split_key k; try destruct (int v); simpl; intros [= <-]; simpl;
    repeat split; reflexivity.
Qed.

Lemma overwritten_cons {A : Type} (k v : string) (es : list (string * string))
  (key : string) (f : string -> A) (old : A) :
  overwritten ((k, v) :: es) key f old =
  overwritten es key f (if String.eqb k key then f v else old).
Proof.
  unfold overwritten; simpl. rewrite (String.eqb_sym key k).
  destruct (last_value key es); [reflexivity|].
  now destruct (String.eqb k key).
Qed.

Lemma settled_nil (c : SparkConfig) : settled [] c c.
Proof. unfold settled; repeat split; reflexivity. Qed.

(** One well-formed line followed by the settings [es]. *)
Lemma settled_cons (k v : string) (es : list (string * string))
  (c c1 c' : SparkConfig) :
  promote_default k v (set_raw k v c) = Ok c1 ->
  settled es c1 c' ->
  settled ((k, v) :: es) c c'.
Proof.
  intros P S. apply promote_default_fields in P. simpl in P.
  destruct P as (P0 & P1 & P2 & P3 & P4 & P5 & P6 & P7 & P8 & P9 & P10 & P11).
  destruct S as (S0 & S1 & S2 & S3 & S4 & S5 & S6 & S7 & S8 & S9 & S10 & S11).
  unfold settled. rewrite !overwritten_cons.
  repeat split; try congruence.
  intros key. rewrite overwritten_cons, S0, P0, get_set.
  now rewrite (String.eqb_sym key k).
Qed.

Lemma defaults_lines_settled (lines : list string) :
  forall c c', defaults_lines lines c = Ok c' -> settled (entries lines) c c'.
Proof.
  induction lines as [|line rest IH]; intros c c' H; simpl in H.
  - injection H as <-. apply settled_nil.
  - unfold defaults_line, entries in *. simpl.
    destruct (key_value line) as [[k v]|].
    + destruct (promote_default k v (set_raw k v c)) as [c1|e] eqn:P; simpl in H.
      * simpl. eapply settled_cons; eauto.
      * discriminate.
    + simpl in *. now apply IH.
Qed.

Lemma promote_default_raises (k v : string) (c : SparkConfig) :
  integer_setting k = true -> int v = None ->
  promote_default k v c = Raise ValueError.
Proof.
  unfold integer_setting, promote_default, int_or_raise. intros K V.
  repeat (apply orb_true_iff in K; destruct K as [K|K]);
    apply String.eqb_eq in K; subst k; simpl; now rewrite V.
Qed.

Lemma promote_default_returns (k v : string) (c : SparkConfig) :
  (integer_setting k = true -> int v <> None) ->
  exists c', promote_default k v c = Ok c'.
Proof.
  unfold integer_setting, promote_default, int_or_raise. intros V.
  split_key k; try (destruct (int v); [|exfalso; now apply V]);
    simpl; eauto.
Qed.

(** The only exception of a line is the one of [int]. *)
Lemma defaults_line_raise_kind (c : SparkConfig) (line : string) (e : exn) :
  defaults_line c line = Raise e -> e = ValueError.
Proof.
  unfold defaults_line. destruct (key_value line) as [[k v]|]; [|discriminate].
  unfold promote_default, int_or_raise.
  split_key k; try destruct (int v); simpl; intros [= <-]; reflexivity.
Qed.

Lemma defaults_lines_raises (lines : list string) (line k v : string) :
  In line lines -> key_value line = Some (k, v) ->
  integer_setting k = true -> int v = None ->
  forall c, defaults_lines lines c = Raise ValueError.
Proof.
  intros I KV K V. induction lines as [|l rest IH]; [easy|].
  intros c. simpl. destruct I as [->|I].
  - unfold defaults_line. rewrite KV.
    now rewrite (promote_default_raises k v _ K V).
  - destruct (defaults_line c l) as [c1|e] eqn:D; simpl; auto.
    now rewrite (defaults_line_raise_kind c l e D).
Qed.

Lemma defaults_lines_returns (lines : list string) :
  (forall k v, In (k, v) (entries lines) -> integer_setting k = true -> int v <> None) ->
  forall c, exists c', defaults_lines lines c = Ok c'.
Proof.
  induction lines as [|l rest IH]; intros V c; simpl; [eauto|].
  unfold entries in V. simpl in V. unfold defaults_line.
  destruct (key_value l) as [[k v]|]; simpl in *.
  - destruct (promote_default_returns k v (set_raw k v c)) as [c1 ->]; simpl.
    + intros K. apply (V k v); auto.
    + apply IH. intros k' v' I. apply V; auto.
  - apply IH. exact V.
Qed.

(** The record read from a settings file, field by field. *)
Lemma parse_spark_defaults_settled (fs : filesystem) (path : string) (cfg : SparkConfig) :
  parse_spark_defaults fs path = Ok cfg ->
  settled (match fs path with
           | Some text => entries (TextIO.readlines text)
           | None => []
           end) (new_config path) cfg.
Proof.
  unfold parse_spark_defaults. destruct (fs path) as [text|].
  - apply defaults_lines_settled.
  - intros [= <-]. apply settled_nil.
Qed.

Lemma settled_recorded (es : list (string * string)) (path : string) (cfg : SparkConfig) :
  settled es (new_config path) cfg -> typed_fields_recorded cfg.
Proof.
  intros (S0 & _ & _ & _ & S4 & S5 & S6 & S7 & S8 & S9 & S10 & S11).
  simpl in *. unfold overwritten in *.
  unfold typed_fields_recorded, recorded_str, recorded_int, recorded_flag.
  repeat split; intros;
    match goal with
    | |- context [Dict.get ?k _] =>
        rewrite (S0 k); simpl; destruct (last_value k es) as [v0|]; try congruence
    end.
  all: try (exists v0; split; [reflexivity | congruence]).
  exists v0; split; [reflexivity|]. apply String.eqb_eq. congruence.
Qed.

Lemma last_value_app (key v : string) (before after : list (string * string)) :
  (forall v', ~ In (key, v') after) ->
  last_value key (before ++ (key, v) :: after) = Some v.
Proof.
  intros N.
  assert (A : last_value key after = None).
  { induction after as [|[k' v'] rest IH]; [reflexivity|]. simpl.
    rewrite IH by (intros v0 I; apply (N v0); now right).
    destruct (String.eqb_spec key k') as [->|]; [|reflexivity].
    exfalso. apply (N v'). now left. }
  induction before as [|[k' v'] rest IH]; simpl.
  - now rewrite A, String.eqb_refl.
  - now rewrite IH.
Qed.

(** ** Runs of characters and numerals *)

Lemma span_all (p : ascii -> bool) (s : string) :
  all_chars p (fst (span p s)) = true.
Proof.
  induction s as [|c s IH]; simpl; [reflexivity|].
  destruct (p c) eqn:P; [|reflexivity].
  destruct (span p s) as [a b]; simpl in *. now rewrite P.
Qed.

Lemma plus_numeral (s run rest : string) :
  Re.plus isdigit s = Some (run, rest) -> numeral run = true.
Proof.
  unfold Re.plus, numeral. pose proof (span_all isdigit s) as A.
  destruct (span isdigit s) as [a b]; simpl in A.
  destruct (is_empty a) eqn:E; [discriminate|].
  intros [= <- <-]. now rewrite E, A.
Qed.

Lemma strip_by_keeps (p : ascii -> bool) (s : string) :
  all_chars (fun c => negb (p c)) s = true ->
  lstrip_by p s = s /\ rstrip_by p s = s.
Proof.
  induction s as [|c s IH]; simpl; [easy|].
  intros H. apply andb_true_iff in H as [C S]. apply negb_true_iff in C.
  rewrite C. split; [reflexivity|].
  destruct (IH S) as [_ ->]. now destruct s.
Qed.

Lemma all_chars_impl (p q : ascii -> bool) (s : string) :
  (forall c, p c = true -> q c = true) ->
  all_chars p s = true -> all_chars q s = true.
Proof.
  intros PQ. induction s as [|c s IH]; simpl; [easy|].
  intros H. apply andb_true_iff in H as [C S].
  now rewrite (PQ c C), (IH S).
Qed.

Lemma digit_facts (c : ascii) :
  isdigit c = true ->
  int_blank c = false /\ Ascii.eqb c "+" = false /\ Ascii.eqb c "-" = false.
Proof.
  destruct c as [[] [] [] [] [] [] [] []]; intros H; try discriminate H;
    repeat split; reflexivity.
Qed.

Lemma int_digits_numeral (s : string) :
  all_chars isdigit s = true ->
  forall acc b, (b = true \/ s <> EmptyString) ->
  int_digits acc b s = Some (digits_value_from acc s).
Proof.
  induction s as [|c s IH]; simpl; intros A acc b B.
  - destruct B as [->|B]; [reflexivity | now elim B].
  - apply andb_true_iff in A as [C S]. rewrite C. apply IH; auto.
Qed.

(** [int] reads a run of digits as the number it writes. *)
Lemma int_numeral (s : string) :
  numeral s = true -> int s = Some (digits_value s).
Proof.
  unfold numeral, int, digits_value. intros H.
  apply andb_true_iff in H as [E A].
  assert (K : all_chars (fun c => negb (int_blank c)) s = true).
  { apply (all_chars_impl isdigit); [|exact A].
    intros c C. now rewrite (proj1 (digit_facts c C)). }
  destruct (strip_by_keeps int_blank s K) as [L R]. rewrite L, R.
  destruct s as [|c s]; [discriminate|].
  pose proof A as A'. simpl in A'. apply andb_true_iff in A' as [C _].
  destruct (digit_facts c C) as (_ & -> & ->).
  apply int_digits_numeral; [exact A | now right].
Qed.

(** ** Searching *)

Lemma search_found {A : Type} (m : Re.matcher A) (s : string) (r : A * string) :
  Re.search m s = Some r -> exists s', m s' = Some r.
Proof.
  induction s as [|c s IH]; simpl.
  - destruct (m EmptyString) eqn:M; [intros [= <-]; eauto | discriminate].
  - destruct (m (String c s)) eqn:M; [intros [= <-]; eauto | exact IH].
Qed.

Lemma flag_digits_numeral (flag buffer value rest : string) :
  Re.search (Re.flag_value flag isdigit) buffer = Some (value, rest) ->
  numeral value = true.
Proof.
  intros H. apply search_found in H as [s' H]. unfold Re.flag_value in H.
  destruct (Re.skip_lit flag s') as [r|]; [|discriminate].
  destruct (Re.plus isspace r) as [[ws r1]|]; [|discriminate].
  now apply plus_numeral in H.
Qed.

(** ** Deploy-script dialect: the passes *)

(** A flag with an integer value never raises. *)
Lemma int_flag_returns (flag : string) (setter : Z -> SparkConfig -> SparkConfig)
  (buffer : string) (c : SparkConfig) :
  int_flag flag setter buffer c = Ok c \/
  exists value rest,
    Re.search (Re.flag_value flag isdigit) buffer = Some (value, rest) /\
    numeral value = true /\
    int_flag flag setter buffer c = Ok (setter (digits_value value) c).
Proof.
  unfold int_flag, group1, int_or_raise.
  destruct (Re.search (Re.flag_value flag isdigit) buffer) as [[value rest]|] eqn:S;
    simpl; [right | now left].
  pose proof (flag_digits_numeral _ _ _ _ S) as N.
  exists value, rest. now rewrite (int_numeral value N).
Qed.

Lemma string_flag_returns (flag : string) (setter : string -> SparkConfig -> SparkConfig)
  (buffer : string) (c : SparkConfig) :
  string_flag flag setter buffer c = Ok c \/
  exists value, string_flag flag setter buffer c = Ok (setter value c).
Proof.
  unfold string_flag.
  destruct (group1 _) as [value|]; [right; eauto | now left].
Qed.

Lemma flags_pass_returns (buffer : string) (c : SparkConfig) :
  exists c', flags_pass buffer c = Ok c' /\ conf_part c' = conf_part c.
Proof.
  unfold flags_pass.
  destruct (string_flag_returns "--master" set_master buffer c)
    as [-> | [v1 ->]]; simpl;
  match goal with |- context [string_flag "--deploy-mode" _ _ ?c1] =>
    destruct (string_flag_returns "--deploy-mode" set_deploy_mode buffer c1)
      as [-> | [v2 ->]] end; simpl;
  match goal with |- context [string_flag "--driver-memory" _ _ ?c2] =>
    destruct (string_flag_returns "--driver-memory" set_driver_memory buffer c2)
      as [-> | [v3 ->]] end; simpl;
  match goal with |- context [string_flag "--executor-memory" _ _ ?c3] =>
    destruct (string_flag_returns "--executor-memory" set_executor_memory buffer c3)
      as [-> | [v4 ->]] end; simpl;
  match goal with |- context [int_flag "--executor-cores" _ _ ?c4] =>
    destruct (int_flag_returns "--executor-cores" set_executor_cores buffer c4)
      as [-> | (v5 & r5 & _ & _ & ->)] end; simpl;
  match goal with |- context [int_flag "--num-executors" _ _ ?c5] =>
    destruct (int_flag_returns "--num-executors" set_num_executors buffer c5)
      as [-> | (v6 & r6 & _ & _ & ->)] end;
  eexists; split; reflexivity.
Qed.

Lemma app_name_pass_conf_part (buffer : string) (c : SparkConfig) :
  conf_part (app_name_pass buffer c) = conf_part c.
Proof. unfold app_name_pass. now destruct (group1 _). Qed.

Lemma name_pass_conf_part (buffer : string) (c : SparkConfig) :
  conf_part (name_pass buffer c) = conf_part c.
Proof.
  unfold name_pass. destruct (app_name_unset c); [|reflexivity].
  now destruct (group1 _).
Qed.

Lemma conf_step_fields (k v : string) (c c' : SparkConfig) :
  conf_step c (k, v) = Ok c' ->
  raw_configs c' = Dict.set k v (raw_configs c) /\
  default_parallelism c' =
    (if String.eqb k "spark.default.parallelism" then int v else default_parallelism c) /\
  shuffle_partitions c' =
    (if String.eqb k "spark.sql.shuffle.partitions" then int v else shuffle_partitions c) /\
  dynamic_allocation_enabled c' =
    (if String.eqb k "spark.dynamicAllocation.enabled"
     then String.eqb (lower v) "true" else dynamic_allocation_enabled c).
Proof.
  unfold conf_step, int_or_raise.
  split_key k; try destruct (int v); simpl; intros [= <-]; simpl;
    repeat split; reflexivity.
Qed.

Lemma conf_step_raises (k v : string) (c : SparkConfig) :
  conf_integer_setting k = true -> int v = None ->
  conf_step c (k, v) = Raise ValueError.
Proof.
  unfold conf_integer_setting, conf_step, int_or_raise. intros K V.
  repeat (apply orb_true_iff in K; destruct K as [K|K]);
    apply String.eqb_eq in K; subst k; simpl; now rewrite V.
Qed.

Lemma conf_step_raise_kind (kv : string * string) (c : SparkConfig) (e : exn) :
  conf_step c kv = Raise e -> e = ValueError.
Proof.
  destruct kv as [k v]. unfold conf_step, int_or_raise.
  split_key k; try destruct (int v); simpl; intros [= <-]; reflexivity.
Qed.

Lemma conf_step_returns (k v : string) (c : SparkConfig) :
  (conf_integer_setting k = true -> int v <> None) ->
  exists c', conf_step c (k, v) = Ok c'.
Proof.
  unfold conf_integer_setting, conf_step, int_or_raise. intros V.
  split_key k; try (destruct (int v); [|exfalso; now apply V]);
    simpl; eauto.
Qed.

Lemma conf_steps_settled (es : list (string * string)) :
  forall c c', conf_steps es c = Ok c' -> conf_settled es c c'.
Proof.
  induction es as [|[k v] es IH]; intros c c' H; cbn [conf_steps] in H.
  - injection H as <-. unfold conf_settled. repeat split; reflexivity.
  - destruct (conf_step c (k, v)) as [c1|e] eqn:P; cbn [bind] in H; [|discriminate].
    apply conf_step_fields in P as (P0 & P1 & P2 & P3).
    apply IH in H as (S0 & S1 & S2 & S3).
    unfold conf_settled. rewrite !overwritten_cons.
    repeat split; try congruence.
    intros key. rewrite overwritten_cons, S0, P0, get_set.
    now rewrite (String.eqb_sym key k).
Qed.

Lemma conf_steps_record_all (es : list (string * string)) :
  forall c c', conf_steps es c = Ok c' ->
               raw_configs c' = record_all es (raw_configs c).
Proof.
  induction es as [|[k v] es IH]; intros c c' H; cbn [conf_steps] in H.
  - now injection H as <-.
  - destruct (conf_step c (k, v)) as [c1|e] eqn:P; cbn [bind] in H; [|discriminate].
    apply conf_step_fields in P as (P0 & _).
    apply IH in H. rewrite H, P0. reflexivity.
Qed.

Lemma conf_steps_raises (es : list (string * string)) (k v : string) :
  In (k, v) es -> conf_integer_setting k = true -> int v = None ->
  forall c, conf_steps es c = Raise ValueError.
Proof.
  intros I K V. induction es as [|e rest IH]; [easy|].
  intros c. cbn [conf_steps]. destruct I as [->|I].
  - now rewrite (conf_step_raises k v c K V).
  - destruct (conf_step c e) as [c1|x] eqn:D; cbn [bind]; auto.
    now rewrite (conf_step_raise_kind e c x D).
Qed.

Lemma conf_steps_returns (es : list (string * string)) :
  (forall k v, In (k, v) es -> conf_integer_setting k = true -> int v <> None) ->
  forall c, exists c', conf_steps es c = Ok c'.
Proof.
  induction es as [|[k v] rest IH]; intros V c; cbn [conf_steps]; [eauto|].
  destruct (conf_step_returns k v c) as [c1 ->]; cbn [bind].
  - intros K. apply (V k v); [now left | exact K].
  - apply IH. intros k' v' I. apply V. now right.
Qed.

(** The record read from a deploy script, as far as [--conf] goes. *)
Lemma parse_spark_submit_script_settled (fs : filesystem) (path text : string)
  (cfg : SparkConfig) :
  fs path = Some text ->
  parse_spark_submit_script fs path = Ok cfg ->
  let es := Re.finditer Re.conf_flag (full_command (TextIO.readlines text)) in
  conf_settled es (new_config path) cfg /\
  raw_configs cfg = record_all es Dict.empty.
Proof.
  intros F. unfold parse_spark_submit_script. rewrite F.
  set (buffer := full_command (TextIO.readlines text)).
  destruct (flags_pass_returns buffer (app_name_pass buffer (new_config path)))
    as (c1 & -> & E1). simpl.
  rewrite app_name_pass_conf_part in E1.
  unfold conf_pass.
  destruct (conf_steps (Re.finditer Re.conf_flag buffer) c1) as [c2|e] eqn:C;
    simpl; [|discriminate].
  intros [= <-].
  pose proof (name_pass_conf_part buffer c2) as E2.
  pose proof (conf_steps_record_all _ _ _ C) as R.
  apply conf_steps_settled in C as (S0 & S1 & S2 & S3).
  unfold conf_part in E1, E2. simpl in E1.
  injection E1 as A0 A1 A2 A3. injection E2 as B0 B1 B2 B3.
  split.
  - unfold conf_settled. simpl. rewrite B0, B1, B2, B3.
    rewrite A0, A1, A2, A3 in *. repeat split; assumption.
  - rewrite B0, R, A0. reflexivity.
Qed.

Lemma conf_settled_recorded (es : list (string * string)) (path : string)
  (cfg : SparkConfig) :
  conf_settled es (new_config path) cfg -> conf_fields_recorded cfg.
Proof.
  intros (S0 & S1 & S2 & S3).
  simpl in *. unfold overwritten in *.
  unfold conf_fields_recorded, recorded_int, recorded_flag.
  repeat split; intros;
    match goal with
    | |- context [Dict.get ?k _] =>
        rewrite (S0 k); simpl; destruct (last_value k es) as [v0|]; try congruence
    end.
  all: try (exists v0; split; [reflexivity | congruence]).
  exists v0; split; [reflexivity|]. apply String.eqb_eq. congruence.
Qed.

(** ** Continued lines *)

Lemma append_assoc (a b c : string) : (a ++ b) ++ c = a ++ b ++ c.
Proof. induction a as [|x a IH]; simpl; [reflexivity | now rewrite IH]. Qed.

Lemma endswith_append (p s : string) : endswith p (s ++ p) = true.
Proof.
  induction s as [|c s IH]; simpl.
  - destruct p; simpl; now rewrite ?String.eqb_refl, ?Ascii.eqb_refl.
  - rewrite IH. apply orb_true_r.
Qed.

Lemma drop_last_append (s : string) (c : ascii) :
  drop_last (s ++ String c EmptyString) = s.
Proof.
  induction s as [|d s IH]; simpl; [reflexivity|].
  rewrite IH. now destruct s.
Qed.

Lemma rstrip_by_kept (p : ascii -> bool) (y : string) (c : ascii) (z : string) :
  p c = false ->
  rstrip_by p (y ++ String c z) = y ++ String c (rstrip_by p z).
Proof.
  intros C. induction y as [|d y IH]; simpl.
  - rewrite C. now destruct (rstrip_by p z).
  - rewrite IH. now destruct y.
Qed.

Lemma lstrip_by_kept (p : ascii -> bool) (b : string) (c : ascii) (z : string) :
  p c = false ->
  lstrip_by p (b ++ String c z) = lstrip_by p b ++ String c z.
Proof.
  intros C. induction b as [|d b IH]; simpl.
  - now rewrite C.
  - now destruct (p d).
Qed.

(** A continued line without its line feed, and trimmed. *)
Lemma rstrip_nl_continued (body : string) :
  rstrip_nl (continued body) = body ++ BS.
Proof.
  unfold rstrip_nl, continued, BS, NL. simpl.
  now rewrite rstrip_by_kept.
Qed.

Lemma strip_continued (body : string) :
  rstrip_nl (strip (continued body)) = lstrip body ++ BS.
Proof.
  unfold strip, continued, lstrip, rstrip, BS, NL. simpl.
  rewrite lstrip_by_kept by reflexivity.
  rewrite rstrip_by_kept by reflexivity. simpl.
  unfold rstrip_nl. now rewrite rstrip_by_kept.
Qed.

(** The inner loop over a chain of continued lines. *)
Lemma join_from_chain (bodies : list string) (last : string) :
  forall acc,
    join_from (acc ++ BS) (map continued bodies ++ [last])%list =
    [strip (chain_text acc bodies) ++ " " ++ rstrip_nl (strip last)].
Proof.
  induction bodies as [|b bs IH]; intros acc; simpl.
  - rewrite endswith_append. unfold BS. now rewrite drop_last_append.
  - rewrite endswith_append. unfold BS at 1. rewrite drop_last_append.
    rewrite strip_continued.
    specialize (IH (strip acc ++ " " ++ lstrip b)).
    rewrite append_assoc in IH. exact IH.
Qed.

Lemma command_lines_chain (bodies : list string) (last : string) :
  command_lines (map continued bodies ++ [last])%list = [logical_line bodies last].
Proof.
  destruct bodies as [|b bs]; simpl; [reflexivity|].
  rewrite rstrip_nl_continued. apply join_from_chain.
Qed.

(** ** The rule battery *)

Lemma check_driver_memory_cases (c : SparkConfig) :
  check_driver_memory c = [] \/
  exists s, check_driver_memory c = [excessive_driver_memory s].
Proof.
  unfold check_driver_memory.
  destruct (driver_memory c) as [s|]; [|now left].
  destruct (is_empty s); [now left|].
  destruct (_ && _); [right; eauto | now left].
Qed.

Lemma check_shuffle_partitions_cases (c : SparkConfig) (m : option ExecutionMetrics) :
  check_shuffle_partitions c m = [] \/
  exists n, check_shuffle_partitions c m = [inefficient_shuffle_partitions n].
Proof.
  unfold check_shuffle_partitions.
  destruct (shuffle_partitions c) as [n|]; [|now left].
  destruct (_ && _); [|now left].
  destruct m as [mm|]; [|now left].
  destruct (input_bytes mm) as [b|]; [|now left].
  destruct (_ && _); [right; eauto | now left].
Qed.

Lemma check_dynamic_allocation_cases (c : SparkConfig) :
  check_dynamic_allocation c = [] \/
  check_dynamic_allocation c = [enable_dynamic_allocation].
Proof.
  unfold check_dynamic_allocation. destruct (negb _); auto.
Qed.

Lemma check_memory_spilling_cases (c : SparkConfig) (m : option ExecutionMetrics) :
  check_memory_spilling c m = [] \/
  exists s, check_memory_spilling c m = [high_memory_spilling s].
Proof.
  unfold check_memory_spilling.
  destruct m as [mm|]; [|now left].
  destruct (executor_memory_spilled mm) as [b|]; [|now left].
  destruct (_ && _); [right; eauto | now left].
Qed.

(** The battery reports in the order of its four checks. *)
Lemma rule_based_analysis_order (c : SparkConfig) (m : option ExecutionMetrics) :
  subsequence (map title (_rule_based_analysis c m)) rule_titles = true.
Proof.
  unfold _rule_based_analysis.
  destruct (check_driver_memory_cases c) as [-> | [s1 ->]];
  destruct (check_shuffle_partitions_cases c m) as [-> | [n2 ->]];
  destruct (check_dynamic_allocation_cases c) as [-> | ->];
  destruct (check_memory_spilling_cases c m) as [-> | [s4 ->]];
  reflexivity.
Qed.

Lemma check_driver_memory_fires (c : SparkConfig) (s : string) (mb : Z) :
  driver_memory c = Some s ->
  _parse_memory_mb s = Some mb ->
  (10240 < mb)%Z ->
  check_driver_memory c = [excessive_driver_memory s].
Proof.
  intros D P G. unfold check_driver_memory. rewrite D.
  destruct s as [|a s]; [discriminate P|]. cbn [is_empty].
  rewrite P. cbn [truthy].
  replace (mb =? 0)%Z with false by (symmetry; apply Z.eqb_neq; lia).
  replace (10240 <? mb)%Z with true by (symmetry; apply Z.ltb_lt; lia).
  reflexivity.
Qed.




Lemma int_flag_value (flag : string) (setter : Z -> SparkConfig -> SparkConfig)
  (buffer : string) (c : SparkConfig) :
  int_flag flag setter buffer c =
  Ok (match option_map digits_value (flag_found flag isdigit buffer) with
      | Some n => setter n c
      | None => c
      end).
Proof.
  unfold flag_found.
  destruct (int_flag_returns flag setter buffer c) as [E | (v & r & S & N & E)].
  - unfold int_flag, group1, int_or_raise in *.
    destruct (Re.search (Re.flag_value flag isdigit) buffer) as [[v r]|] eqn:S;
      simpl in *; [|reflexivity].
    pose proof (flag_digits_numeral _ _ _ _ S) as N.
    now rewrite (int_numeral v N).
  - now rewrite E, S.
Qed.

Lemma string_flag_value (flag : string) (setter : string -> SparkConfig -> SparkConfig)
  (buffer : string) (c : SparkConfig) :
  string_flag flag setter buffer c =
  Ok (match flag_found flag Re.nonspace buffer with
      | Some value => setter value c
      | None => c
      end).
Proof.
  unfold string_flag, flag_found, group1.
  now destruct (option_map fst _).
Qed.

(** The loop over [patterns] always completes. *)
Lemma flags_pass_value (buffer : string) (c : SparkConfig) :
  flags_pass buffer c = Ok (with_flags buffer c).
Proof.
  unfold flags_pass, with_flags.
  rewrite !string_flag_value. cbn [bind].
  rewrite !string_flag_value. cbn [bind].
  rewrite !string_flag_value. cbn [bind].
  rewrite !string_flag_value. cbn [bind].
  rewrite int_flag_value. cbn [bind].
  now rewrite int_flag_value.
Qed.

Lemma conf_step_flag_part (kv : string * string) (c c' : SparkConfig) :
  conf_step c kv = Ok c' -> flag_part c' = flag_part c /\ app_name c' = app_name c.
Proof.
  destruct kv as [k v]. unfold conf_step, int_or_raise.
  split_key k; try destruct (int v); simpl; intros [= <-]; split; reflexivity.
Qed.

Lemma conf_steps_flag_part (es : list (string * string)) :
  forall c c', conf_steps es c = Ok c' ->
               flag_part c' = flag_part c /\ app_name c' = app_name c.
Proof.
  induction es as [|kv es IH]; intros c c' H; cbn [conf_steps] in H.
  - injection H as <-. now split.
  - destruct (conf_step c kv) as [c1|e] eqn:P; cbn [bind] in H; [|discriminate].
    apply conf_step_flag_part in P as [P1 P2].
    apply IH in H as [H1 H2]. split; congruence.
Qed.

Lemma name_pass_flag_part (buffer : string) (c : SparkConfig) :
  flag_part (name_pass buffer c) = flag_part c.
Proof.
  unfold name_pass. destruct (app_name_unset c); [|reflexivity].
  now destruct (group1 _).
Qed.

(** The fields that the deploy-script dialect reads from flags. *)
Lemma parse_spark_submit_script_flags (fs : filesystem) (path text : string)
  (cfg : SparkConfig) :
  fs path = Some text ->
  parse_spark_submit_script fs path = Ok cfg ->
  let buffer := full_command (TextIO.readlines text) in
  master cfg = flag_found "--master" Re.nonspace buffer /\
  deploy_mode cfg = flag_found "--deploy-mode" Re.nonspace buffer /\
  driver_memory cfg = flag_found "--driver-memory" Re.nonspace buffer /\
  executor_memory cfg = flag_found "--executor-memory" Re.nonspace buffer /\
  executor_cores cfg =
    option_map digits_value (flag_found "--executor-cores" isdigit buffer) /\
  num_executors cfg =
    option_map digits_value (flag_found "--num-executors" isdigit buffer).
Proof.
  intros F. unfold parse_spark_submit_script. rewrite F.
  set (buffer := full_command (TextIO.readlines text)).
  rewrite flags_pass_value. cbn [bind]. unfold conf_pass.
  destruct (conf_steps _ _) as [c2|e] eqn:C; cbn [bind]; [|discriminate].
  intros [= <-].
  apply conf_steps_flag_part in C as [C _].
  pose proof (name_pass_flag_part buffer c2) as E. rewrite C in E.
  clear C. unfold flag_part in E.
  injection E as E0 E1 E2 E3 E4 E5 E6. cbv zeta.
  rewrite E1, E2, E3, E4, E5, E6. clear.
  unfold with_flags, app_name_pass.
  destruct (flag_found "--master" Re.nonspace buffer);
  destruct (flag_found "--deploy-mode" Re.nonspace buffer);
  destruct (flag_found "--driver-memory" Re.nonspace buffer);
  destruct (flag_found "--executor-memory" Re.nonspace buffer);
  destruct (flag_found "--executor-cores" isdigit buffer);
  destruct (flag_found "--num-executors" isdigit buffer);
  destruct (group1 _); repeat split; reflexivity.
Qed.

(** When the deploy-script dialect raises. *)
Lemma parse_spark_submit_script_outcome (fs : filesystem) (path text : string) :
  fs path = Some text ->
  let es := Re.finditer Re.conf_flag (full_command (TextIO.readlines text)) in
  (parse_spark_submit_script fs path = Raise ValueError <->
   exists k v, In (k, v) es /\ conf_integer_setting k = true /\ int v = None).
Proof.
  intros F es. unfold parse_spark_submit_script. rewrite F.
  rewrite flags_pass_value. cbn [bind]. unfold conf_pass. fold es.
  set (c1 := with_flags _ _). split.
  - intros H.
    assert (D : forall es', (exists k v, In (k, v) es' /\ conf_integer_setting k = true /\ int v = None) \/
                            (forall k v, In (k, v) es' -> conf_integer_setting k = true -> int v <> None)).
    { induction es' as [|[k v] rest [(k' & v' & I & K & V) | N]].
      - right. intros k v [].
      - left. exists k', v'. repeat split; auto. now right.
      - destruct (conf_integer_setting k) eqn:K.
        + destruct (int v) eqn:V.
          * right. intros k' v' [[= <- <-] | I] K'; [congruence | now apply (N k' v')].
          * left. exists k, v. repeat split; auto. now left.
        + right. intros k' v' [[= <- <-] | I] K'; [congruence | now apply (N k' v')]. }
    destruct (D es) as [E | N]; [exact E|].
    destruct (conf_steps_returns es N c1) as [c2 R]. rewrite R in H. discriminate.
  - intros (k & v & I & K & V).
    now rewrite (conf_steps_raises es k v I K V c1).
Qed.

(** ** Memory sizes *)

Lemma span_append (p : ascii -> bool) (d u : string) :
  all_chars p d = true ->
  match u with String c _ => p c = false | EmptyString => True end ->
  span p (d ++ u) = (d, u).
Proof.
  intros A U. induction d as [|c d IH]; simpl.
  - destruct u as [|c u]; simpl; [reflexivity | now rewrite U].
  - simpl in A. apply andb_true_iff in A as [C A]. rewrite C.
    now rewrite (IH A).
Qed.

Lemma lower_digits (d : string) :
  all_chars isdigit d = true -> lower d = d.
Proof.
  induction d as [|c d IH]; simpl; [reflexivity|].
  intros A. apply andb_true_iff in A as [C A].
  unfold lower in *. simpl. rewrite (IH A). f_equal.
  destruct c as [[] [] [] [] [] [] [] []]; try discriminate C; reflexivity.
Qed.

Lemma lower_append (a b : string) : lower (a ++ b) = lower a ++ lower b.
Proof.
  unfold lower. induction a as [|c a IH]; simpl; [reflexivity | now rewrite IH].
Qed.

(** What the rule engine reads from a number followed by a unit: the
    number itself for no unit, [k] and [m], and the number scaled by 1024
    and by 1024 * 1024 for [g] and [t]. *)
Lemma parse_memory_mb_units (d : string) :
  numeral d = true ->
  _parse_memory_mb d = Some (digits_value d) /\
  _parse_memory_mb (d ++ "k") = Some (digits_value d) /\
  _parse_memory_mb (d ++ "m") = Some (digits_value d) /\
  _parse_memory_mb (d ++ "g") = Some (digits_value d * 1024)%Z /\
  _parse_memory_mb (d ++ "t") = Some (digits_value d * (1024 * 1024))%Z.
Proof.
  intros N. pose proof N as N'. unfold numeral in N'.
  apply andb_true_iff in N' as [E A]. apply negb_true_iff in E.
  assert (U : forall u,
             lower u = u ->
             match u with String c _ => isdigit c = false | EmptyString => True end ->
             _parse_memory_mb (d ++ u) =
             match u with
             | String c _ =>
                 if Re.unit_char c
                 then Some (digits_value d * multiplier (String c EmptyString))%Z
                 else Some (digits_value d * 1)%Z
             | EmptyString => Some (digits_value d * 1)%Z
             end).
  { intros u L D. unfold _parse_memory_mb, Re.digits_unit, Re.plus.
    rewrite lower_append, (lower_digits d A), L, (span_append isdigit d u A D).
    cbv beta iota zeta. rewrite E. cbv beta iota.
    destruct u as [|c u]; [now rewrite (int_numeral d N)|].
    destruct (Re.unit_char c); rewrite (int_numeral d N); [reflexivity|].
    unfold multiplier. reflexivity. }
  repeat split.
  - replace d with (d ++ EmptyString) at 1
      by (clear; induction d as [|c d IH]; simpl; [reflexivity | now rewrite IH]).
    rewrite (U EmptyString); [now rewrite Z.mul_1_r | reflexivity | exact I].
  - rewrite (U "k"); [cbn; now rewrite Z.mul_1_r | reflexivity | reflexivity].
  - rewrite (U "m"); [cbn; now rewrite Z.mul_1_r | reflexivity | reflexivity].
  - rewrite (U "g"); [reflexivity | reflexivity | reflexivity].
  - rewrite (U "t"); [reflexivity | reflexivity | reflexivity].
Qed.

(** ** Tagged lines of the reply *)

Lemma prefix_append (p s : string) :
  String.prefix p s = true -> exists t, s = p ++ t.
Proof.
  revert s. induction p as [|a p IH]; intros s H.
  - now exists s.
  - destruct s as [|b s]; simpl in H; [discriminate|].
    destruct (ascii_dec a b) as [->|]; [|discriminate].
    destruct (IH s H) as [t ->]. now exists t.
Qed.

(** The first segment of a tagged line holds the closing bracket of the
    tag, so the category is always read from the text after it. *)
Lemma tagged_line_bracket (sev : RecommendationSeverity) (line part0 : string)
  (rest : list string) :
  severity_tag line = Some sev ->
  split_on "|" line = part0 :: rest ->
  exists text, after_first "]" part0 = Some text.
Proof.
  unfold severity_tag, startswith.
  destruct (String.prefix "[CRITICAL]" line) eqn:P1;
    [|destruct (String.prefix "[WARNING]" line) eqn:P2;
      [|destruct (String.prefix "[INFO]" line) eqn:P3; [|intros [=]]]];
    intros _;
    match goal with
    | P : String.prefix _ line = true |- _ =>
        apply prefix_append in P as [t ->]
    end;
    simpl; destruct (split_on "|" t) as [|p ps]; intros [= <- <-];
    simpl; eauto.
Qed.

(** ** The memory utility of the parser *)

Open Scope Z_scope.

(** An integer of at most 53 bits is a float, and scaling it by a small
    power of two stays exact. *)
Lemma scaled_int_integer (n k : Z) :
  0 < n < 2 ^ 53 -> -10 <= k <= 20 ->
  Float.scaled_int n 1 k = Some (Z.shiftl n k).
Proof.
  intros N K. unfold Float.scaled_int, Float.nearest.
  replace (n =? 0) with false by (symmetry; apply Z.eqb_neq; lia).
  change (Z.log2 1) with 0. rewrite Z.sub_0_r.
  pose proof (Z.log2_spec n (proj1 N)) as [L1 L2].
  pose proof (Z.log2_nonneg n) as L0.
  assert (L53 : Z.log2 n < 53) by (apply Z.log2_lt_pow2; lia).
  unfold Float.reaches.
  replace (0 <=? Z.log2 n) with true by (symmetry; apply Z.leb_le; lia).
  rewrite Z.mul_1_l.
  replace (2 ^ Z.log2 n <=? n) with true by (symmetry; apply Z.leb_le; lia).
  set (s := Z.log2 n - 52).
  assert (M : (if 0 <=? s
               then Float.round_half_even n (1 * 2 ^ s)
               else Float.round_half_even (n * 2 ^ (- s)) 1)
              = Z.shiftl n (- s)).
  { unfold Float.round_half_even.
    destruct (Z.leb_spec 0 s) as [S|S].
    - assert (E : s = 0) by lia. rewrite E.
      change (1 * 2 ^ 0) with 1. change (- 0) with 0.
      rewrite Z.div_1_r, Z.mod_1_r, Z.shiftl_0_r. reflexivity.
    - rewrite Z.div_1_r, Z.mod_1_r.
      rewrite Z.shiftl_mul_pow2 by lia. reflexivity. }
  rewrite M.
  assert (S0 : 0 <= - s) by (unfold s; lia).
  rewrite !Z.shiftl_shiftl by exact S0.
  replace (- s + s) with 0 by lia. replace (- s + (s + k)) with k by lia.
  rewrite Z.shiftl_0_r.
  assert (B : Z.shiftl n k < 2 ^ 1024).
  { destruct (Z.leb_spec 0 k) as [P|P].
    - rewrite Z.shiftl_mul_pow2 by exact P.
      assert (2 ^ k <= 2 ^ 20) by (apply Z.pow_le_mono_r; lia).
      assert (n * 2 ^ k < 2 ^ 53 * 2 ^ 20) by nia.
      assert (2 ^ 53 * 2 ^ 20 < 2 ^ 1024) by reflexivity. lia.
    - rewrite <- (Z.opp_involutive k), Z.shiftl_opp_r, Z.shiftr_div_pow2 by lia.
      assert (n / 2 ^ (- k) <= n) by (apply Z.div_le_upper_bound; [|nia]; apply Z.pow_pos_nonneg; lia).
      assert (2 ^ 53 < 2 ^ 1024) by reflexivity. lia. }
  replace (2 ^ 1024 <=? n) with false
    by (symmetry; apply Z.leb_gt; assert (2 ^ 53 < 2 ^ 1024) by reflexivity; lia).
  replace (2 ^ 1024 <=? Z.shiftl n k) with false by (symmetry; apply Z.leb_gt; exact B).
  reflexivity.
Qed.

Close Scope Z_scope.

Lemma all_chars_append (p : ascii -> bool) (a b : string) :
  all_chars p (a ++ b) = all_chars p a && all_chars p b.
Proof.
  induction a as [|c a IH]; simpl; [reflexivity|].
  now rewrite IH, andb_assoc.
Qed.

Lemma append_empty (s : string) : s ++ EmptyString = s.
Proof. induction s as [|c s IH]; simpl; [reflexivity | now rewrite IH]. Qed.

Lemma digit_not_space (c : ascii) : isdigit c = true -> isspace c = false.
Proof.
  destruct c as [[] [] [] [] [] [] [] []]; intros H; try discriminate H; reflexivity.
Qed.

Lemma digit_val_range (c : ascii) : isdigit c = true -> (0 <= digit_val c <= 9)%Z.
Proof.
  destruct c as [[] [] [] [] [] [] [] []]; intros H; try discriminate H;
    vm_compute; split; discriminate.
Qed.

Lemma digits_value_from_nonneg (d : string) :
  all_chars isdigit d = true ->
  forall acc, (0 <= acc)%Z -> (0 <= digits_value_from acc d)%Z.
Proof.
  induction d as [|c d IH]; cbn [all_chars digits_value_from]; intros A acc P;
    [exact P|].
  apply andb_true_iff in A as [C A]. apply IH; [exact A|].
  pose proof (digit_val_range c C). lia.
Qed.

(** What the parser's utility reads from a number of at most 53 bits
    followed by a unit: the number for no unit and for [m], its quotient
    by 1024 for [k], and the number scaled by 1024 and by 1024 * 1024 for
    [g] and [t]. *)
Lemma parse_memory_to_mb_units (d : string) :
  numeral d = true -> (digits_value d < 2 ^ 53)%Z ->
  parse_memory_to_mb d = Ok (Some (digits_value d)) /\
  parse_memory_to_mb (d ++ "k") = Ok (Some (digits_value d / 1024)%Z) /\
  parse_memory_to_mb (d ++ "m") = Ok (Some (digits_value d)) /\
  parse_memory_to_mb (d ++ "g") = Ok (Some (digits_value d * 1024)%Z) /\
  parse_memory_to_mb (d ++ "t") = Ok (Some (digits_value d * (1024 * 1024))%Z).
Proof.
  intros N B. pose proof N as N'. unfold numeral in N'.
  apply andb_true_iff in N' as [E A]. apply negb_true_iff in E.
  pose proof (digits_value_from_nonneg d A 0%Z (Z.le_refl 0)) as P.
  fold (digits_value d) in P.
  assert (S : forall k, (-10 <= k <= 20)%Z ->
              Float.scaled_int (digits_value d) 1 k = Some (Z.shiftl (digits_value d) k)).
  { intros k K. destruct (Z.eq_dec (digits_value d) 0) as [Z0|NZ].
    - rewrite Z0. unfold Float.scaled_int. simpl. now rewrite Z.shiftl_0_l.
    - apply scaled_int_integer; lia. }
  assert (U : forall u,
             lower u = u ->
             all_chars (fun c => negb (isspace c)) u = true ->
             match u with String c _ => isdigit c = false | EmptyString => True end ->
             Re.number_unit (d ++ u) =
               Some (d, EmptyString,
                     match u with
                     | String c _ => if Re.unit_char c then String c EmptyString
                                     else EmptyString
                     | EmptyString => EmptyString
                     end) ->
             forall k,
               multiplier_exponent
                 match u with
                 | String c _ => if Re.unit_char c then String c EmptyString
                                 else EmptyString
                 | EmptyString => EmptyString
                 end = k ->
               (-10 <= k <= 20)%Z ->
               parse_memory_to_mb (d ++ u) = Ok (Some (Z.shiftl (digits_value d) k))).
  { intros u L W D R k M K. unfold parse_memory_to_mb.
    replace (is_empty (d ++ u)) with false by (destruct d; [discriminate E | reflexivity]).
    rewrite lower_append, (lower_digits d A), L.
    assert (K1 : all_chars (fun c => negb (isspace c)) (d ++ u) = true).
    { rewrite all_chars_append, W, andb_true_r.
      apply (all_chars_impl isdigit); [|exact A].
      intros c C. now rewrite (digit_not_space c C). }
    unfold strip, lstrip, rstrip.
    destruct (strip_by_keeps isspace (d ++ u) K1) as [-> ->].
    rewrite R, append_empty, M. simpl String.length. change (10 ^ Z.of_nat 0)%Z with 1%Z.
    now rewrite (S k K). }
  assert (R : forall u,
             match u with String c _ => isdigit c = false | EmptyString => True end ->
             match u with
             | String c r => Ascii.eqb c "." = false /\ isspace c = false
             | EmptyString => True
             end ->
             Re.number_unit (d ++ u) =
               Some (d, EmptyString,
                     match u with
                     | String c _ => if Re.unit_char c then String c EmptyString
                                     else EmptyString
                     | EmptyString => EmptyString
                     end)).
  { intros u D Q. unfold Re.number_unit, Re.plus.
    rewrite (span_append isdigit d u A D). cbv beta iota zeta. rewrite E.
    destruct u as [|c r]; [reflexivity|]. destruct Q as [Q1 Q2].
    cbv beta iota zeta. rewrite Q1. cbn [span]. rewrite Q2. reflexivity. }
  repeat split.
  - rewrite <- (append_empty d) at 1.
    rewrite (U EmptyString eq_refl eq_refl I (R EmptyString I I) 0%Z eq_refl) by lia.
    now rewrite Z.shiftl_0_r.
  - rewrite (U "k" eq_refl eq_refl eq_refl (R "k" eq_refl (conj eq_refl eq_refl))
               (-10)%Z eq_refl) by lia.
    change (-10)%Z with (Z.opp 10).
    rewrite Z.shiftl_opp_r, Z.shiftr_div_pow2 by lia. reflexivity.
  - rewrite (U "m" eq_refl eq_refl eq_refl (R "m" eq_refl (conj eq_refl eq_refl))
               0%Z eq_refl) by lia.
    now rewrite Z.shiftl_0_r.
  - rewrite (U "g" eq_refl eq_refl eq_refl (R "g" eq_refl (conj eq_refl eq_refl))
               10%Z eq_refl) by lia.
    rewrite Z.shiftl_mul_pow2 by lia. reflexivity.
  - rewrite (U "t" eq_refl eq_refl eq_refl (R "t" eq_refl (conj eq_refl eq_refl))
               20%Z eq_refl) by lia.
    rewrite Z.shiftl_mul_pow2 by lia. reflexivity.
Qed.

(** ** The physical lines of a chain *)

Lemma has_char_append (c : ascii) (a b : string) :
  has_char c (a ++ b) = has_char c a || has_char c b.
Proof.
  induction a as [|d a IH]; cbn [has_char append]; [reflexivity|].
  now rewrite IH, orb_assoc.
Qed.

Lemma universal_newlines_keep (s : string) :
  has_char cr s = false -> TextIO.universal_newlines s = s.
Proof.
  induction s as [|c s IH]; cbn [has_char TextIO.universal_newlines];
    [reflexivity|].
  intros H. apply orb_false_iff in H as [C S].
  rewrite Ascii.eqb_sym, C. now rewrite (IH S).
Qed.

Lemma keepends_line (b rest : string) :
  has_char nl b = false ->
  TextIO.keepends (b ++ NL ++ rest) = (b ++ NL) :: TextIO.keepends rest.
Proof.
  induction b as [|c b IH]; [reflexivity|].
  cbn [has_char TextIO.keepends append].
  intros H. apply orb_false_iff in H as [C S].
  rewrite Ascii.eqb_sym, C. now rewrite (IH S).
Qed.

Lemma concat_cons (x : string) (xs : list string) :
  String.concat EmptyString (x :: xs) = x ++ String.concat EmptyString xs.
Proof.
  destruct xs as [|y ys]; simpl; [now rewrite append_empty | reflexivity].
Qed.

Lemma chain_script_no_cr (bodies : list string) (last : string) :
  forallb one_line bodies = true -> one_line last = true ->
  has_char cr (chain_script bodies last) = false.
Proof.
  unfold chain_script, one_line. intros B L.
  apply andb_true_iff in L as [_ L]. apply negb_true_iff in L.
  induction bodies as [|b bs IH].
  - simpl. now rewrite has_char_append, L.
  - simpl in B. apply andb_true_iff in B as [B1 B2].
    apply andb_true_iff in B1 as [_ B1]. apply negb_true_iff in B1.
    cbn [map]. rewrite concat_cons, append_assoc, has_char_append.
    rewrite (IH B2), orb_false_r.
    unfold continued. now rewrite has_char_append, B1.
Qed.

(** Reading such a script gives the chain, line by line. *)
Lemma readlines_chain (bodies : list string) (last : string) :
  forallb one_line bodies = true -> one_line last = true ->
  TextIO.readlines (chain_script bodies last)
  = (map continued bodies ++ [(last ++ NL)%string])%list.
Proof.
  intros B L. unfold TextIO.readlines.
  rewrite (universal_newlines_keep _ (chain_script_no_cr bodies last B L)).
  unfold chain_script, one_line in *.
  apply andb_true_iff in L as [L _]. apply negb_true_iff in L.
  induction bodies as [|b bs IH].
  - cbn [map String.concat append app]. rewrite <- (append_empty NL) at 1.
    now rewrite (keepends_line last EmptyString L).
  - simpl in B. apply andb_true_iff in B as [B1 B2].
    apply andb_true_iff in B1 as [B1 _]. apply negb_true_iff in B1.
    cbn [map]. rewrite concat_cons, append_assoc.
    unfold continued at 1. rewrite !append_assoc.
    replace (b ++ BS ++ NL ++ String.concat EmptyString (map continued bs) ++ last ++ NL)
      with ((b ++ BS) ++ NL ++ String.concat EmptyString (map continued bs) ++ last ++ NL)
      by (now rewrite append_assoc).
    rewrite keepends_line by (now rewrite has_char_append, B1).
    rewrite (IH B2). unfold continued. now rewrite append_assoc.
Qed.

(** ** Chains of trimmed lines *)

Lemma last_char_append (a b : string) :
  b <> EmptyString -> last_char (a ++ b) = last_char b.
Proof.
  intros B. induction a as [|c a IH]; [reflexivity|].
  cbn [append last_char]. rewrite IH.
  destruct (a ++ b) eqn:E; [|reflexivity].
  destruct a; [now elim B | discriminate E].
Qed.

Lemma rstrip_by_last (p : ascii -> bool) (s : string) (c : ascii) :
  last_char s = Some c -> p c = false -> rstrip_by p s = s.
Proof.
  intros L C. induction s as [|d s IH]; [reflexivity|].
  cbn [rstrip_by]. destruct s as [|e s].
  - cbn [last_char] in L. injection L as ->. cbn [rstrip_by]. now rewrite C.
  - rewrite IH by exact L. reflexivity.
Qed.

Lemma trimmed_parts (s : string) :
  trimmed s = true ->
  exists c rest l,
    s = String c rest /\ isspace c = false /\
    last_char s = Some l /\ isspace l = false.
Proof.
  unfold trimmed. intros T. apply andb_true_iff in T as [F L].
  destruct s as [|c rest]; [discriminate F|].
  destruct (last_char (String c rest)) as [l|]; [|discriminate L].
  exists c, rest, l. repeat split; now apply negb_true_iff.
Qed.

Lemma strip_trimmed (s : string) : trimmed s = true -> strip s = s.
Proof.
  intros T. destruct (trimmed_parts s T) as (c & rest & l & -> & C & L & B).
  unfold strip, lstrip, rstrip. cbn [lstrip_by]. rewrite C.
  now apply (rstrip_by_last isspace _ l).
Qed.

Lemma lstrip_trimmed (s : string) : trimmed s = true -> lstrip s = s.
Proof.
  intros T. destruct (trimmed_parts s T) as (c & rest & l & -> & C & _).
  unfold lstrip. cbn [lstrip_by]. now rewrite C.
Qed.

Lemma space_not_kept (l : ascii) : isspace l = false -> Ascii.eqb nl l = false.
Proof.
  intros S. destruct (Ascii.eqb_spec nl l) as [<-|]; [discriminate S | reflexivity].
Qed.

Lemma rstrip_by_dropped (p : ascii -> bool) (s : string) (l n : ascii) :
  last_char s = Some l -> p l = false -> p n = true ->
  rstrip_by p (s ++ String n EmptyString) = s.
Proof.
  intros L B N. induction s as [|d s IH]; [discriminate L|].
  cbn [append rstrip_by]. destruct s as [|e s].
  - cbn [last_char] in L. injection L as ->. cbn. now rewrite N, B.
  - rewrite IH by exact L. reflexivity.
Qed.

(** The last line of a file: trimmed text and its line feed. *)
Lemma strip_line (s : string) :
  trimmed s = true -> rstrip_nl (strip (s ++ NL)) = s.
Proof.
  intros T. destruct (trimmed_parts s T) as (c & rest & l & E & C & L & B).
  assert (S : strip (s ++ NL) = s).
  { unfold strip, lstrip, rstrip. rewrite E. cbn [append lstrip_by]. rewrite C.
    change (String c (rest ++ NL)) with (String c rest ++ NL). rewrite <- E.
    now apply (rstrip_by_dropped isspace s l nl L B). }
  rewrite S. unfold rstrip_nl.
  apply (rstrip_by_last _ _ l L). now apply space_not_kept.
Qed.

Lemma rstrip_nl_line (s : string) :
  trimmed s = true -> rstrip_nl (s ++ NL) = s.
Proof.
  intros T. destruct (trimmed_parts s T) as (c & rest & l & E & C & L & B).
  unfold rstrip_nl, NL.
  apply (rstrip_by_dropped _ s l nl L); [now apply space_not_kept|].
  apply Ascii.eqb_refl.
Qed.

Lemma trimmed_join (a b : string) :
  trimmed a = true -> trimmed b = true -> trimmed (a ++ " " ++ b) = true.
Proof.
  intros A B.
  destruct (trimmed_parts a A) as (c & rest & l & -> & C & _).
  destruct (trimmed_parts b B) as (c' & rest' & l' & -> & _ & L' & B').
  unfold trimmed. cbn [append]. rewrite C. cbn [negb andb].
  change (String c (rest ++ String " " (String c' rest')))
    with (String c rest ++ String " " EmptyString ++ String c' rest').
  rewrite !last_char_append by discriminate. now rewrite L', B'.
Qed.

(** A chain of trimmed lines gathers them joined by single blanks. *)
Lemma chain_text_trimmed (bodies : list string) :
  forallb trimmed bodies = true ->
  forall acc, trimmed acc = true ->
    chain_text acc bodies = String.concat " " (acc :: bodies) /\
    trimmed (chain_text acc bodies) = true.
Proof.
  induction bodies as [|b bs IH]; intros B acc A.
  - split; [reflexivity | exact A].
  - cbn [forallb] in B. apply andb_true_iff in B as [B1 B2].
    cbn [chain_text]. rewrite (strip_trimmed acc A), (lstrip_trimmed b B1).
    destruct (IH B2 (acc ++ " " ++ b) (trimmed_join acc b A B1)) as [E T].
    split; [|exact T]. rewrite E.
    cbn [String.concat]. destruct bs; [reflexivity|].
    now rewrite !append_assoc.
Qed.

Lemma concat_snoc (xs : list string) (x y : string) :
  String.concat " " (x :: xs) ++ " " ++ y = String.concat " " ((x :: xs) ++ [y])%list.
Proof.
  revert x. induction xs as [|z xs IH]; intros x; [reflexivity|].
  cbn [String.concat app] in *. rewrite append_assoc. f_equal.
  cbn [append]. f_equal. apply IH.
Qed.

Lemma logical_line_trimmed (bodies : list string) (last : string) :
  forallb trimmed bodies = true -> trimmed last = true ->
  logical_line bodies (last ++ NL) = String.concat " " (bodies ++ [last])%list.
Proof.
  intros B L. unfold logical_line. destruct bodies as [|b bs].
  - cbn [app String.concat]. now apply rstrip_nl_line.
  - cbn [forallb] in B. apply andb_true_iff in B as [B1 B2].
    destruct (chain_text_trimmed bs B2 b B1) as [E T].
    rewrite (strip_trimmed _ T), E, (strip_line last L).
    apply concat_snoc.
Qed.

(** ** A value of any size after a continuation *)

Lemma search_after {A : Type} (m : Re.matcher A) (pre s : string) :
  no_match_in m pre s -> Re.search m (pre ++ s) = Re.search m s.
Proof.
  induction pre as [|c p IH]; [reflexivity|].
  intros [M N]. cbn [append Re.search]. rewrite M. now apply IH.
Qed.

Lemma finditer_after {A : Type} (m : Re.matcher A) (pre s : string) :
  no_match_in m pre s ->
  Re.finditer_from m 0 (pre ++ s) = Re.finditer_from m 0 s.
Proof.
  induction pre as [|c p IH]; [reflexivity|].
  intros [M N]. cbn [append Re.finditer_from]. rewrite M. now apply IH.
Qed.

Lemma search_here {A : Type} (m : Re.matcher A) (s : string) (r : A * string) :
  m s = Some r -> Re.search m s = Some r.
Proof. intros M. destruct s; cbn [Re.search]; now rewrite M. Qed.

Lemma no_match_in_digits {A : Type} (m : Re.matcher A) (d s : string) :
  (forall c t, isdigit c = true -> m (String c t) = None) ->
  all_chars isdigit d = true -> no_match_in m d s.
Proof.
  intros M. induction d as [|c d IH]; intros D; [exact I|].
  cbn [all_chars] in D. apply andb_true_iff in D as [C D].
  split; [now apply M | now apply IH].
Qed.

Lemma dash_not_digit (c : ascii) : isdigit c = true -> Ascii.eqb "-" c = false.
Proof.
  intros C. rewrite Ascii.eqb_sym. now destruct (digit_facts c C) as (_ & _ & ->).
Qed.

Lemma has_char_digits (c : ascii) (d : string) :
  isdigit c = false -> all_chars isdigit d = true -> has_char c d = false.
Proof.
  intros C. induction d as [|x d IH]; intros D; [reflexivity|].
  cbn [all_chars] in D. apply andb_true_iff in D as [X D].
  cbn [has_char]. rewrite (IH D), orb_false_r.
  destruct (Ascii.eqb_spec c x) as [->|]; [congruence | reflexivity].
Qed.

(** The three-line script is a chain of two continued lines. *)
Lemma three_line_script_chain (d : string) :
  numeral d = true ->
  three_line_script d
  = chain_script ["spark-submit "; "  --executor-cores "] ("  " ++ d ++ " app.py") /\
  one_line ("  " ++ d ++ " app.py") = true.
Proof.
  intros N. unfold numeral in N. apply andb_true_iff in N as [_ D]. split.
  - unfold three_line_script, chain_script, continued.
    cbn [map String.concat]. cbn [append]. now rewrite !append_assoc.
  - unfold one_line. rewrite !has_char_append.
    rewrite (has_char_digits nl d eq_refl D), (has_char_digits cr d eq_refl D).
    reflexivity.
Qed.

Lemma three_line_script_lines (d : string) :
  numeral d = true ->
  List.length (TextIO.readlines (three_line_script d)) = 3%nat.
Proof.
  intros N. destruct (three_line_script_chain d N) as [-> L].
  now rewrite readlines_chain.
Qed.

(** The buffer of the three-line script, for any number as the value. *)
Lemma three_line_script_buffer (d : string) :
  numeral d = true ->
  full_command (TextIO.readlines (three_line_script d))
  = "spark-submit --executor-cores " ++ d ++ " app.py".
Proof.
  intros N. destruct (three_line_script_chain d N) as [-> O].
  unfold numeral in N.
  apply andb_true_iff in N as [E D]. apply negb_true_iff in E.
  rewrite readlines_chain by (reflexivity || exact O).
  unfold full_command. rewrite command_lines_chain.
  unfold logical_line. cbn [chain_text].
  assert (L : rstrip_nl (strip (("  " ++ d ++ " app.py") ++ NL)) = d ++ " app.py").
  { destruct d as [|c d]; [discriminate E|].
    cbn [all_chars] in D. apply andb_true_iff in D as [C D].
    assert (L1 : lstrip (("  " ++ String c d ++ " app.py") ++ NL)
                 = (String c d ++ " app.p") ++ String "y" NL).
    { unfold lstrip. cbn [append lstrip_by].
      change (isspace " ") with true. cbv iota.
      rewrite (digit_not_space c C). rewrite !append_assoc. reflexivity. }
    unfold strip. rewrite L1.
    unfold rstrip. rewrite rstrip_by_kept by reflexivity.
    change (rstrip_by isspace NL) with EmptyString.
    unfold rstrip_nl. rewrite rstrip_by_kept by reflexivity.
    cbn [rstrip_by]. rewrite append_assoc. reflexivity. }
  rewrite L. reflexivity.
Qed.

(** The value found for [--executor-cores] there, and the absence of
    [--conf]. *)
Lemma three_line_script_found (d : string) :
  numeral d = true ->
  flag_found "--executor-cores" isdigit
    ("spark-submit --executor-cores " ++ d ++ " app.py") = Some d /\
  Re.finditer Re.conf_flag ("spark-submit --executor-cores " ++ d ++ " app.py") = [].
Proof.
  intros N. pose proof N as N'. unfold numeral in N'.
  apply andb_true_iff in N' as [E D]. apply negb_true_iff in E.
  split.
  - unfold flag_found.
    change ("spark-submit --executor-cores " ++ d ++ " app.py")
      with ("spark-submit " ++ "--executor-cores " ++ d ++ " app.py").
    rewrite search_after by (repeat split; reflexivity).
    rewrite (search_here _ _ (d, " app.py")); [reflexivity|].
    unfold Re.flag_value. cbn [append Re.skip_lit Ascii.eqb Bool.eqb].
    unfold Re.plus. cbn [span]. change (isspace " ") with true. cbv iota.
    destruct d as [|c d]; [discriminate E|].
    pose proof D as D'. cbn [all_chars] in D'. apply andb_true_iff in D' as [C _].
    cbn [append span]. rewrite (digit_not_space c C). cbn [is_empty].
    change (String c (d ++ " app.py")) with (String c d ++ " app.py").
    now rewrite (span_append isdigit (String c d) " app.py" D eq_refl).
  - unfold Re.finditer.
    rewrite finditer_after by (repeat split; reflexivity).
    rewrite finditer_after; [reflexivity|].
    apply no_match_in_digits; [|exact D].
    intros c t C. unfold Re.conf_flag. cbn [Re.skip_lit].
    now rewrite (dash_not_digit c C).
Qed.

(** The three-line script with any number as the value. *)
Lemma three_line_script_cores (path d : string) :
  numeral d = true ->
  exists cfg,
    parse_spark_submit_script (single_file path (three_line_script d)) path = Ok cfg /\
    executor_cores cfg = Some (digits_value d).
Proof.
  intros N.
  assert (F : single_file path (three_line_script d) path = Some (three_line_script d))
    by (unfold single_file; now rewrite String.eqb_refl).
  destruct (three_line_script_found d N) as [V C].
  destruct (parse_spark_submit_script (single_file path (three_line_script d)) path)
    as [cfg|e] eqn:P.
  - exists cfg. split; [reflexivity|].
    destruct (parse_spark_submit_script_flags _ _ _ cfg F P) as (_ & _ & _ & _ & K & _).
    rewrite K, (three_line_script_buffer d N), V. reflexivity.
  - exfalso.
    assert (e = ValueError).
    { unfold parse_spark_submit_script in P. rewrite F, flags_pass_value in P.
      cbn [bind] in P. unfold conf_pass in P.
      rewrite (three_line_script_buffer d N), C in P. discriminate P. }
    subst e.
    apply (parse_spark_submit_script_outcome _ _ _ F) in P as (k & v & I & _).
    rewrite (three_line_script_buffer d N), C in I. destruct I.
Qed.

(** * Scripts as texts *)

Import More Script.

(** ** Texts made of whole lines *)

Lemma last_char_cons (c : ascii) (s : string) :
  s <> EmptyString -> last_char (String c s) = last_char s.
Proof. destruct s; [congruence | reflexivity]. Qed.

Lemma last_char_none (s : string) : last_char s = None -> s = EmptyString.
Proof.
  induction s as [|c s IH]; [reflexivity|]. intros H.
  destruct s as [|d s]; [discriminate|].
  assert (E : String d s = EmptyString) by (apply IH; exact H). discriminate.
Qed.

Lemma universal_newlines_append (a b : string) :
  last_char a <> Some cr ->
  TextIO.universal_newlines (a ++ b)
  = TextIO.universal_newlines a ++ TextIO.universal_newlines b.
Proof.
  induction a as [|c a IH]; intros L; [reflexivity|].
  destruct a as [|d a].
  - cbn [append TextIO.universal_newlines].
    destruct (Ascii.eqb_spec c cr) as [->|N]; [now elim L | reflexivity].
  - assert (L' : last_char (String d a) <> Some cr) by exact L.
    specialize (IH L').
    change (String c (String d a) ++ b) with (String c (String d (a ++ b))).
    cbn [TextIO.universal_newlines] in *. cbn [append] in IH.
    destruct (Ascii.eqb c cr).
    + destruct (Ascii.eqb d nl).
      * exact IH.
      * cbn [append]. now rewrite <- IH.
    + cbn [append]. now rewrite <- IH.
Qed.

Lemma universal_newlines_last (a : string) :
  last_char a = Some nl -> last_char (TextIO.universal_newlines a) = Some nl.
Proof.
  induction a as [|c a IH]; [discriminate|]. intros L.
  destruct a as [|d a].
  - cbn [last_char] in L. injection L as ->. reflexivity.
  - assert (L' : last_char (String d a) = Some nl) by exact L.
    specialize (IH L').
    assert (N : TextIO.universal_newlines (String d a) <> EmptyString).
    { intros E. rewrite E in IH. discriminate. }
    cbn [TextIO.universal_newlines] in *.
    destruct (Ascii.eqb c cr).
    + destruct (Ascii.eqb d nl); [exact IH|]. now rewrite last_char_cons.
    + now rewrite last_char_cons.
Qed.

Lemma keepends_nil (s : string) : TextIO.keepends s = [] -> s = EmptyString.
Proof.
  destruct s as [|c s]; [reflexivity|]. cbn [TextIO.keepends].
  destruct (Ascii.eqb c nl); [discriminate|].
  destruct (TextIO.keepends s); discriminate.
Qed.

Lemma keepends_append (a b : string) :
  whole_lines a = true ->
  TextIO.keepends (a ++ b) = (TextIO.keepends a ++ TextIO.keepends b)%list.
Proof.
  unfold whole_lines. induction a as [|c a IH]; intros W; [reflexivity|].
  destruct a as [|d a].
  - cbn [last_char] in W. apply Ascii.eqb_eq in W. subst c. reflexivity.
  - remember (String d a) as x eqn:X.
    assert (W' : match last_char x with
                 | Some c => Ascii.eqb c nl | None => true end = true).
    { rewrite X in *. exact W. }
    specialize (IH W').
    cbn [append TextIO.keepends]. rewrite IH.
    destruct (Ascii.eqb c nl); [reflexivity|].
    destruct (TextIO.keepends x) as [|l ls] eqn:K; [|reflexivity].
    apply keepends_nil in K. congruence.
Qed.

Lemma readlines_append (a b : string) :
  whole_lines a = true ->
  TextIO.readlines (a ++ b) = (TextIO.readlines a ++ TextIO.readlines b)%list.
Proof.
  intros W. unfold TextIO.readlines. unfold whole_lines in W.
  destruct (last_char a) as [c|] eqn:L.
  - apply Ascii.eqb_eq in W. subst c.
    rewrite universal_newlines_append by (rewrite L; discriminate).
    apply keepends_append. unfold whole_lines.
    now rewrite (universal_newlines_last a L), Ascii.eqb_refl.
  - apply last_char_none in L. now subst a.
Qed.

Lemma whole_lines_line (body : string) : whole_lines (body ++ NL) = true.
Proof.
  unfold whole_lines. rewrite last_char_append by discriminate. reflexivity.
Qed.


(** ** Chains of continued lines anywhere in a script *)

Lemma join_from_chain_then (bodies : list string) (last : string)
  (after : list string) :
  forall acc,
    match after with
    | [] => True
    | _ :: _ =>
        endswith BS (strip (chain_text acc bodies) ++ " " ++ rstrip_nl (strip last))
        = false
    end ->
    join_from (acc ++ BS) (map continued bodies ++ last :: after)%list
    = (strip (chain_text acc bodies) ++ " " ++ rstrip_nl (strip last))
      :: command_lines after.
Proof.
  induction bodies as [|b bs IH]; intros acc C.
  - cbn [map List.app join_from chain_text] in *.
    rewrite endswith_append. unfold BS at 1. rewrite drop_last_append.
    destruct after as [|next after']; [reflexivity|].
    cbn [join_from command_lines]. now rewrite C.
  - cbn [map List.app join_from chain_text] in *.
    rewrite endswith_append. unfold BS at 1. rewrite drop_last_append.
    rewrite strip_continued.
    specialize (IH (strip acc ++ " " ++ lstrip b) C).
    rewrite append_assoc in IH. exact IH.
Qed.

Lemma command_lines_chain_then (bodies : list string) (last : string)
  (after : list string) :
  chain_closed bodies last after = true ->
  command_lines (map continued bodies ++ last :: after)%list
  = logical_line bodies last :: command_lines after.
Proof.
  unfold chain_closed. intros C. destruct bodies as [|b bs].
  - cbn [map List.app command_lines logical_line] in *.
    destruct after as [|next after']; [reflexivity|].
    apply negb_true_iff in C. cbn [join_from]. now rewrite C.
  - cbn [map List.app command_lines]. rewrite rstrip_nl_continued.
    apply join_from_chain_then.
    destruct after as [|next after']; [exact I|].
    apply negb_true_iff in C. exact C.
Qed.

Lemma command_lines_closed_app (before rest : list string) :
  forallb closed_line before = true ->
  command_lines (before ++ rest)%list
  = (map rstrip_nl before ++ command_lines rest)%list.
Proof.
  induction before as [|l before IH]; intros C; [reflexivity|].
  cbn [forallb] in C. apply andb_true_iff in C as [C1 C2].
  specialize (IH C2). cbn [List.app map command_lines].
  destruct (before ++ rest)%list as [|x xs] eqn:E.
  - cbn [join_from]. now rewrite <- IH.
  - unfold closed_line in C1. apply negb_true_iff in C1.
    cbn [join_from]. rewrite C1. f_equal. exact IH.
Qed.

Lemma whole_lines_chain_script (bodies : list string) (last : string) :
  whole_lines (chain_script bodies last) = true.
Proof.
  unfold chain_script. rewrite <- append_assoc. apply whole_lines_line.
Qed.

(** The lines of a text that holds a chain between whole lines and
    whatever follows. *)
Lemma readlines_around_chain (before_text after_text : string)
  (bodies : list string) (last : string) :
  whole_lines before_text = true ->
  forallb one_line bodies = true -> one_line last = true ->
  TextIO.readlines (before_text ++ chain_script bodies last ++ after_text)
  = (TextIO.readlines before_text
     ++ (map continued bodies ++ [(last ++ NL)%string])
     ++ TextIO.readlines after_text)%list.
Proof.
  intros W B L.
  rewrite (readlines_append before_text _ W).
  rewrite (readlines_append _ after_text (whole_lines_chain_script bodies last)).
  now rewrite (readlines_chain bodies last B L).
Qed.

(** ** A chain below other lines *)

Lemma has_char_rstrip (c : ascii) (p : ascii -> bool) (s : string) :
  has_char c s = false -> has_char c (rstrip_by p s) = false.
Proof.
  induction s as [|d s IH]; [reflexivity|]. cbn [has_char rstrip_by].
  intros H. apply orb_false_iff in H as [H1 H2]. specialize (IH H2).
  destruct (rstrip_by p s) as [|e r].
  - destruct (p d); [reflexivity|]. cbn [has_char]. now rewrite H1.
  - cbn [has_char] in *. now rewrite H1, IH.
Qed.

Lemma has_char_rstrip_lines (c : ascii) (lines : list string) :
  forallb (fun l => negb (has_char c l)) lines = true ->
  forallb (fun l => negb (has_char c l)) (map rstrip_nl lines) = true.
Proof.
  induction lines as [|l ls IH]; [reflexivity|]. cbn [forallb map].
  intros X. apply andb_true_iff in X as [X1 X2]. apply negb_true_iff in X1.
  unfold rstrip_nl at 1. now rewrite (has_char_rstrip c _ l X1), (IH X2).
Qed.

Lemma has_char_keepends (c : ascii) (s : string) :
  has_char c s = false ->
  forallb (fun l => negb (has_char c l)) (TextIO.keepends s) = true.
Proof.
  induction s as [|d s IH]; [reflexivity|]. cbn [has_char TextIO.keepends].
  intros H. apply orb_false_iff in H as [H1 H2]. specialize (IH H2).
  destruct (Ascii.eqb d nl).
  - cbn [forallb has_char]. now rewrite H1, IH.
  - destruct (TextIO.keepends s) as [|l ls].
    + cbn [forallb has_char]. now rewrite H1.
    + cbn [forallb has_char] in *. now rewrite H1.
Qed.

Lemma has_char_universal_newlines (c : ascii) (s : string) :
  Ascii.eqb c nl = false -> has_char c s = false ->
  has_char c (TextIO.universal_newlines s) = false.
Proof.
  intros N. induction s as [|d s IH]; [reflexivity|]. intros H.
  pose proof H as H'. cbn [has_char] in H'. apply orb_false_iff in H' as [H1 H2].
  specialize (IH H2). cbn [TextIO.universal_newlines].
  destruct (Ascii.eqb d cr).
  - destruct s as [|e s']; [cbn [has_char]; now rewrite N|].
    destruct (Ascii.eqb e nl); [exact IH|]. cbn [has_char]. now rewrite N, IH.
  - cbn [has_char]. now rewrite H1, IH.
Qed.

Lemma join_before (xs : list string) (l : string) :
  join " " (xs ++ [l])%list = joined_before xs ++ l.
Proof.
  unfold join. induction xs as [|x xs IH]; [reflexivity|].
  cbn [List.app joined_before fold_right]. fold (joined_before xs).
  assert (E : String.concat " " (x :: xs ++ [l])%list
              = x ++ " " ++ String.concat " " (xs ++ [l])%list).
  { destruct (xs ++ [l])%list as [|y ys] eqn:E; [now destruct xs | reflexivity]. }
  rewrite E, IH. now rewrite !append_assoc.
Qed.

Lemma has_char_joined_before (c : ascii) (xs : list string) :
  Ascii.eqb c " " = false ->
  forallb (fun l => negb (has_char c l)) xs = true ->
  has_char c (joined_before xs) = false.
Proof.
  intros N. induction xs as [|x xs IH]; [reflexivity|]. cbn [forallb].
  intros H. apply andb_true_iff in H as [H1 H2]. apply negb_true_iff in H1.
  cbn [joined_before fold_right]. fold (joined_before xs).
  rewrite !has_char_append, H1, (IH H2). cbn [has_char]. now rewrite N.
Qed.

Lemma no_match_in_absent {A : Type} (m : Re.matcher A) (c : ascii) (pre s : string) :
  (forall d t, Ascii.eqb c d = false -> m (String d t) = None) ->
  has_char c pre = false -> no_match_in m pre s.
Proof.
  intros M. induction pre as [|d pre IH]; intros H; [exact I|].
  cbn [has_char] in H. apply orb_false_iff in H as [H1 H2].
  cbn [no_match_in]. split; [now apply M | now apply IH].
Qed.

Lemma three_line_script_logical_line (d : string) :
  numeral d = true ->
  logical_line ["spark-submit "; "  --executor-cores "]
    (("  " ++ d ++ " app.py") ++ NL)
  = "spark-submit --executor-cores " ++ d ++ " app.py".
Proof.
  intros N. destruct (three_line_script_chain d N) as [E L].
  pose proof (three_line_script_buffer d N) as B.
  rewrite E in B.
  rewrite (readlines_chain ["spark-submit "; "  --executor-cores "] _ eq_refl L) in B.
  unfold full_command in B. rewrite command_lines_chain in B. exact B.
Qed.

(** The buffer of a script whose three-line chain stands below closed
    lines. *)
Lemma three_line_script_below (before_text d : string) :
  numeral d = true ->
  whole_lines before_text = true ->
  forallb closed_line (TextIO.readlines before_text) = true ->
  full_command (TextIO.readlines (before_text ++ three_line_script d))
  = joined_before (map rstrip_nl (TextIO.readlines before_text))
    ++ "spark-submit --executor-cores " ++ d ++ " app.py".
Proof.
  intros N W C. destruct (three_line_script_chain d N) as [E L].
  rewrite E.
  rewrite <- (append_empty (chain_script _ _)).
  rewrite (readlines_around_chain before_text EmptyString
             ["spark-submit "; "  --executor-cores "] _ W eq_refl L).
  change (TextIO.readlines EmptyString) with (@nil string). rewrite app_nil_r.
  unfold full_command. rewrite (command_lines_closed_app _ _ C).
  rewrite command_lines_chain, (three_line_script_logical_line d N).
  apply join_before.
Qed.

Lemma three_line_script_cores_below (path before_text d : string) :
  numeral d = true ->
  whole_lines before_text = true ->
  forallb closed_line (TextIO.readlines before_text) = true ->
  has_char "-" before_text = false ->
  exists cfg,
    parse_spark_submit_script
      (single_file path (before_text ++ three_line_script d)) path = Ok cfg /\
    executor_cores cfg = Some (digits_value d).
Proof.
  intros N W C H.
  set (text := before_text ++ three_line_script d).
  assert (F : single_file path text path = Some text)
    by (unfold single_file; now rewrite String.eqb_refl).
  destruct (three_line_script_found d N) as [V K].
  set (pre := joined_before (map rstrip_nl (TextIO.readlines before_text))).
  assert (P0 : has_char "-" pre = false).
  { apply has_char_joined_before; [reflexivity|].
    apply has_char_rstrip_lines. unfold TextIO.readlines.
    apply has_char_keepends. now apply has_char_universal_newlines. }
  assert (B : full_command (TextIO.readlines text)
              = pre ++ "spark-submit --executor-cores " ++ d ++ " app.py")
    by now apply three_line_script_below.
  assert (V' : flag_found "--executor-cores" isdigit
                 (pre ++ "spark-submit --executor-cores " ++ d ++ " app.py")
               = Some d).
  { unfold flag_found in *. rewrite search_after; [exact V|].
    apply (no_match_in_absent _ "-"%char); [|exact P0].
    intros c t Q. unfold Re.flag_value. cbn [Re.skip_lit]. now rewrite Q. }
  assert (K' : Re.finditer Re.conf_flag
                 (pre ++ "spark-submit --executor-cores " ++ d ++ " app.py") = []).
  { unfold Re.finditer in *. rewrite finditer_after; [exact K|].
    apply (no_match_in_absent _ "-"%char); [|exact P0].
    intros c t Q. unfold Re.conf_flag. cbn [Re.skip_lit]. now rewrite Q. }
  destruct (parse_spark_submit_script (single_file path text) path)
    as [cfg|e] eqn:P.
  - exists cfg. split; [reflexivity|].
    destruct (parse_spark_submit_script_flags _ _ _ cfg F P) as (_ & _ & _ & _ & X & _).
    rewrite X, B, V'. reflexivity.
  - exfalso. unfold parse_spark_submit_script in P.
    rewrite F, flags_pass_value in P. cbn [bind] in P. unfold conf_pass in P.
    rewrite B, K' in P. discriminate P.
Qed.

(** * Properties of the specification *)

(** C1, as the code has it.  A record read from a settings file holds
    every typed field that is present in [raw_configs] too, in raw form
    under its canonical name.  A record read from a deploy script holds in
    [raw_configs] the [--conf] occurrences and nothing else: the three
    fields promoted from [--conf] are recorded there, the fields read from
    positional flags and the application name are not. *)
Theorem typed_fields_recorded_by_dialect (fs : filesystem) (path : string)
  (cfg : SparkConfig) :
  (parse_spark_defaults fs path = Ok cfg -> typed_fields_recorded cfg) /\
  (parse_spark_submit_script fs path = Ok cfg ->
   conf_fields_recorded cfg /\
   raw_configs cfg = record_all (conf_occurrences fs path) Dict.empty).
Proof.
  split; intros P.
  - apply parse_spark_defaults_settled in P.
    eapply settled_recorded; eauto.
  - unfold conf_occurrences. destruct (fs path) as [text|] eqn:F.
    + destruct (parse_spark_submit_script_settled fs path text cfg F P) as [S R].
      split; [eapply conf_settled_recorded; eauto | exact R].
    + unfold parse_spark_submit_script in P. rewrite F in P.
      injection P as <-. split; [|reflexivity].
      unfold conf_fields_recorded, recorded_int, recorded_flag; simpl.
      repeat split; intros; discriminate.
Qed.

Lemma typed_fields_recorded_by_dialect_witness :
  typed_fields_recorded cores_twice_record /\
  conf_fields_recorded conf_script_record.
Proof.
  split.
  - apply (proj1 (typed_fields_recorded_by_dialect cores_twice
                    "spark-defaults.conf" cores_twice_record)).
    reflexivity.
  - apply (proj2 (typed_fields_recorded_by_dialect conf_script
                    "submit.sh" conf_script_record)).
    reflexivity.
Defined.

(** C1 as written fails on a deploy script: [--driver-memory 4g] sets the
    typed field and leaves [raw_configs] empty. *)
Lemma positional_flag_is_not_recorded :
  exists cfg,
    parse_spark_submit_script driver_flag_script "submit.sh" = Ok cfg /\
    driver_memory cfg = Some "4g" /\
    raw_configs cfg = [] /\
    ~ typed_fields_recorded cfg.
Proof.
  exists (set_driver_memory "4g" (new_config "submit.sh")).
  repeat split.
  intros (H & _). specialize (H "4g" eq_refl). discriminate H.
Qed.

(** C2.  The rule engine reads a number followed by [k] as that many
    megabytes: its table gives kilobytes the multiplier of megabytes, so
    2048k is read as 2048 megabytes.  For [m], [g], [t] and no unit it
    reads the number, the number times 1024, times 1024 * 1024, and the
    number, and for each unit a larger number is read as no less.  The
    utility of the parser, which nothing calls, does divide kilobytes by
    1024 and reads 2048k as 2 megabytes. *)
Theorem kilobytes_are_not_scaled :
  (forall d : string,
      numeral d = true ->
      _parse_memory_mb (d ++ "k") = Some (digits_value d) /\
      _parse_memory_mb (d ++ "m") = Some (digits_value d) /\
      _parse_memory_mb (d ++ "g") = Some (digits_value d * 1024)%Z /\
      _parse_memory_mb (d ++ "t") = Some (digits_value d * (1024 * 1024))%Z /\
      _parse_memory_mb d = Some (digits_value d)) /\
  (forall d1 d2 unit : string,
      numeral d1 = true -> numeral d2 = true ->
      In unit [EmptyString; "k"; "m"; "g"; "t"] ->
      (digits_value d1 <= digits_value d2)%Z ->
      exists mb1 mb2,
        _parse_memory_mb (d1 ++ unit) = Some mb1 /\
        _parse_memory_mb (d2 ++ unit) = Some mb2 /\
        (mb1 <= mb2)%Z) /\
  (forall d : string,
      numeral d = true -> (digits_value d < 2 ^ 53)%Z ->
      parse_memory_to_mb (d ++ "k") = Ok (Some (digits_value d / 1024)%Z)) /\
  _parse_memory_mb "2048k" = Some 2048%Z /\
  parse_memory_to_mb "2048k" = Ok (Some 2%Z).
Proof.
  split; [|split; [|split; [|split]]].
  - intros d N.
    destruct (parse_memory_mb_units d N) as (U0 & Uk & Um & Ug & Ut).
    repeat split; assumption.
  - intros d1 d2 unit N1 N2 I L.
    destruct (parse_memory_mb_units d1 N1) as (A0 & Ak & Am & Ag & At).
    destruct (parse_memory_mb_units d2 N2) as (B0 & Bk & Bm & Bg & Bt).
    destruct I as [<-|[<-|[<-|[<-|[<-|[]]]]]].
    + rewrite !append_empty. eexists; eexists; repeat split; eauto.
    + eexists; eexists; repeat split; eauto.
    + eexists; eexists; repeat split; eauto.
    + eexists; eexists; repeat split; eauto. lia.
    + eexists; eexists; repeat split; eauto. lia.
  - intros d N B. now destruct (parse_memory_to_mb_units d N B) as (_ & K & _).
  - reflexivity.
  - reflexivity.
Qed.

Lemma kilobytes_are_not_scaled_witness :
  _parse_memory_mb ("2048" ++ "k") = Some (digits_value "2048") /\
  digits_value "2048" = 2048%Z.
Proof.
  split; [|reflexivity].
  apply (proj1 kilobytes_are_not_scaled "2048"). reflexivity.
Defined.

(** C3. Parsing a path at which there is no file raises nothing, by the
    dispatcher and by either dialect: the result is the record that has the
    path as its source, no raw setting, and every other field at its
    default. *)
Theorem missing_file_gives_default_record (fs : filesystem) (path : string) :
  fs path = None ->
  let record :=
    {| source_file := path;
       driver_memory := None; executor_memory := None;
       executor_cores := None; num_executors := None;
       default_parallelism := None; shuffle_partitions := None;
       dynamic_allocation_enabled := false;
       app_name := None; deploy_mode := None; master := None;
       raw_configs := [] |} in
  parse_file fs path = Ok record /\
  parse_spark_defaults fs path = Ok record /\
  parse_spark_submit_script fs path = Ok record.
Proof.
  intros F record.
  assert (D : parse_spark_defaults fs path = Ok record)
    by (unfold parse_spark_defaults; now rewrite F).
  assert (S : parse_spark_submit_script fs path = Ok record)
    by (unfold parse_spark_submit_script; now rewrite F).
  repeat split; try assumption.
  unfold parse_file. rewrite F.
  destruct (endswith "spark-defaults.conf" path); [exact D|].
  destruct (endswith ".sh" path); [exact S | exact D].
Qed.

Lemma missing_file_gives_default_record_witness :
  single_file "spark-defaults.conf" "spark.app.name etl" "job.sh" = None /\
  parse_file (single_file "spark-defaults.conf" "spark.app.name etl") "job.sh"
  = Ok (new_config "job.sh").
Proof.
  split; [reflexivity|].
  apply (missing_file_gives_default_record
           (single_file "spark-defaults.conf" "spark.app.name etl") "job.sh").
  reflexivity.
Defined.

(** C4, as the code has it.  In the key/value dialect a line that gives
    a recognised integer setting a value that [int] does not read makes
    the parse raise [ValueError].  In the deploy-script dialect a token
    after [--executor-cores] or [--num-executors] that is not a number
    is no error: each flag is taken from the first place where blanks
    and at least one digit follow it, as the number written by those
    digits, and stays unset when there is no such place; a script in
    which neither flag is found so and no [--conf] sets an integer
    tunable is parsed without error. *)
Theorem unparsable_integer_outcome (fs : filesystem) (path text : string) :
  fs path = Some text ->
  (forall key value,
     In (key, value) (settings_of fs path) ->
     integer_setting key = true -> int value = None ->
     parse_spark_defaults fs path = Raise ValueError) /\
  (forall cfg,
     parse_spark_submit_script fs path = Ok cfg ->
     executor_cores cfg =
       option_map digits_value
         (flag_found "--executor-cores" isdigit (buffer_of fs path)) /\
     num_executors cfg =
       option_map digits_value
         (flag_found "--num-executors" isdigit (buffer_of fs path))) /\
  (flag_found "--executor-cores" isdigit (buffer_of fs path) = None ->
   flag_found "--num-executors" isdigit (buffer_of fs path) = None ->
   (forall key value,
      In (key, value) (conf_occurrences fs path) ->
      conf_integer_setting key = false) ->
   exists cfg,
     parse_spark_submit_script fs path = Ok cfg /\
     executor_cores cfg = None /\ num_executors cfg = None).
Proof.
  intros F. unfold settings_of, conf_occurrences, buffer_of. rewrite F.
  assert (Q : forall cfg,
             parse_spark_submit_script fs path = Ok cfg ->
             executor_cores cfg =
               option_map digits_value
                 (flag_found "--executor-cores" isdigit
                    (full_command (TextIO.readlines text))) /\
             num_executors cfg =
               option_map digits_value
                 (flag_found "--num-executors" isdigit
                    (full_command (TextIO.readlines text)))).
  { intros cfg P.
    destruct (parse_spark_submit_script_flags fs path text cfg F P)
      as (_ & _ & _ & _ & C & N).
    split; assumption. }
  split; [|split].
  - intros k v I K V. unfold parse_spark_defaults. rewrite F.
    unfold entries in I. apply in_flat_map in I as (line & IL & IK).
    destruct (key_value line) as [[k' v']|] eqn:KV; [|destruct IK].
    destruct IK as [[= -> ->]|[]].
    now apply (defaults_lines_raises _ line k v).
  - exact Q.
  - intros C N H.
    destruct (parse_spark_submit_script fs path) as [cfg|e] eqn:P.
    + exists cfg. destruct (Q cfg eq_refl) as [QC QN].
      rewrite QC, QN, C, N. now repeat split.
    + exfalso. unfold parse_spark_submit_script in P.
      rewrite F, flags_pass_value in P. cbn [bind] in P. unfold conf_pass in P.
      destruct (conf_steps_returns
                  (Re.finditer Re.conf_flag (full_command (TextIO.readlines text))))
        with (c := with_flags (full_command (TextIO.readlines text))
                     (app_name_pass (full_command (TextIO.readlines text))
                        (new_config path)))
        as [c' R].
      * intros k v I K. rewrite (H k v I) in K. discriminate K.
      * rewrite R in P. discriminate P.
Qed.

Lemma unparsable_integer_outcome_witness :
  parse_spark_defaults cores_not_a_number "spark-defaults.conf" = Raise ValueError /\
  exists cfg,
    parse_spark_submit_script cores_flag_script "submit.sh" = Ok cfg /\
    executor_cores cfg = None /\ num_executors cfg = None.
Proof.
  split.
  - apply (proj1 (unparsable_integer_outcome cores_not_a_number
                    "spark-defaults.conf" _ eq_refl)
             "spark.executor.cores" "many").
    + now left.
    + reflexivity.
    + reflexivity.
  - apply (proj2 (proj2 (unparsable_integer_outcome cores_flag_script
                           "submit.sh" _ eq_refl))).
    + reflexivity.
    + reflexivity.
    + intros key value [].
Defined.

(** C4 as written fails on a deploy script: a core count that is not a
    number raises nothing and leaves the field unset, and one that only
    starts with digits is cut down to them. *)
Lemma non_numeric_core_flag_is_skipped :
  parse_spark_submit_script cores_flag_script "submit.sh"
  = Ok (new_config "submit.sh") /\
  executor_cores (new_config "submit.sh") = None /\
  parse_spark_submit_script cores_suffix_script "submit.sh"
  = Ok (set_executor_cores 4 (new_config "submit.sh")).
Proof. repeat split; reflexivity. Qed.

(** C5. Whenever the driver memory of a record parses to more than 10240
    megabytes, the rule battery opens with a critical recommendation of
    category [resource_allocation] that recommends 2g-4g.  A settings file
    holding nothing but [spark.driver.memory=20g] is read with that
    driver memory, and the battery then reports it under the title
    Excessive Driver Memory. *)
Theorem excessive_driver_memory_reported :
  (forall (cfg : SparkConfig) (m : option ExecutionMetrics) (memory : string) (mb : Z),
      driver_memory cfg = Some memory ->
      _parse_memory_mb memory = Some mb ->
      (10240 < mb)%Z ->
      exists r rest,
        _rule_based_analysis cfg m = r :: rest /\
        severity r = CRITICAL /\
        category r = "resource_allocation" /\
        title r = "Excessive Driver Memory" /\
        current_value r = Some memory /\
        recommended_value r = Some "2g-4g") /\
  (forall (path : string) (m : option ExecutionMetrics),
      exists cfg r rest,
        parse_spark_defaults (single_file path "spark.driver.memory=20g") path = Ok cfg /\
        driver_memory cfg = Some "20g" /\
        _rule_based_analysis cfg m = r :: rest /\
        severity r = CRITICAL /\
        title r = "Excessive Driver Memory" /\
        recommended_value r = Some "2g-4g").
Proof.
  split.
  - intros cfg m memory mb D P G.
    exists (excessive_driver_memory memory). eexists.
    unfold _rule_based_analysis.
    rewrite (check_driver_memory_fires cfg memory mb D P G).
    repeat split.
  - intros path m.
    exists (set_driver_memory "20g"
              (set_raw "spark.driver.memory" "20g" (new_config path))).
    exists (excessive_driver_memory "20g"). eexists.
    split.
    + unfold parse_spark_defaults, single_file. now rewrite String.eqb_refl.
    + repeat split.
Qed.

Lemma excessive_driver_memory_reported_witness :
  exists r rest,
    _rule_based_analysis driver_20g None = r :: rest /\
    severity r = CRITICAL /\
    category r = "resource_allocation" /\
    title r = "Excessive Driver Memory" /\
    current_value r = Some "20g" /\
    recommended_value r = Some "2g-4g".
Proof.
  apply (proj1 excessive_driver_memory_reported driver_20g None "20g" 20480%Z).
  - reflexivity.
  - reflexivity.
  - reflexivity.
Defined.




(** C7. A chain of any number of physical lines that each end in a
    backslash, together with the line that follows the chain, is rebuilt
    into exactly one logical line, wherever the chain stands in the
    script: the lines before it that do not end in a backslash stay
    logical lines of their own, and what follows the chain is rebuilt in
    its turn.  Every continuation character is gone and one blank
    stands at each join.  So it is for the lines read from the text of
    such a script; a script that is one chain has that line as its whole
    search buffer, and when its lines carry no blanks at their ends the
    buffer is their texts joined by single blanks.  A script of three
    physical lines whose continuation separates [--executor-cores] from
    its value is read with that number as its executor cores, for every
    number that [int] of the interpreter converts, and also when the
    three lines stand below other lines. *)
Theorem continuation_chain_is_one_logical_line :
  (forall (before bodies : list string) (last : string) (after : list string),
      forallb closed_line before = true ->
      chain_closed bodies last after = true ->
      command_lines (before ++ map continued bodies ++ last :: after)%list
      = (map rstrip_nl before ++ logical_line bodies last :: command_lines after)%list) /\
  (forall (before_text after_text : string) (bodies : list string) (last : string),
      whole_lines before_text = true ->
      forallb one_line bodies = true -> one_line last = true ->
      forallb closed_line (TextIO.readlines before_text) = true ->
      chain_closed bodies (last ++ NL) (TextIO.readlines after_text) = true ->
      command_lines
        (TextIO.readlines (before_text ++ chain_script bodies last ++ after_text))
      = (map rstrip_nl (TextIO.readlines before_text)
         ++ logical_line bodies (last ++ NL)
         :: command_lines (TextIO.readlines after_text))%list) /\
  (forall (bodies : list string) (last : string),
      let lines := (map continued bodies ++ [last])%list in
      command_lines lines = [logical_line bodies last] /\
      full_command lines = logical_line bodies last) /\
  (forall (bodies : list string) (last : string),
      forallb one_line bodies = true -> one_line last = true ->
      List.length (TextIO.readlines (chain_script bodies last))
      = S (List.length bodies) /\
      full_command (TextIO.readlines (chain_script bodies last))
      = logical_line bodies (last ++ NL) /\
      (forallb trimmed bodies = true -> trimmed last = true ->
       full_command (TextIO.readlines (chain_script bodies last))
       = String.concat " " (bodies ++ [last])%list)) /\
  (forall path before_text value : string,
      numeral value = true ->
      (String.length value <= 4300)%nat ->
      whole_lines before_text = true ->
      forallb closed_line (TextIO.readlines before_text) = true ->
      has_char "-" before_text = false ->
      List.length (TextIO.readlines (three_line_script value)) = 3%nat /\
      full_command (TextIO.readlines (three_line_script value))
      = "spark-submit --executor-cores " ++ value ++ " app.py" /\
      full_command (TextIO.readlines (before_text ++ three_line_script value))
      = joined_before (map rstrip_nl (TextIO.readlines before_text))
        ++ "spark-submit --executor-cores " ++ value ++ " app.py" /\
      exists cfg,
        parse_spark_submit_script
          (single_file path (before_text ++ three_line_script value)) path
        = Ok cfg /\
        executor_cores cfg = Some (digits_value value)) /\
  (forall path : string,
      parse_spark_submit_script (single_file path (three_line_script "4")) path
      = Ok (set_executor_cores 4 (new_config path)) /\
      parse_spark_submit_script
        (single_file path (("#!/bin/bash" ++ NL) ++ three_line_script "4")) path
      = Ok (set_executor_cores 4 (new_config path))).
Proof.
  split; [|split; [|split; [|split; [|split]]]].
  - intros before bodies last after C E.
    rewrite (command_lines_closed_app _ _ C). f_equal.
    now apply command_lines_chain_then.
  - intros before_text after_text bodies last W B L C E.
    rewrite (readlines_around_chain before_text after_text bodies last W B L).
    rewrite (command_lines_closed_app _ _ C). f_equal.
    rewrite <- app_assoc. cbn [List.app].
    now apply command_lines_chain_then.
  - intros bodies last lines. unfold full_command, lines.
    rewrite command_lines_chain. split; reflexivity.
  - intros bodies last B L. rewrite (readlines_chain bodies last B L).
    assert (F : full_command (map continued bodies ++ [(last ++ NL)%string])%list
                = logical_line bodies (last ++ NL))
      by (unfold full_command; now rewrite command_lines_chain).
    split; [|split].
    + rewrite length_app, length_map. simpl. lia.
    + exact F.
    + intros TB TL. rewrite F. now apply logical_line_trimmed.
  - intros path before_text value N _ W C H. split; [|split; [|split]].
    + now apply three_line_script_lines.
    + now apply three_line_script_buffer.
    + now apply three_line_script_below.
    + now apply three_line_script_cores_below.
  - intros path. unfold parse_spark_submit_script, single_file.
    now rewrite String.eqb_refl.
Qed.

Lemma continuation_chain_is_one_logical_line_witness :
  full_command (TextIO.readlines (three_line_script "4"))
  = logical_line ["spark-submit "; "  --executor-cores "] ("  4 app.py" ++ NL) /\
  full_command (TextIO.readlines (chain_script ["spark-submit"; "--name"] "etl app.py"))
  = "spark-submit --name etl app.py" /\
  full_command (TextIO.readlines (three_line_script "16"))
  = "spark-submit --executor-cores 16 app.py" /\
  command_lines
    (TextIO.readlines
       (("#!/bin/bash" ++ NL) ++ chain_script ["spark-submit"; "--name"] "etl app.py"
        ++ ("echo done" ++ NL)))
  = ["#!/bin/bash"; "spark-submit --name etl app.py"; "echo done"] /\
  exists cfg,
    parse_spark_submit_script
      (single_file "run.sh" (("#!/bin/bash" ++ NL) ++ three_line_script "16")) "run.sh"
    = Ok cfg /\
    executor_cores cfg = Some (digits_value "16").
Proof.
  split; [|split; [|split; [|split]]].
  - apply (proj1 (proj2 (proj2 (proj2 continuation_chain_is_one_logical_line)))
             ["spark-submit "; "  --executor-cores "] "  4 app.py").
    + reflexivity.
    + reflexivity.
  - apply (proj1 (proj2 (proj2 (proj2 continuation_chain_is_one_logical_line)))
             ["spark-submit"; "--name"] "etl app.py").
    + reflexivity.
    + reflexivity.
    + reflexivity.
    + reflexivity.
  - apply (proj1 (proj2 (proj2 (proj2 (proj2 continuation_chain_is_one_logical_line))))
             "run.sh" EmptyString "16"); try reflexivity.
    cbn [String.length]. lia.
  - apply (proj1 (proj2 continuation_chain_is_one_logical_line)
             ("#!/bin/bash" ++ NL) ("echo done" ++ NL)
             ["spark-submit"; "--name"] "etl app.py"); reflexivity.
  - apply (proj1 (proj2 (proj2 (proj2 (proj2 continuation_chain_is_one_logical_line))))
             "run.sh" ("#!/bin/bash" ++ NL) "16"); try reflexivity.
    cbn [String.length]. lia.
Defined.

(** C8. The recommendations of an analysis are those of the rule battery,
    which come in the order of its four rules, followed by those read from
    the reply, in the order of the reply.  The summary is the one read from
    the reply when there is a reply; without a client, and after a failure
    of the request, it is a fixed text. *)
Theorem analyze_appends_reply_to_rules
  (client : option (string -> option string))
  (prompt_of : SparkConfig -> option ExecutionMetrics -> option string)
  (now : string) (cfg : SparkConfig) (m : option ExecutionMetrics) :
  let result := analyze client prompt_of now cfg m in
  let rules := _rule_based_analysis cfg m in
  subsequence (map title rules) rule_titles = true /\
  config result = cfg /\ metrics result = m /\
  match client with
  | None =>
      recommendations result = rules /\
      summary result = summary_without_client
  | Some call =>
      match prompt_of cfg m with
      | Some prompt =>
          match call prompt with
          | Some reply =>
              recommendations result
              = (rules ++ snd (_parse_openai_response reply))%list /\
              summary result = fst (_parse_openai_response reply)
          | None =>
              recommendations result = rules /\
              summary result = summary_after_failure
          end
      | None =>
          recommendations result = rules /\
          summary result = summary_after_failure
      end
  end.
Proof.
  intros result rules. subst result rules.
  split; [apply rule_based_analysis_order|].
  unfold analyze, ai_stage.
  destruct client as [call|]; [|repeat split].
  destruct (prompt_of cfg m) as [prompt|]; [|repeat split].
  destruct (call prompt) as [reply|]; [|repeat split].
  destruct (_parse_openai_response reply) as [s recs]. repeat split.
Qed.

(** C9.  A tagged line whose category is empty is read with the empty
    category, not with the category general: the first segment of a
    tagged line always holds the bracket that closes the tag, so the
    category is always the text after it, trimmed, in lower case and with
    underscores for blanks, and the default is never used.  The line of
    the sixth scenario is read as the specification says. *)
Theorem empty_category_is_not_defaulted :
  (forall (sev : RecommendationSeverity) (line part0 : string) (rest : list string),
      severity_tag line = Some sev ->
      split_on "|" line = part0 :: rest ->
      exists text,
        after_first "]" part0 = Some text /\
        category_of part0 = replace_char " " "_" (lower (strip text))) /\
  _parse_openai_response "[WARNING] | Too many partitions"
  = ("Configuration analyzed. See recommendations below.",
     [ {| severity := WARNING;
          category := EmptyString;
          title := "Too many partitions";
          description := "Too many partitions. ";
          current_value := None;
          recommended_value := None;
          expected_impact := None |} ]) /\
  snd (_parse_openai_response scenario_line)
  = [ {| severity := WARNING;
         category := "performance_tuning";
         title := "Too many partitions";
         description := "Too many partitions. faster shuffles";
         current_value := Some "500";
         recommended_value := Some "100";
         expected_impact := Some "faster shuffles" |} ].
Proof.
  split; [|split; reflexivity].
  intros sev line part0 rest T S.
  destruct (tagged_line_bracket sev line part0 rest T S) as [text A].
  exists text. split; [exact A|]. unfold category_of. now rewrite A.
Qed.

Lemma empty_category_is_not_defaulted_witness :
  exists text,
    after_first "]" "[WARNING] " = Some text /\
    category_of "[WARNING] " = replace_char " " "_" (lower (strip text)).
Proof.
  apply (proj1 empty_category_is_not_defaulted WARNING
           "[WARNING] | Too many partitions" "[WARNING] " [" Too many partitions"]).
  - reflexivity.
  - reflexivity.
Defined.

(** C10. In the key/value dialect the last well-formed line that names a
    setting decides it: its value is the entry of [raw_configs], and for a
    recognised name it is also what the typed field is read from. *)
Theorem last_setting_line_wins (fs : filesystem) (path : string) (cfg : SparkConfig)
  (before after : list (string * string)) (key value : string) :
  parse_spark_defaults fs path = Ok cfg ->
  settings_of fs path = (before ++ (key, value) :: after)%list ->
  (forall later, ~ In (key, later) after) ->
  Dict.get key (raw_configs cfg) = Some value /\
  (key = "spark.driver.memory" -> driver_memory cfg = Some value) /\
  (key = "spark.executor.memory" -> executor_memory cfg = Some value) /\
  (key = "spark.executor.cores" -> executor_cores cfg = int value) /\
  (key = "spark.executor.instances" -> num_executors cfg = int value) /\
  (key = "spark.default.parallelism" -> default_parallelism cfg = int value) /\
  (key = "spark.sql.shuffle.partitions" -> shuffle_partitions cfg = int value) /\
  (key = "spark.dynamicAllocation.enabled" ->
   dynamic_allocation_enabled cfg = String.eqb (lower value) "true") /\
  (key = "spark.app.name" -> app_name cfg = Some value).
Proof.
  intros P E N. apply parse_spark_defaults_settled in P.
  unfold settings_of in E. rewrite E in P.
  pose proof (last_value_app key value before after N) as L.
  destruct P as (S0 & _ & _ & _ & S4 & S5 & S6 & S7 & S8 & S9 & S10 & S11).
  unfold overwritten in *.
  repeat split.
  - now rewrite S0, L.
  - intros ->. now rewrite S4, L.
  - intros ->. now rewrite S5, L.
  - intros ->. now rewrite S6, L.
  - intros ->. now rewrite S7, L.
  - intros ->. now rewrite S8, L.
  - intros ->. now rewrite S9, L.
  - intros ->. now rewrite S10, L.
  - intros ->. now rewrite S11, L.
Qed.

Lemma last_setting_line_wins_witness :
  parse_spark_defaults cores_twice "spark-defaults.conf" = Ok cores_twice_record /\
  Dict.get "spark.executor.cores" (raw_configs cores_twice_record) = Some "4" /\
  executor_cores cores_twice_record = Some 4%Z.
Proof.
  assert (P : parse_spark_defaults cores_twice "spark-defaults.conf"
              = Ok cores_twice_record) by reflexivity.
  destruct (last_setting_line_wins cores_twice "spark-defaults.conf"
              cores_twice_record [("spark.executor.cores", "2")] []
              "spark.executor.cores" "4" P eq_refl (fun _ H => H))
    as (R & _ & _ & C & _).
  split; [exact P | split; [exact R | exact (C eq_refl)]].
Defined.

(** * Further properties of the code *)

Import More.

(** ** Settings files, written and read back *)

Lemma key_chars_no_blank (k : string) :
  all_chars Re.key_char k = true ->
  all_chars (fun c => negb (isspace c)) k = true.
Proof.
  apply all_chars_impl. intros c C. unfold Re.key_char in C.
  now apply andb_true_iff in C as [C _].
Qed.

Lemma split_key_chars (k rest : string) :
  all_chars Re.key_char k = true ->
  Re.split_blank_or_eq (k ++ rest) =
  match Re.split_blank_or_eq rest with
  | Some (a, b) => Some (k ++ a, b)
  | None => None
  end.
Proof.
  induction k as [|c k IH]; intros K.
  - cbn [append]. now destruct (Re.split_blank_or_eq rest) as [[a b]|].
  - cbn [all_chars] in K. apply andb_true_iff in K as [C K].
    unfold Re.key_char in C. apply andb_true_iff in C as [C1 C2].
    apply negb_true_iff in C1, C2.
    cbn [append Re.split_blank_or_eq]. rewrite C1, C2, (IH K).
    now destruct (Re.split_blank_or_eq rest) as [[a b]|].
Qed.

Lemma split_none_iff (l : string) :
  Re.split_blank_or_eq l = None <-> all_chars Re.key_char l = true.
Proof.
  induction l as [|c l IH]; [easy|].
  cbn [Re.split_blank_or_eq all_chars]. unfold Re.key_char at 1.
  destruct (isspace c); [easy|].
  destruct (Ascii.eqb c "="); [easy|]. cbn [negb andb].
  destruct (Re.split_blank_or_eq l) as [[a b]|]; [|tauto].
  split; [discriminate|]. intros H. apply IH in H. discriminate.
Qed.

(** The lines that carry no setting are the blank ones, the comments and
    those of one token. *)
Lemma key_value_none_iff (line : string) :
  key_value line = None <-> noise line = true.
Proof.
  unfold key_value, noise.
  destruct (is_empty (strip line)); [easy|].
  destruct (startswith "#" (strip line)); [easy|]. cbn [orb].
  rewrite <- split_none_iff.
  destruct (Re.split_blank_or_eq (strip line)) as [[a b]|]; easy.
Qed.

Lemma separator_split (sep v : string) :
  separator sep = true -> trimmed v = true ->
  Re.split_blank_or_eq (sep ++ v) = Some (EmptyString, v).
Proof.
  intros S V. destruct (trimmed_parts v V) as (c & rest & l & -> & C & _).
  unfold separator in S. apply orb_true_iff in S as [S|S].
  - apply String.eqb_eq in S. subst sep. reflexivity.
  - apply andb_true_iff in S as [S _]. apply andb_true_iff in S as [E B].
    apply negb_true_iff in E. destruct sep as [|b sep]; [discriminate E|].
    cbn [all_chars] in B. apply andb_true_iff in B as [B1 B2].
    cbn [append Re.split_blank_or_eq]. rewrite B1.
    now rewrite (span_append isspace sep (String c rest) B2 C).
Qed.

Lemma plain_key_parts (k : string) :
  plain_key k = true ->
  exists c rest,
    k = String c rest /\ isspace c = false /\
    all_chars Re.key_char k = true /\ startswith "#" k = false.
Proof.
  unfold plain_key. intros P. apply andb_true_iff in P as [P H].
  apply andb_true_iff in P as [E K]. apply negb_true_iff in E, H.
  destruct k as [|c rest]; [discriminate E|].
  exists c, rest. repeat split; auto.
  cbn [all_chars] in K. apply andb_true_iff in K as [C _].
  unfold Re.key_char in C. apply andb_true_iff in C as [C _].
  now apply negb_true_iff.
Qed.

Lemma lstrip_first (k x : string) (c : ascii) (rest : string) :
  k = String c rest -> isspace c = false -> lstrip (k ++ x) = k ++ x.
Proof. intros -> C. unfold lstrip. cbn [append lstrip_by]. now rewrite C. Qed.

Lemma prefix_empty (s : string) : String.prefix EmptyString s = true.
Proof. now destruct s. Qed.

Lemma startswith_first (k x : string) (c : ascii) (rest : string) :
  k = String c rest -> startswith "#" (k ++ x) = startswith "#" k.
Proof.
  intros ->. unfold startswith. cbn [append String.prefix].
  destruct (ascii_dec "#" c); [|reflexivity].
  now rewrite !prefix_empty.
Qed.

(** A written line is read back as its key and its value. *)
Lemma key_value_setting_line (sep k v : string) :
  separator sep = true -> plain_key k = true -> trimmed v = true ->
  key_value (setting_line sep (k, v)) = Some (k, v).
Proof.
  intros S K V. unfold setting_line. cbn [fst snd].
  destruct (plain_key_parts k K) as (c & rest & E & C & KC & H).
  destruct (trimmed_parts v V) as (c' & rest' & l & E' & C' & L & B).
  assert (ST : strip (k ++ sep ++ v ++ NL) = k ++ sep ++ v).
  { unfold strip. rewrite (lstrip_first k _ c rest E C).
    replace (k ++ sep ++ v ++ NL) with ((k ++ sep ++ v) ++ NL)
      by (now rewrite !append_assoc).
    apply (rstrip_by_dropped isspace _ l nl); [|exact B|reflexivity].
    rewrite <- append_assoc, last_char_append; [exact L|].
    rewrite E'. discriminate. }
  unfold key_value. rewrite ST.
  replace (is_empty (k ++ sep ++ v)) with false by (now rewrite E).
  rewrite (startswith_first k _ c rest E), H.
  cbn [orb]. rewrite (split_key_chars k (sep ++ v) KC).
  rewrite (separator_split sep v S V), append_empty.
  unfold strip, lstrip, rstrip.
  destruct (strip_by_keeps isspace k (key_chars_no_blank k KC)) as [-> ->].
  fold (lstrip v). fold (rstrip (lstrip v)). fold (strip v).
  now rewrite (strip_trimmed v V).
Qed.

Lemma has_char_none (p : ascii -> bool) (c : ascii) (s : string) :
  p c = false -> all_chars p s = true -> has_char c s = false.
Proof.
  intros C. induction s as [|x s IH]; intros A; [reflexivity|].
  cbn [all_chars] in A. apply andb_true_iff in A as [X A].
  cbn [has_char]. rewrite (IH A), orb_false_r.
  destruct (Ascii.eqb_spec c x) as [->|]; [congruence | reflexivity].
Qed.

Lemma one_line_append (a b : string) :
  one_line (a ++ b) = one_line a && one_line b.
Proof.
  unfold one_line. rewrite !has_char_append.
  destruct (has_char nl a), (has_char nl b), (has_char cr a), (has_char cr b);
    reflexivity.
Qed.

Lemma one_line_key (k : string) :
  all_chars Re.key_char k = true -> one_line k = true.
Proof.
  intros K. unfold one_line.
  now rewrite (has_char_none Re.key_char nl k eq_refl K),
              (has_char_none Re.key_char cr k eq_refl K).
Qed.

Lemma one_line_separator (sep : string) :
  separator sep = true -> one_line sep = true.
Proof.
  unfold separator. intros S. apply orb_true_iff in S as [S|S].
  - apply String.eqb_eq in S. now subst sep.
  - now apply andb_true_iff in S as [_ S].
Qed.

(** Lines without line feeds inside, each ended by one, are read as
    they were written. *)
Lemma readlines_lines (bodies : list string) :
  forallb one_line bodies = true ->
  TextIO.readlines (String.concat EmptyString (map (fun b => b ++ NL) bodies))
  = map (fun b => b ++ NL) bodies.
Proof.
  intros B. unfold TextIO.readlines.
  assert (C : has_char cr (String.concat EmptyString (map (fun b => b ++ NL) bodies))
              = false).
  { induction bodies as [|b bs IH]; [reflexivity|].
    cbn [forallb] in B. apply andb_true_iff in B as [B1 B2].
    cbn [map]. rewrite concat_cons, !has_char_append, (IH B2).
    unfold one_line in B1. apply andb_true_iff in B1 as [_ B1].
    apply negb_true_iff in B1. now rewrite B1. }
  rewrite (universal_newlines_keep _ C). clear C.
  induction bodies as [|b bs IH]; [reflexivity|].
  cbn [forallb] in B. apply andb_true_iff in B as [B1 B2].
  cbn [map]. rewrite concat_cons, append_assoc.
  unfold one_line in B1. apply andb_true_iff in B1 as [B1 _].
  apply negb_true_iff in B1.
  rewrite (keepends_line b _ B1). now rewrite (IH B2).
Qed.

Lemma settings_text_lines (sep : string) (es : list (string * string)) :
  separator sep = true ->
  forallb (fun kv => plain_key (fst kv) && plain_value (snd kv)) es = true ->
  TextIO.readlines (settings_text sep es) = map (setting_line sep) es.
Proof.
  intros S P. unfold settings_text.
  assert (E : map (setting_line sep) es
              = map (fun b => b ++ NL) (map (fun kv => fst kv ++ sep ++ snd kv) es)).
  { rewrite map_map. apply map_ext. intros [k v]. unfold setting_line.
    cbn [fst snd]. now rewrite !append_assoc. }
  rewrite E. apply readlines_lines.
  rewrite forallb_forall in *. intros b I.
  apply in_map_iff in I as ([k v] & <- & I). specialize (P _ I).
  cbn [fst snd] in *. apply andb_true_iff in P as [K V].
  destruct (plain_key_parts k K) as (_ & _ & _ & _ & KC & _).
  unfold plain_value in V. apply andb_true_iff in V as [_ V].
  now rewrite !one_line_append, (one_line_key k KC), (one_line_separator sep S), V.
Qed.

Lemma entries_setting_lines (sep : string) (es : list (string * string)) :
  separator sep = true ->
  forallb (fun kv => plain_key (fst kv) && plain_value (snd kv)) es = true ->
  entries (map (setting_line sep) es) = es.
Proof.
  intros S. unfold entries. induction es as [|[k v] es IH]; intros P; [reflexivity|].
  cbn [forallb fst snd] in P. apply andb_true_iff in P as [P1 P2].
  apply andb_true_iff in P1 as [K V].
  unfold plain_value in V. apply andb_true_iff in V as [V _].
  cbn [map flat_map]. rewrite (key_value_setting_line sep k v S K V).
  cbn [app]. now rewrite (IH P2).
Qed.

(** ** What a settings file leaves in [raw_configs] *)

Lemma defaults_lines_record_all (lines : list string) :
  forall c c', defaults_lines lines c = Ok c' ->
               raw_configs c' = record_all (entries lines) (raw_configs c).
Proof.
  induction lines as [|line rest IH]; intros c c' H; cbn [defaults_lines] in H.
  - now injection H as <-.
  - unfold defaults_line in H. unfold entries. cbn [flat_map].
    destruct (key_value line) as [[k v]|].
    + destruct (promote_default k v (set_raw k v c)) as [c1|e] eqn:P;
        cbn [bind] in H; [|discriminate].
      apply promote_default_fields in P as (P0 & _).
      apply IH in H. rewrite H, P0. reflexivity.
    + cbn [bind] in H. now apply IH.
Qed.

Lemma set_fresh (k v : string) (d : Dict.t) :
  ~ In k (map fst d) -> Dict.set k v d = (d ++ [(k, v)])%list.
Proof.
  induction d as [|[k' v'] d IH]; intros N; [reflexivity|].
  cbn [Dict.set app]. cbn [map fst In] in N.
  destruct (String.eqb_spec k k') as [->|_]; [elim N; now left|].
  rewrite IH; [reflexivity|]. intros I. apply N. now right.
Qed.

Lemma record_all_fresh (es : list (string * string)) :
  forall d, NoDup (map fst d ++ map fst es) ->
            record_all es d = (d ++ es)%list.
Proof.
  unfold record_all. induction es as [|[k v] es IH]; intros d N.
  - now rewrite app_nil_r.
  - cbn [fold_left fst snd]. cbn [map fst] in N.
    rewrite set_fresh.
    + rewrite IH; [now rewrite <- app_assoc|].
      rewrite map_app. cbn [map fst]. now rewrite <- app_assoc.
    + apply NoDup_remove_2 in N. intros I. apply N. apply in_or_app. now left.
Qed.

(** ** Single lines *)

Lemma readlines_one_line (body : string) :
  one_line body = true -> TextIO.readlines (body ++ NL) = [(body ++ NL)%string].
Proof.
  intros B.
  change (body ++ NL) with
    (String.concat EmptyString (map (fun b => b ++ NL) [body])) at 1.
  rewrite readlines_lines; [reflexivity|]. cbn [forallb]. now rewrite B.
Qed.

(** ** Lines that carry no setting *)

Lemma rstrip_by_blank_end (p : ascii -> bool) (s : string) (n : ascii) :
  p n = true -> rstrip_by p (s ++ String n EmptyString) = rstrip_by p s.
Proof.
  intros N. induction s as [|c s IH].
  - cbn [append rstrip_by]. now rewrite N.
  - cbn [append rstrip_by]. now rewrite IH.
Qed.

Lemma strip_line_feed (s : string) : strip (s ++ NL) = strip s.
Proof.
  unfold strip, lstrip, rstrip. induction s as [|c s IH]; [reflexivity|].
  cbn [append lstrip_by]. destruct (isspace c) eqn:C; [exact IH|].
  change (String c (s ++ NL)) with (String c s ++ NL).
  now apply rstrip_by_blank_end.
Qed.

Lemma noise_line_feed (body : string) : noise (body ++ NL) = noise body.
Proof. unfold noise. now rewrite strip_line_feed. Qed.

Lemma defaults_lines_app (l1 l2 : list string) :
  forall c, defaults_lines (l1 ++ l2) c
            = (c1 <- defaults_lines l1 c ;; defaults_lines l2 c1).
Proof.
  induction l1 as [|l l1 IH]; intros c; [reflexivity|].
  cbn [app defaults_lines]. destruct (defaults_line c l); cbn [bind]; [apply IH | reflexivity].
Qed.

Lemma distinct_NoDup (ks : list string) : distinct ks = true -> NoDup ks.
Proof.
  induction ks as [|k ks IH]; intros D; constructor;
    cbn [distinct] in D; apply andb_true_iff in D as [D1 D2].
  - intros I. apply negb_true_iff in D1.
    assert (E : existsb (String.eqb k) ks = true).
    { apply existsb_exists. exists k. split; [exact I | apply String.eqb_refl]. }
    congruence.
  - now apply IH.
Qed.

(** ** Properties of the key/value dialect *)

(** X1. Writing settings one per line, as name, separator and value, and
    parsing the text gives the settings back: [raw_configs] holds the
    pairs in the order written, whatever separator (the equals sign or a
    run of blanks) the file uses. *)
Theorem written_settings_are_read_back (sep path : string)
  (es : list (string * string)) :
  separator sep = true ->
  writable es = true ->
  distinct (map fst es) = true ->
  integers_readable es = true ->
  exists cfg,
    parse_spark_defaults (single_file path (settings_text sep es)) path = Ok cfg /\
    raw_configs cfg = es /\
    source_file cfg = path /\
    forall k v, In (k, v) es -> Dict.get k (raw_configs cfg) = Some v.
Proof.
  intros S W D I. unfold parse_spark_defaults, single_file.
  rewrite String.eqb_refl, (settings_text_lines sep es S W).
  destruct (defaults_lines_returns (map (setting_line sep) es)) with (c := new_config path)
    as [cfg H].
  { rewrite (entries_setting_lines sep es S W). intros k v IN IS.
    unfold integers_readable in I. rewrite forallb_forall in I.
    specialize (I _ IN). cbn [fst snd] in I. rewrite IS in I. cbn [negb orb] in I.
    destruct (int v); [discriminate | discriminate I]. }
  exists cfg. split; [exact H|].
  pose proof (defaults_lines_record_all _ _ _ H) as R.
  pose proof (defaults_lines_settled _ _ _ H) as (G & SF & _).
  rewrite (entries_setting_lines sep es S W) in R, G.
  cbn [new_config raw_configs] in R.
  assert (E : raw_configs cfg = es).
  { rewrite R. change Dict.empty with (@nil (string * string)).
    rewrite record_all_fresh; [reflexivity|]. cbn [map app]. now apply distinct_NoDup. }
  split; [exact E|]. split; [exact SF|].
  intros k v IN. rewrite G. unfold overwritten.
  apply in_split in IN as (before & after & ->).
  rewrite last_value_app; [reflexivity|].
  intros v' IN'. apply distinct_NoDup in D. rewrite map_app in D. cbn [map fst] in D.
  apply NoDup_remove_2 in D. apply D. apply in_or_app. right.
  apply in_map_iff. now exists (k, v').
Qed.

Lemma written_settings_are_read_back_witness :
  exists cfg,
    parse_spark_defaults
      (single_file "spark-defaults.conf"
         (settings_text "  "
            [("spark.executor.cores", "4"); ("spark.app.name", "nightly etl")]))
      "spark-defaults.conf" = Ok cfg /\
    raw_configs cfg
    = [("spark.executor.cores", "4"); ("spark.app.name", "nightly etl")] /\
    source_file cfg = "spark-defaults.conf" /\
    forall k v,
      In (k, v) [("spark.executor.cores", "4"); ("spark.app.name", "nightly etl")] ->
      Dict.get k (raw_configs cfg) = Some v.
Proof.
  apply (written_settings_are_read_back "  " "spark-defaults.conf"
           [("spark.executor.cores", "4"); ("spark.app.name", "nightly etl")]);
    reflexivity.
Defined.

(** X2. A line that is blank, a comment, or a single word without blank
    or equals sign carries no setting: put between whole lines of a
    settings file it changes neither the record nor the error. *)
Theorem line_without_setting_is_skipped (path before body after : string) :
  whole_lines before = true ->
  one_line body = true ->
  noise body = true ->
  parse_spark_defaults (single_file path (before ++ body ++ NL ++ after)) path
  = parse_spark_defaults (single_file path (before ++ after)) path.
Proof.
  intros W B N. unfold parse_spark_defaults, single_file.
  rewrite String.eqb_refl.
  rewrite (readlines_append before _ W), (readlines_append before after W).
  rewrite <- append_assoc.
  rewrite (readlines_append (body ++ NL) after (whole_lines_line body)).
  rewrite (readlines_one_line body B).
  rewrite !defaults_lines_app.
  destruct (defaults_lines (TextIO.readlines before) (new_config path)) as [c|e];
    cbn [bind]; [|reflexivity].
  cbn [app defaults_lines]. unfold defaults_line.
  assert (K : key_value (body ++ NL) = None).
  { apply key_value_none_iff. now rewrite noise_line_feed. }
  rewrite K. reflexivity.
Qed.

Lemma line_without_setting_is_skipped_witness :
  parse_spark_defaults
    (single_file "spark-defaults.conf"
       (("spark.executor.cores 4" ++ NL) ++ "  # spark.executor.cores 8" ++ NL ++
        ("spark.app.name=etl" ++ NL)))
    "spark-defaults.conf"
  = parse_spark_defaults
      (single_file "spark-defaults.conf"
         (("spark.executor.cores 4" ++ NL) ++ ("spark.app.name=etl" ++ NL)))
      "spark-defaults.conf".
Proof.
  apply (line_without_setting_is_skipped "spark-defaults.conf"
           ("spark.executor.cores 4" ++ NL) "  # spark.executor.cores 8"
           ("spark.app.name=etl" ++ NL)); reflexivity.
Defined.


Lemma rstrip_by_first (p : ascii -> bool) (c : ascii) (s : string) :
  p c = false -> exists r, rstrip_by p (String c s) = String c r.
Proof.
  intros C. cbn [rstrip_by]. destruct (rstrip_by p s) as [|d r].
  - rewrite C. now exists EmptyString.
  - now exists (String d r).
Qed.

Lemma int_after_equals (v : string) : int (String "=" v) = None.
Proof.
  unfold int. cbn [lstrip_by]. change (int_blank "=") with false. cbv iota.
  destruct (rstrip_by_first int_blank "="%char v eq_refl) as [r ->].
  reflexivity.
Qed.

Lemma trimmed_after (a : ascii) (b v : string) :
  isspace a = false -> trimmed v = true -> trimmed (String a (b ++ v)) = true.
Proof.
  intros A V. destruct (trimmed_parts v V) as (c & rest & l & E & _ & L & LS).
  unfold trimmed. rewrite A. cbn [negb andb].
  change (String a (b ++ v)) with (String a b ++ v).
  rewrite last_char_append by (rewrite E; discriminate).
  now rewrite L, LS.
Qed.

(** X3. Blanks around the equals sign are not supported: the line is
    split at the first blank, so the value keeps the equals sign, and a
    file that writes an integer setting that way cannot be parsed. *)
Theorem spaced_equals_sign_stays_in_value (path before k v after : string) :
  plain_key k = true ->
  trimmed v = true ->
  whole_lines before = true ->
  one_line v = true ->
  key_value (k ++ " = " ++ v ++ NL) = Some (k, "= " ++ v) /\
  (integer_setting k = true ->
   parse_spark_defaults
     (single_file path (before ++ (k ++ " = " ++ v) ++ NL ++ after)) path
   = Raise ValueError).
Proof.
  intros K V W O.
  assert (T : trimmed ("= " ++ v) = true) by now apply (trimmed_after "="%char " " v).
  assert (E : key_value (k ++ " = " ++ v ++ NL) = Some (k, "= " ++ v)).
  { pose proof (key_value_setting_line " " k ("= " ++ v) eq_refl K T) as H.
    unfold setting_line in H. cbn [fst snd] in H.
    now rewrite !append_assoc in H. }
  split; [exact E|]. intros I.
  unfold parse_spark_defaults, single_file. rewrite String.eqb_refl.
  assert (OL : one_line (k ++ " = " ++ v) = true).
  { destruct (plain_key_parts k K) as (_ & _ & _ & _ & KC & _).
    now rewrite !one_line_append, (one_line_key k KC), O. }
  rewrite (readlines_append before _ W), <- append_assoc.
  rewrite (readlines_append _ after (whole_lines_line _)).
  rewrite (readlines_one_line _ OL).
  apply (defaults_lines_raises _ ((k ++ " = " ++ v) ++ NL) k ("= " ++ v)).
  - apply in_or_app. right. apply in_or_app. left. now left.
  - now rewrite !append_assoc.
  - exact I.
  - apply int_after_equals.
Qed.

Lemma spaced_equals_sign_stays_in_value_witness :
  key_value ("spark.executor.cores" ++ " = " ++ "4" ++ NL)
  = Some ("spark.executor.cores", "= " ++ "4") /\
  (integer_setting "spark.executor.cores" = true ->
   parse_spark_defaults
     (single_file "spark-defaults.conf"
        (EmptyString ++ ("spark.executor.cores" ++ " = " ++ "4") ++ NL ++ EmptyString))
     "spark-defaults.conf"
   = Raise ValueError).
Proof.
  apply (spaced_equals_sign_stays_in_value "spark-defaults.conf" EmptyString
           "spark.executor.cores" "4" EmptyString); reflexivity.
Defined.

(** * The deploy-script dialect *)

Import Script.

(** ** Searching *)

Lemma search_split {A : Type} (m : Re.matcher A) (s : string) (r : A * string) :
  Re.search m s = Some r ->
  exists pre s', s = pre ++ s' /\ m s' = Some r /\ no_match_in m pre s'.
Proof.
  induction s as [|c s IH]; cbn [Re.search]; intros H.
  - destruct (m EmptyString) eqn:M; [|discriminate].
    exists EmptyString, EmptyString. injection H as <-. now repeat split.
  - destruct (m (String c s)) eqn:M.
    + exists EmptyString, (String c s). injection H as <-. now repeat split.
    + destruct (IH H) as (pre & s' & -> & M' & N).
      exists (String c pre), s'. repeat split; try assumption.
Qed.

Lemma skip_lit_prefix (lit s r : string) :
  Re.skip_lit lit s = Some r -> String.prefix lit s = true.
Proof.
  revert s. induction lit as [|a lit IH]; intros s H; [now destruct s|].
  destruct s as [|b s]; [discriminate|]. cbn [Re.skip_lit] in H. cbn [String.prefix].
  destruct (Ascii.eqb_spec a b) as [->|]; [|discriminate].
  destruct (ascii_dec b b) as [_|N]; [now apply IH | now elim N].
Qed.

Lemma skip_lit_append (lit s : string) : Re.skip_lit lit (lit ++ s) = Some s.
Proof.
  induction lit as [|a lit IH]; [now destruct s|].
  cbn [append Re.skip_lit]. now rewrite Ascii.eqb_refl.
Qed.

Lemma contains_append (lit pre s : string) :
  String.prefix lit s = true -> contains lit (pre ++ s) = true.
Proof.
  intros P. induction pre as [|c pre IH].
  - destruct s; cbn [append contains]; now rewrite P.
  - cbn [append contains]. rewrite IH. apply orb_true_r.
Qed.

Lemma flag_value_prefix (flag : string) (tok : ascii -> bool) (s : string)
  (r : string * string) :
  Re.flag_value flag tok s = Some r -> String.prefix flag s = true.
Proof.
  unfold Re.flag_value. destruct (Re.skip_lit flag s) eqn:K; [|discriminate].
  intros _. now apply skip_lit_prefix in K.
Qed.

Lemma flag_found_absent (flag : string) (tok : ascii -> bool) (buffer : string) :
  contains flag buffer = false -> flag_found flag tok buffer = None.
Proof.
  intros C. unfold flag_found.
  destruct (Re.search (Re.flag_value flag tok) buffer) as [r|] eqn:S; [|reflexivity].
  apply search_split in S as (pre & s' & -> & M & _).
  apply flag_value_prefix in M. rewrite (contains_append flag pre s' M) in C.
  discriminate.
Qed.

Lemma starts_in_no_match (flag : string) (tok : ascii -> bool) (pre s : string) :
  starts_in flag pre s = false -> no_match_in (Re.flag_value flag tok) pre s.
Proof.
  induction pre as [|c pre IH]; intros H; [exact I|].
  cbn [starts_in] in H. apply orb_false_iff in H as [P H].
  cbn [no_match_in]. split; [|now apply IH].
  destruct (Re.flag_value flag tok (String c (pre ++ s))) eqn:M; [|reflexivity].
  apply flag_value_prefix in M. cbn [append] in P. congruence.
Qed.

Lemma token_first (p : ascii -> bool) (s rest : string) :
  negb (is_empty s) = true -> all_chars (fun c => negb (p c)) s = true ->
  match (s ++ rest) with String c _ => p c = false | EmptyString => True end.
Proof.
  destruct s as [|c s]; [discriminate|]. intros _ A.
  cbn [all_chars] in A. apply andb_true_iff in A as [A _].
  now apply negb_true_iff in A.
Qed.

Lemma flag_value_here (flag sp value rest : string) :
  blanks sp = true -> token value = true -> ends_token rest = true ->
  Re.flag_value flag Re.nonspace (flag ++ sp ++ value ++ rest) = Some (value, rest).
Proof.
  unfold blanks, token, ends_token. intros B T R.
  apply andb_true_iff in B as [B1 B2]. apply andb_true_iff in T as [T1 T2].
  pose proof (token_first isspace value rest T1 T2) as F.
  apply negb_true_iff in B1. apply negb_true_iff in T1.
  unfold Re.flag_value. rewrite skip_lit_append. unfold Re.plus.
  rewrite (span_append isspace sp (value ++ rest) B2).
  - rewrite B1.
    rewrite (span_append Re.nonspace value rest T2).
    + now rewrite T1.
    + destruct rest as [|c rest]; [exact I|]. unfold Re.nonspace. now rewrite R.
  - exact F.
Qed.

(** ** Lines and the buffer *)

Lemma join_from_closed (rest : list string) :
  forall first,
    forallb closed_line (removelast (first :: rest)) = true ->
    join_from (rstrip_nl first) rest = map rstrip_nl (first :: rest).
Proof.
  induction rest as [|next rest IH]; intros first C; [reflexivity|].
  change (removelast (first :: next :: rest))
    with (first :: removelast (next :: rest)) in C.
  cbn [forallb] in C. apply andb_true_iff in C as [C1 C2].
  unfold closed_line in C1. apply negb_true_iff in C1.
  cbn [join_from]. rewrite C1. cbn [map]. f_equal. now apply IH.
Qed.

Lemma join_from_length (rest : list string) :
  forall line, (List.length (join_from line rest) <= S (List.length rest))%nat.
Proof.
  induction rest as [|next rest IH]; intros line; [cbn; lia|].
  cbn [join_from]. destruct (endswith BS line).
  - specialize (IH (strip (drop_last line) ++ " " ++ rstrip_nl (strip next))).
    cbn [List.length]. lia.
  - specialize (IH (rstrip_nl next)). cbn [List.length]. lia.
Qed.

Lemma rstrip_nl_keep (s : string) : has_char nl s = false -> rstrip_nl s = s.
Proof.
  intros H. apply strip_by_keeps. induction s as [|c s IH]; [reflexivity|].
  cbn [has_char] in H. apply orb_false_iff in H as [H1 H2].
  cbn [all_chars]. now rewrite H1, IH.
Qed.

Lemma keepends_one_line (s : string) :
  has_char nl s = false ->
  TextIO.keepends s = match s with EmptyString => [] | _ => [s] end.
Proof.
  induction s as [|c s IH]; [reflexivity|]. intros H.
  cbn [has_char] in H. apply orb_false_iff in H as [H1 H2].
  cbn [TextIO.keepends]. rewrite Ascii.eqb_sym, H1, (IH H2). now destruct s.
Qed.

Lemma one_line_buffer (text : string) :
  one_line text = true -> full_command (TextIO.readlines text) = text.
Proof.
  unfold one_line. intros O. apply andb_true_iff in O as [N C].
  apply negb_true_iff in N. apply negb_true_iff in C.
  unfold full_command, TextIO.readlines.
  rewrite (universal_newlines_keep text C), (keepends_one_line text N).
  destruct text as [|c t]; [reflexivity|].
  cbn [command_lines join_from join String.concat]. now apply rstrip_nl_keep.
Qed.

Lemma with_flags_app_name (buffer : string) (c : SparkConfig) :
  app_name (with_flags buffer c) = app_name c.
Proof.
  unfold with_flags.
  destruct (flag_found "--num-executors" isdigit buffer),
           (flag_found "--executor-cores" isdigit buffer),
           (flag_found "--executor-memory" Re.nonspace buffer),
           (flag_found "--driver-memory" Re.nonspace buffer),
           (flag_found "--deploy-mode" Re.nonspace buffer),
           (flag_found "--master" Re.nonspace buffer); reflexivity.
Qed.

Lemma parse_spark_submit_script_name (fs : filesystem) (path text : string)
  (cfg : SparkConfig) :
  fs path = Some text ->
  parse_spark_submit_script fs path = Ok cfg ->
  app_name cfg = resolved_name (full_command (TextIO.readlines text)).
Proof.
  intros F. unfold parse_spark_submit_script. rewrite F. cbv zeta.
  set (buffer := full_command (TextIO.readlines text)).
  rewrite flags_pass_value. cbn [bind]. unfold conf_pass.
  destruct (conf_steps (Re.finditer Re.conf_flag buffer)
              (with_flags buffer (app_name_pass buffer (new_config path))))
    as [c3|e] eqn:C; cbn [bind]; [|discriminate].
  intros [= <-]. apply conf_steps_flag_part in C as [_ A].
  rewrite with_flags_app_name in A.
  unfold name_pass, app_name_unset.
  unfold resolved_name, assigned_name, flag_found.
  unfold app_name_pass, group1 in A.
  destruct (Re.search Re.app_name_assignment buffer) as [[name r]|];
    cbn [option_map fst app_name set_app_name new_config] in A |- *; rewrite A.
  - destruct (is_empty name) eqn:E; [|exact A].
    unfold group1.
    destruct (Re.search (Re.flag_value "--name" Re.nonspace) buffer) as [[v r']|];
      cbn [option_map fst app_name set_app_name]; [reflexivity | exact A].
  - unfold group1.
    destruct (Re.search (Re.flag_value "--name" Re.nonspace) buffer) as [[v r']|];
      cbn [option_map fst app_name set_app_name]; [reflexivity | exact A].
Qed.

(** ** Properties of the deploy-script dialect *)

(** X4. Among several [--conf] occurrences of one property in a script
    the last one wins, in [raw_configs] and in the three fields that
    [--conf] promotes. *)
Theorem last_conf_occurrence_wins (fs : filesystem) (path : string)
  (cfg : SparkConfig) (before after : list (string * string)) (key value : string) :
  parse_spark_submit_script fs path = Ok cfg ->
  conf_occurrences fs path = (before ++ (key, value) :: after)%list ->
  (forall later, ~ In (key, later) after) ->
  Dict.get key (raw_configs cfg) = Some value /\
  (key = "spark.default.parallelism" -> default_parallelism cfg = int value) /\
  (key = "spark.sql.shuffle.partitions" -> shuffle_partitions cfg = int value) /\
  (key = "spark.dynamicAllocation.enabled" ->
   dynamic_allocation_enabled cfg = String.eqb (lower value) "true").
Proof.
  intros P O L. unfold conf_occurrences in O.
  destruct (fs path) as [text|] eqn:F; [|now destruct before].
  destruct (parse_spark_submit_script_settled fs path text cfg F P)
    as ((G & DP & SP & DA) & _).
  rewrite O in G, DP, SP, DA.
  unfold overwritten in *.
  repeat split.
  - now rewrite G, last_value_app.
  - intros ->. now rewrite DP, last_value_app.
  - intros ->. now rewrite SP, last_value_app.
  - intros ->. now rewrite DA, last_value_app.
Qed.

Lemma last_conf_occurrence_wins_witness :
  Dict.get "spark.sql.shuffle.partitions"
    (raw_configs (set_shuffle_partitions 64
       (set_raw "spark.sql.shuffle.partitions" "64" (new_config "run.sh"))))
  = Some "64" /\
  ("spark.sql.shuffle.partitions" = "spark.default.parallelism" ->
   default_parallelism (set_shuffle_partitions 64
       (set_raw "spark.sql.shuffle.partitions" "64" (new_config "run.sh")))
   = int "64") /\
  ("spark.sql.shuffle.partitions" = "spark.sql.shuffle.partitions" ->
   shuffle_partitions (set_shuffle_partitions 64
       (set_raw "spark.sql.shuffle.partitions" "64" (new_config "run.sh")))
   = int "64") /\
  ("spark.sql.shuffle.partitions" = "spark.dynamicAllocation.enabled" ->
   dynamic_allocation_enabled (set_shuffle_partitions 64
       (set_raw "spark.sql.shuffle.partitions" "64" (new_config "run.sh")))
   = String.eqb (lower "64") "true").
Proof.
  apply (last_conf_occurrence_wins
           (single_file "run.sh"
              "spark-submit --conf spark.sql.shuffle.partitions=500 --conf spark.sql.shuffle.partitions=64 job.py")
           "run.sh" _ [("spark.sql.shuffle.partitions", "500")] []
           "spark.sql.shuffle.partitions" "64").
  - reflexivity.
  - reflexivity.
  - intros later [].
Defined.

(** X5. In a script the positional fields come from their own flags
    only: where the text of a flag does not occur, the field stays
    unset, whatever the [--conf] occurrences say; and a driver memory
    given through [--conf] alone is never reported as excessive. *)
Theorem positional_fields_need_their_flag (fs : filesystem) (path : string)
  (cfg : SparkConfig) :
  parse_spark_submit_script fs path = Ok cfg ->
  (contains "--master" (buffer_of fs path) = false -> master cfg = None) /\
  (contains "--deploy-mode" (buffer_of fs path) = false -> deploy_mode cfg = None) /\
  (contains "--driver-memory" (buffer_of fs path) = false ->
   driver_memory cfg = None /\
   forall m r, In r (_rule_based_analysis cfg m) ->
               title r <> "Excessive Driver Memory") /\
  (contains "--executor-memory" (buffer_of fs path) = false ->
   executor_memory cfg = None) /\
  (contains "--executor-cores" (buffer_of fs path) = false ->
   executor_cores cfg = None) /\
  (contains "--num-executors" (buffer_of fs path) = false ->
   num_executors cfg = None).
Proof.
  intros P.
  assert (R : forall c : SparkConfig, driver_memory c = None ->
              forall m r, In r (_rule_based_analysis c m) ->
                          title r <> "Excessive Driver Memory").
  { intros c DM m r IN T. unfold _rule_based_analysis in IN.
    unfold check_driver_memory in IN. rewrite DM in IN. cbn [app] in IN.
    destruct (check_shuffle_partitions_cases c m) as [E|[n E]];
    destruct (check_dynamic_allocation_cases c) as [E1|E1];
    destruct (check_memory_spilling_cases c m) as [E2|[s E2]];
    rewrite E, E1, E2 in IN; cbn [app In] in IN;
    repeat (destruct IN as [<-|IN]; [discriminate T|]); exact IN. }
  assert (H : forall flag tok, contains flag (buffer_of fs path) = false ->
                               flag_found flag tok (buffer_of fs path) = None)
    by (intros; now apply flag_found_absent).
  assert (Q : master cfg = flag_found "--master" Re.nonspace (buffer_of fs path) /\
    deploy_mode cfg = flag_found "--deploy-mode" Re.nonspace (buffer_of fs path) /\
    driver_memory cfg = flag_found "--driver-memory" Re.nonspace (buffer_of fs path) /\
    executor_memory cfg = flag_found "--executor-memory" Re.nonspace (buffer_of fs path) /\
    executor_cores cfg =
      option_map digits_value (flag_found "--executor-cores" isdigit (buffer_of fs path)) /\
    num_executors cfg =
      option_map digits_value (flag_found "--num-executors" isdigit (buffer_of fs path))).
  { unfold buffer_of. destruct (fs path) as [text|] eqn:F.
    - exact (parse_spark_submit_script_flags fs path text cfg F P).
    - unfold parse_spark_submit_script in P. rewrite F in P. injection P as <-.
      now repeat split. }
  destruct Q as (M & D & DM & EM & EC & NE).
  refine (conj _ (conj _ (conj _ (conj _ (conj _ _))))); intros C.
  - now rewrite M, H.
  - now rewrite D, H.
  - assert (N : driver_memory cfg = None) by now rewrite DM, H.
    split; [exact N | now apply R].
  - now rewrite EM, H.
  - now rewrite EC, H.
  - now rewrite NE, H.
Qed.

Lemma positional_fields_need_their_flag_witness :
  exists cfg,
    parse_spark_submit_script
      (single_file "run.sh" "spark-submit --conf spark.driver.memory=64g job.py")
      "run.sh" = Ok cfg /\
    Dict.get "spark.driver.memory" (raw_configs cfg) = Some "64g" /\
    driver_memory cfg = None /\
    forall m r, In r (_rule_based_analysis cfg m) ->
                title r <> "Excessive Driver Memory".
Proof.
  eexists. split; [reflexivity|]. split; [reflexivity|].
  apply (positional_fields_need_their_flag
           (single_file "run.sh" "spark-submit --conf spark.driver.memory=64g job.py")
           "run.sh" _ eq_refl).
  reflexivity.
Defined.

(** X6. A positional flag given twice: the first occurrence wins (the
    opposite of [--conf]).  On a script of one line, the field holds
    the token after the first place where the text of the flag
    begins. *)
Theorem first_flag_occurrence_wins (path flag pre sp value rest : string)
  (cfg : SparkConfig) :
  In flag string_flags ->
  one_line (pre ++ flag ++ sp ++ value ++ rest) = true ->
  starts_in flag pre (flag ++ sp ++ value ++ rest) = false ->
  blanks sp = true -> token value = true -> ends_token rest = true ->
  parse_spark_submit_script
    (single_file path (pre ++ flag ++ sp ++ value ++ rest)) path = Ok cfg ->
  string_field flag cfg = Some value.
Proof.
  intros FL O S B T R P.
  assert (F : single_file path (pre ++ flag ++ sp ++ value ++ rest) path
              = Some (pre ++ flag ++ sp ++ value ++ rest)).
  { unfold single_file. now rewrite String.eqb_refl. }
  destruct (parse_spark_submit_script_flags _ path _ cfg F P)
    as (M & D & DM & EM & _).
  rewrite (one_line_buffer _ O) in M, D, DM, EM.
  assert (G : forall f, f = flag ->
              flag_found f Re.nonspace (pre ++ flag ++ sp ++ value ++ rest)
              = Some value).
  { intros f ->. unfold flag_found.
    rewrite (search_after _ pre _ (starts_in_no_match flag Re.nonspace pre _ S)).
    now rewrite (search_here _ _ _ (flag_value_here flag sp value rest B T R)). }
  cbn [string_flags In] in FL.
  destruct FL as [<-|[<-|[<-|[<-|[]]]]]; cbn [string_field String.eqb Ascii.eqb Bool.eqb].
  - rewrite M. now apply G.
  - rewrite D. now apply G.
  - rewrite DM. now apply G.
  - rewrite EM. now apply G.
Qed.

Lemma first_flag_occurrence_wins_witness :
  exists cfg,
    parse_spark_submit_script
      (single_file "run.sh"
         ("spark-submit " ++ "--driver-memory" ++ " " ++ "4g" ++
          " --driver-memory 64g job.py")) "run.sh" = Ok cfg /\
    string_field "--driver-memory" cfg = Some "4g".
Proof.
  eexists. split; [reflexivity|].
  apply (first_flag_occurrence_wins "run.sh" "--driver-memory" "spark-submit " " "
           "4g" " --driver-memory 64g job.py");
    try reflexivity.
  right. right. now left.
Defined.

(** X7. The application name of a script: an [APP_NAME=] assignment
    with a name that is not empty wins; otherwise the [--name] flag is
    used; a [--conf spark.app.name=...] never names the application. *)
Theorem script_name_resolution (fs : filesystem) (path : string) (cfg : SparkConfig) :
  parse_spark_submit_script fs path = Ok cfg ->
  app_name cfg = resolved_name (buffer_of fs path).
Proof.
  intros P. unfold buffer_of. destruct (fs path) as [text|] eqn:F.
  - now apply (parse_spark_submit_script_name fs path text cfg F).
  - unfold parse_spark_submit_script in P. rewrite F in P. now injection P as <-.
Qed.

Lemma script_name_resolution_witness :
  exists cfg,
    parse_spark_submit_script
      (single_file "run.sh"
         ("APP_NAME='nightly'" ++ NL ++
          "spark-submit --name other --conf spark.app.name=third job.py" ++ NL))
      "run.sh" = Ok cfg /\
    app_name cfg = Some "nightly" /\
    resolved_name
      (buffer_of
         (single_file "run.sh"
            ("APP_NAME='nightly'" ++ NL ++
             "spark-submit --name other --conf spark.app.name=third job.py" ++ NL))
         "run.sh") = Some "nightly".
Proof.
  eexists. split; [reflexivity|]. split; [reflexivity|].
  rewrite <- (script_name_resolution
                (single_file "run.sh"
                   ("APP_NAME='nightly'" ++ NL ++
                    "spark-submit --name other --conf spark.app.name=third job.py" ++ NL))
                "run.sh" _ eq_refl).
  reflexivity.
Defined.

(** X8. Joining continued lines never makes more lines than the file
    has; and in a script where no line but the last ends in a
    backslash, every physical line is a logical line of its own, less
    its line feed. *)
Theorem lines_without_continuation (lines : list string) :
  (List.length (command_lines lines) <= List.length lines)%nat /\
  (forallb closed_line (removelast lines) = true ->
   command_lines lines = map rstrip_nl lines).
Proof.
  destruct lines as [|first rest]; [now split|]. split.
  - cbn [command_lines List.length]. apply join_from_length.
  - intros C. cbn [command_lines]. now apply join_from_closed.
Qed.

Lemma lines_without_continuation_witness :
  command_lines [("export A=1" ++ NL)%string; ("spark-submit job.py " ++ BS)%string]
  = map rstrip_nl
      [("export A=1" ++ NL)%string; ("spark-submit job.py " ++ BS)%string].
Proof.
  apply (lines_without_continuation
           [("export A=1" ++ NL)%string; ("spark-submit job.py " ++ BS)%string]).
  reflexivity.
Defined.

(** * Memory sizes *)

Import Memory.

Lemma isdigit_lower_char (c : ascii) : isdigit (lower_char c) = isdigit c.
Proof. destruct c as [[] [] [] [] [] [] [] []]; reflexivity. Qed.

Lemma lower_upper_char (c : ascii) : lower_char (upper_char c) = lower_char c.
Proof. destruct c as [[] [] [] [] [] [] [] []]; reflexivity. Qed.

Lemma lower_upper (s : string) : lower (upper s) = lower s.
Proof.
  unfold lower, upper. induction s as [|c s IH]; [reflexivity|].
  cbn [map_chars]. now rewrite lower_upper_char, IH.
Qed.

Lemma lower_lower_char (c : ascii) : lower_char (lower_char c) = lower_char c.
Proof. destruct c as [[] [] [] [] [] [] [] []]; reflexivity. Qed.

Lemma lower_lower (s : string) : lower (lower s) = lower s.
Proof.
  unfold lower. induction s as [|c s IH]; [reflexivity|].
  cbn [map_chars]. now rewrite lower_lower_char, IH.
Qed.

Lemma starts_with_digit_lower (s : string) :
  starts_with_digit (lower s) = starts_with_digit s.
Proof. destruct s as [|c s]; [reflexivity|]. apply isdigit_lower_char. Qed.

Lemma plus_digits_none (s : string) :
  Re.plus isdigit s = None <-> starts_with_digit s = false.
Proof.
  unfold Re.plus. destruct s as [|c s]; cbn [span starts_with_digit].
  - now split.
  - destruct (isdigit c).
    + destruct (span isdigit s). cbn [is_empty]. split; discriminate.
    + cbn [is_empty]. now split.
Qed.

Lemma digits_unit_parts (s d u : string) :
  Re.digits_unit s = Some (d, u) ->
  numeral d = true /\ In u [EmptyString; "k"; "m"; "g"; "t"].
Proof.
  unfold Re.digits_unit. destruct (Re.plus isdigit s) as [[run rest]|] eqn:P;
    [|discriminate].
  apply plus_numeral in P. destruct rest as [|c rest].
  - intros [= <- <-]. split; [exact P | now left].
  - destruct (Re.unit_char c) eqn:U; intros [= <- <-]; (split; [exact P|]).
    + unfold Re.unit_char in U.
      repeat (apply orb_true_iff in U as [U|U]);
        apply Ascii.eqb_eq in U; subst c; cbn [In]; tauto.
    + now left.
Qed.

Lemma multiplier_positive (u : string) : (0 < multiplier u)%Z.
Proof.
  unfold multiplier.
  repeat match goal with |- context [String.eqb ?a ?b] => destruct (String.eqb a b) end;
    lia.
Qed.

Lemma digits_value_nonneg (d : string) :
  all_chars isdigit d = true -> (0 <= digits_value d)%Z.
Proof. intros A. apply digits_value_from_nonneg; [exact A | lia]. Qed.

Lemma digits_unit_append (d rest : string) :
  numeral d = true -> starts_with_digit rest = false ->
  Re.digits_unit (d ++ rest)
  = Some (d, match rest with
             | String u _ => if Re.unit_char u then String u EmptyString
                             else EmptyString
             | EmptyString => EmptyString
             end).
Proof.
  unfold numeral. intros N R. apply andb_true_iff in N as [N1 N2].
  apply negb_true_iff in N1.
  unfold Re.digits_unit, Re.plus. rewrite (span_append isdigit d rest N2).
  - rewrite N1. destruct rest as [|u rest]; [reflexivity|].
    now destruct (Re.unit_char u).
  - destruct rest; [exact I | exact R].
Qed.

Lemma parse_memory_mb_append (d rest : string) :
  numeral d = true -> starts_with_digit rest = false ->
  _parse_memory_mb (d ++ rest)
  = Some (digits_value d *
          multiplier (match lower rest with
                      | String u _ => if Re.unit_char u then String u EmptyString
                                      else EmptyString
                      | EmptyString => EmptyString
                      end))%Z.
Proof.
  intros N R. unfold _parse_memory_mb.
  assert (A : all_chars isdigit d = true).
  { unfold numeral in N. now apply andb_true_iff in N as [_ N]. }
  rewrite lower_append, (lower_digits d A).
  rewrite (digits_unit_append d (lower rest) N)
    by now rewrite starts_with_digit_lower.
  now rewrite (int_numeral d N).
Qed.

(** ** Properties of the two memory utilities *)

(** X9. The memory reader of the rule engine gives no size exactly for
    the strings that do not start with a digit (the empty one, a
    leading blank or sign included); a size it gives is never negative;
    and upper and lower case are read alike. *)
Theorem parse_memory_mb_domain (s : string) :
  (_parse_memory_mb s = None <-> starts_with_digit s = false) /\
  (forall mb, _parse_memory_mb s = Some mb -> (0 <= mb)%Z) /\
  _parse_memory_mb (upper s) = _parse_memory_mb s /\
  _parse_memory_mb (lower s) = _parse_memory_mb s.
Proof.
  assert (D : forall t, Re.digits_unit t = None <-> starts_with_digit t = false).
  { intros t. rewrite <- plus_digits_none. unfold Re.digits_unit.
    destruct (Re.plus isdigit t) as [[run [|c rest]]|]; try (split; discriminate).
    - destruct (Re.unit_char c); split; discriminate.
    - now split. }
  repeat split.
  - unfold _parse_memory_mb. intros H. rewrite <- starts_with_digit_lower. apply D.
    destruct (Re.digits_unit (lower s)) as [[d u]|] eqn:E; [|reflexivity].
    apply digits_unit_parts in E as [N _]. now rewrite (int_numeral d N) in H.
  - intros H. unfold _parse_memory_mb. rewrite <- starts_with_digit_lower in H.
    apply D in H. now rewrite H.
  - unfold _parse_memory_mb. intros mb.
    destruct (Re.digits_unit (lower s)) as [[d u]|] eqn:E; [|discriminate].
    apply digits_unit_parts in E as [N _]. rewrite (int_numeral d N).
    intros [= <-]. unfold numeral in N. apply andb_true_iff in N as [_ N].
    pose proof (digits_value_nonneg d N). pose proof (multiplier_positive u). nia.
  - unfold _parse_memory_mb. now rewrite lower_upper.
  - unfold _parse_memory_mb. now rewrite lower_lower.
Qed.

(** X10. The memory reader of the rule engine looks at the leading
    digits and at the one letter after them: a fraction is dropped
    together with the unit behind it, so [10.5g] counts as 10
    megabytes and such a driver memory is not reported as long as its
    whole part is at most 10240; and whatever follows the unit letter
    is ignored. *)
Theorem parse_memory_mb_reads_a_prefix (d rest : string) :
  numeral d = true ->
  _parse_memory_mb (d ++ "." ++ rest) = Some (digits_value d) /\
  (forall u, In u unit_letters ->
             _parse_memory_mb (d ++ u ++ rest) = _parse_memory_mb (d ++ u)) /\
  (forall c, driver_memory c = Some (d ++ "." ++ rest) ->
             (digits_value d <= 10240)%Z ->
             check_driver_memory c = []).
Proof.
  intros N.
  assert (F : _parse_memory_mb (d ++ "." ++ rest) = Some (digits_value d)).
  { rewrite (parse_memory_mb_append d ("." ++ rest) N eq_refl).
    cbn [append lower map_chars]. change (lower_char ".") with "."%char.
    change (Re.unit_char ".") with false. cbv iota.
    change (multiplier EmptyString) with 1%Z. now rewrite Z.mul_1_r. }
  split; [exact F|]. split.
  - intros u U. cbn [unit_letters In] in U.
    destruct U as [<-|[<-|[<-|[<-|[]]]]];
      match goal with
      | |- _parse_memory_mb (d ++ ?u ++ rest) = _ =>
          rewrite (parse_memory_mb_append d (u ++ rest) N eq_refl),
                  (parse_memory_mb_append d u N eq_refl)
      end; reflexivity.
  - intros c DM LE. unfold check_driver_memory. rewrite DM, F.
    destruct (is_empty (d ++ "." ++ rest)); [reflexivity|].
    cbn [truthy]. destruct (10240 <? digits_value d)%Z eqn:L.
    + apply Z.ltb_lt in L. lia.
    + now rewrite andb_false_r.
Qed.

Lemma parse_memory_mb_reads_a_prefix_witness :
  _parse_memory_mb ("64" ++ "." ++ "5g") = Some (digits_value "64") /\
  digits_value "64" = 64%Z /\
  _parse_memory_mb ("64" ++ "g" ++ "b") = _parse_memory_mb ("64" ++ "g").
Proof.
  split; [|split; [reflexivity|]].
  - exact (proj1 (parse_memory_mb_reads_a_prefix "64" "5g" eq_refl)).
  - apply (proj1 (proj2 (parse_memory_mb_reads_a_prefix "64" "b" eq_refl))).
    right. right. now left.
Defined.

Lemma parse_memory_mb_domain_witness :
  _parse_memory_mb "20g" = Some 20480%Z /\ (0 <= 20480)%Z /\
  _parse_memory_mb " 20g" = None.
Proof.
  split; [reflexivity|]. split.
  - apply (proj1 (proj2 (parse_memory_mb_domain "20g")) 20480%Z). reflexivity.
  - apply (proj1 (parse_memory_mb_domain " 20g")). reflexivity.
Defined.

Lemma lower_blank_char (c : ascii) : isspace c = true -> lower_char c = c.
Proof. destruct c as [[] [] [] [] [] [] [] []]; intros H; try reflexivity; discriminate H. Qed.

Lemma lower_blanks (sp : string) : all_chars isspace sp = true -> lower sp = sp.
Proof.
  unfold lower. induction sp as [|c sp IH]; [reflexivity|]. cbn [all_chars map_chars].
  intros A. apply andb_true_iff in A as [C A]. now rewrite (lower_blank_char c C), IH.
Qed.

Lemma blank_not_digit (c : ascii) : isspace c = true -> isdigit c = false.
Proof.
  intros S. destruct (isdigit c) eqn:D; [|reflexivity].
  apply digit_not_space in D. congruence.
Qed.

(** What the pattern of the parser's utility finds in a whole number, an
    optional run of blanks, a unit letter and anything after it. *)
Lemma number_unit_form (d sp : string) (u : ascii) (z : string) :
  numeral d = true -> all_chars isspace sp = true -> Re.unit_char u = true ->
  Re.number_unit (d ++ sp ++ String u z)
  = Some (d, EmptyString, String u EmptyString).
Proof.
  unfold numeral. intros N S U. apply andb_true_iff in N as [N1 N2].
  apply negb_true_iff in N1.
  assert (UD : isdigit u = false /\ isspace u = false /\ Ascii.eqb u "." = false).
  { unfold Re.unit_char in U.
    repeat (apply orb_true_iff in U as [U|U]);
      apply Ascii.eqb_eq in U; subst u; now repeat split. }
  destruct UD as (U1 & U2 & U3).
  unfold Re.number_unit, Re.plus.
  rewrite (span_append isdigit d (sp ++ String u z) N2).
  - rewrite N1.
    assert (R : (let (fraction, r1) :=
                   match sp ++ String u z with
                   | String dot r' =>
                       if Ascii.eqb dot "."
                       then match (let (run, rest) := span isdigit r' in
                                   if is_empty run then None else Some (run, rest)) with
                            | Some (digits, r'') => (digits, r'')
                            | None => (EmptyString, sp ++ String u z)
                            end
                       else (EmptyString, sp ++ String u z)
                   | EmptyString => (EmptyString, sp ++ String u z)
                   end in (fraction, r1)) = (EmptyString, sp ++ String u z)).
    { destruct sp as [|b sp]; cbn [append].
      - now rewrite U3.
      - cbn [all_chars] in S. apply andb_true_iff in S as [B _].
        assert (E : Ascii.eqb b "." = false).
        { destruct (Ascii.eqb_spec b "."%char) as [->|]; [discriminate B | reflexivity]. }
        now rewrite E. }
    destruct (match sp ++ String u z with
              | String dot r' => _ | EmptyString => _ end) as [fraction r1].
    injection R as -> ->.
    rewrite (span_append isspace sp (String u z) S U2). cbn [snd]. now rewrite U.
  - destruct sp as [|b sp]; cbn [append]; [exact U1|].
    cbn [all_chars] in S. apply andb_true_iff in S as [B _].
    now apply blank_not_digit.
Qed.

Lemma lstrip_digits (d rest : string) :
  numeral d = true -> lstrip (d ++ rest) = d ++ rest.
Proof.
  unfold numeral. destruct d as [|c d]; [discriminate|]. cbn [is_empty negb andb all_chars].
  intros A. apply andb_true_iff in A as [C _]. apply digit_not_space in C.
  unfold lstrip. cbn [append lstrip_by]. now rewrite C.
Qed.

Lemma unit_letter_char (u : string) :
  In u unit_letters ->
  exists c, u = String c EmptyString /\ Re.unit_char c = true /\
            lower_char c = c /\ isspace c = false.
Proof.
  cbn [unit_letters In]. intros [<-|[<-|[<-|[<-|[]]]]];
    eexists; repeat split; reflexivity.
Qed.

(** X11. The memory reader of the parser is tolerant in writing: blanks
    between number and unit, anything after the unit letter (the b of
    [gb]) and upper case change nothing. *)
Theorem parse_memory_to_mb_tolerant (d sp u rest : string) :
  numeral d = true ->
  all_chars isspace sp = true ->
  In u unit_letters ->
  parse_memory_to_mb (d ++ sp ++ u ++ rest) = parse_memory_to_mb (d ++ u) /\
  parse_memory_to_mb (upper (d ++ sp ++ u ++ rest)) = parse_memory_to_mb (d ++ u).
Proof.
  intros N S U. destruct (unit_letter_char u U) as (c & -> & UC & LC & SC).
  assert (A : all_chars isdigit d = true).
  { unfold numeral in N. now apply andb_true_iff in N as [_ N]. }
  assert (E : forall sp' z, all_chars isspace sp' = true ->
             Re.number_unit (strip (lower (d ++ sp' ++ String c z)))
             = Some (d, EmptyString, String c EmptyString)).
  { intros sp' z S'. rewrite !lower_append, (lower_digits d A), (lower_blanks sp' S').
    change (lower (String c z)) with (String (lower_char c) (lower z)).
    rewrite LC. unfold strip. rewrite (lstrip_digits d _ N).
    unfold rstrip. rewrite <- append_assoc, (rstrip_by_kept isspace _ c _ SC).
    rewrite append_assoc. now apply number_unit_form. }
  assert (NE : forall t, is_empty (d ++ t) = false).
  { intros t. unfold numeral in N. destruct d; [discriminate N | reflexivity]. }
  assert (P : forall z,
             parse_memory_to_mb (d ++ sp ++ String c z)
             = parse_memory_to_mb (d ++ String c EmptyString)).
  { intros z. unfold parse_memory_to_mb. rewrite !NE, (E sp z S).
    pose proof (E EmptyString EmptyString eq_refl) as E0.
    cbn [append] in E0. now rewrite E0. }
  split.
  - exact (P rest).
  - rewrite <- (P rest). unfold parse_memory_to_mb. rewrite lower_upper.
    assert (X : is_empty (upper (d ++ sp ++ String c EmptyString ++ rest)) = false).
    { unfold numeral in N. destruct d; [discriminate N | reflexivity]. }
    now rewrite X, NE.
Qed.

Lemma parse_memory_to_mb_tolerant_witness :
  parse_memory_to_mb ("4" ++ " " ++ "g" ++ "b") = parse_memory_to_mb ("4" ++ "g") /\
  parse_memory_to_mb (upper ("4" ++ " " ++ "g" ++ "b"))
  = parse_memory_to_mb ("4" ++ "g") /\
  parse_memory_to_mb ("4" ++ "g") = Ok (Some 4096%Z).
Proof.
  split; [|split; [|reflexivity]].
  - apply (proj1 (parse_memory_to_mb_tolerant "4" " " "g" "b" eq_refl eq_refl
                    (or_intror (or_intror (or_introl eq_refl))))).
  - apply (proj2 (parse_memory_to_mb_tolerant "4" " " "g" "b" eq_refl eq_refl
                    (or_intror (or_intror (or_introl eq_refl))))).
Defined.

(** * The rule battery *)

Import Rules.

Lemma spilling_without_metrics (c : SparkConfig) : check_memory_spilling c None = [].
Proof. reflexivity. Qed.

Lemma shuffle_without_metrics (c : SparkConfig) : check_shuffle_partitions c None = [].
Proof.
  unfold check_shuffle_partitions. destruct (shuffle_partitions c) as [n|]; [|reflexivity].
  now destruct (negb (n =? 0)%Z && (200 <? n)%Z).
Qed.

(** X12. Metrics can only add warnings: the recommendations that are not
    warnings are those the rules give without metrics, at most two; and
    no rule reports twice, so there are at most four in all. *)
Theorem metrics_only_add_warnings (c : SparkConfig) (m : option ExecutionMetrics) :
  filter (fun r => negb (is_warning r)) (_rule_based_analysis c m)
  = _rule_based_analysis c None /\
  (List.length (_rule_based_analysis c None) <= 2)%nat /\
  (List.length (_rule_based_analysis c m) <= 4)%nat /\
  NoDup (map title (_rule_based_analysis c m)).
Proof.
  unfold _rule_based_analysis.
  rewrite shuffle_without_metrics, spilling_without_metrics.
  destruct (check_driver_memory_cases c) as [E|[s E]];
  destruct (check_shuffle_partitions_cases c m) as [E1|[n E1]];
  destruct (check_dynamic_allocation_cases c) as [E2|E2];
  destruct (check_memory_spilling_cases c m) as [E3|[s3 E3]];
  rewrite E, E1, E2, E3; cbn [app filter is_warning severity negb
    excessive_driver_memory inefficient_shuffle_partitions
    enable_dynamic_allocation high_memory_spilling List.length map title];
  (split; [reflexivity|]); (split; [lia|]); (split; [lia|]);
  repeat constructor; cbn [In]; intuition discriminate.
Qed.

(** X13. The spilling rule compares the spilled bytes with a tenth of
    the memory used (of one byte when that is unknown or zero): for
    sizes below 2^52 bytes it reports exactly when ten times the
    spilled bytes exceed that base, and names the executor memory of
    the record, or [unknown]. *)
Theorem memory_spilling_rule_fires_exactly (c : SparkConfig)
  (mm : ExecutionMetrics) (spilled : Z) :
  executor_memory_spilled mm = Some spilled ->
  (spill_base mm < 2 ^ 52)%Z ->
  ((spill_base mm < 10 * spilled)%Z ->
   check_memory_spilling c (Some mm)
   = [high_memory_spilling (or_str (executor_memory c) "unknown")]) /\
  ((10 * spilled <= spill_base mm)%Z -> check_memory_spilling c (Some mm) = []).
Proof.
  intros S B. unfold check_memory_spilling. rewrite S.
  fold (spill_base mm). unfold ratio_above_tenth.
  assert (P : (1 <= spill_base mm)%Z) by (unfold spill_base; lia).
  split; intros H.
  - assert (N : (spilled =? 0)%Z = false) by (apply Z.eqb_neq; lia).
    assert (R : (14411518807585589 * spill_base mm <? spilled * 2 ^ 57)%Z = true).
    { apply Z.ltb_lt. change (2 ^ 57)%Z with 144115188075855872%Z.
      change (2 ^ 52)%Z with 4503599627370496%Z in B. lia. }
    now rewrite N, R.
  - assert (R : (14411518807585589 * spill_base mm <? spilled * 2 ^ 57)%Z = false).
    { apply Z.ltb_ge. change (2 ^ 57)%Z with 144115188075855872%Z. lia. }
    now rewrite R, andb_false_r.
Qed.

Lemma memory_spilling_rule_fires_exactly_witness :
  check_memory_spilling (new_config "run.sh")
    (Some (mkExecutionMetrics "app-1" "job" None 0 0 0 0
             (Some (60 * 1024 ^ 3)%Z) (Some (5 * 1024 ^ 3)%Z)
             None None None None None None)) = [] /\
  check_memory_spilling (new_config "run.sh")
    (Some (mkExecutionMetrics "app-1" "job" None 0 0 0 0
             (Some (40 * 1024 ^ 3)%Z) (Some (5 * 1024 ^ 3)%Z)
             None None None None None None))
  = [high_memory_spilling "unknown"].
Proof.
  split.
  - apply (proj2 (memory_spilling_rule_fires_exactly (new_config "run.sh")
                    (mkExecutionMetrics "app-1" "job" None 0 0 0 0
                       (Some (60 * 1024 ^ 3)%Z) (Some (5 * 1024 ^ 3)%Z)
                       None None None None None None)
                    (5 * 1024 ^ 3)%Z eq_refl eq_refl)).
    discriminate.
  - apply (proj1 (memory_spilling_rule_fires_exactly (new_config "run.sh")
                    (mkExecutionMetrics "app-1" "job" None 0 0 0 0
                       (Some (40 * 1024 ^ 3)%Z) (Some (5 * 1024 ^ 3)%Z)
                       None None None None None None)
                    (5 * 1024 ^ 3)%Z eq_refl eq_refl)).
    reflexivity.
Defined.

(** X14. The rules read four fields of the record and three of the
    metrics and nothing else: [raw_configs], the executor count and
    cores, failed tasks and stages, garbage-collection time and the
    shuffle sizes never change what is recommended. *)
Theorem rules_read_seven_values (c c' : SparkConfig) (m m' : option ExecutionMetrics) :
  config_view c = config_view c' ->
  metrics_view m = metrics_view m' ->
  _rule_based_analysis c m = _rule_based_analysis c' m'.
Proof.
  unfold config_view, metrics_view. intros [= DM EM SP DA] M.
  unfold _rule_based_analysis, check_driver_memory, check_shuffle_partitions,
    check_dynamic_allocation, check_memory_spilling.
  rewrite DM, EM, SP, DA.
  destruct m as [mm|], m' as [mm'|]; cbn [option_map] in M; try discriminate M.
  - injection M as -> -> ->. reflexivity.
  - reflexivity.
Qed.

Lemma rules_read_seven_values_witness :
  _rule_based_analysis
    (set_raw "spark.driver.memory" "64g" (set_executor_cores 64 (new_config "run.sh")))
    None
  = _rule_based_analysis (new_config "run.sh") None.
Proof.
  apply (rules_read_seven_values
           (set_raw "spark.driver.memory" "64g"
              (set_executor_cores 64 (new_config "run.sh")))
           (new_config "run.sh") None None); reflexivity.
Defined.

(** * Replies of the text-generation service *)

Import Reply.

Lemma upper_append (a b : string) : upper (a ++ b) = upper a ++ upper b.
Proof.
  unfold upper. induction a as [|c a IH]; [reflexivity|].
  cbn [append map_chars]. now rewrite IH.
Qed.

Lemma contains_here (p s : string) : String.prefix p s = true -> contains p s = true.
Proof. intros P. destruct s; cbn [contains]; now rewrite P. Qed.

Lemma contains_later (p : string) (c : ascii) (s : string) :
  contains p s = true -> contains p (String c s) = true.
Proof. intros C. cbn [contains]. rewrite C. apply orb_true_r. Qed.

Lemma prefix_of_append (p s : string) : String.prefix p (p ++ s) = true.
Proof.
  induction p as [|c p IH]; [apply prefix_empty|].
  cbn [append String.prefix]. destruct (ascii_dec c c) as [_|N]; [exact IH | now elim N].
Qed.

(** A tagged line mentions its tag, so it is never taken as the summary. *)
Lemma tagged_line_not_summary (summary line : string) (sev : RecommendationSeverity) :
  severity_tag line = Some sev -> summary_line summary line = false.
Proof.
  unfold severity_tag, startswith. intros T.
  assert (M : existsb (fun x => contains x (upper line))
                ["CRITICAL"; "WARNING"; "INFO"; "SUGGESTION"] = true).
  { destruct (String.prefix "[CRITICAL]" line) eqn:P1.
    - apply prefix_append in P1 as [t ->]. rewrite upper_append.
      cbn [existsb]. apply orb_true_iff. left.
      change (upper "[CRITICAL]") with ("[" ++ "CRITICAL" ++ "]").
      rewrite !append_assoc. apply contains_later. apply contains_here.
      apply prefix_of_append.
    - destruct (String.prefix "[WARNING]" line) eqn:P2.
      + apply prefix_append in P2 as [t ->]. rewrite upper_append.
        cbn [existsb]. apply orb_true_iff. right. apply orb_true_iff. left.
        change (upper "[WARNING]") with ("[" ++ "WARNING" ++ "]").
        rewrite !append_assoc. apply contains_later. apply contains_here.
        apply prefix_of_append.
      + destruct (String.prefix "[INFO]" line) eqn:P3; [|discriminate].
        apply prefix_append in P3 as [t ->]. rewrite upper_append.
        cbn [existsb]. apply orb_true_iff. right. apply orb_true_iff. right.
        apply orb_true_iff. left.
        change (upper "[INFO]") with ("[" ++ "INFO" ++ "]").
        rewrite !append_assoc. apply contains_later. apply contains_here.
        apply prefix_of_append. }
  unfold summary_line. rewrite M. cbn [negb]. now rewrite !andb_false_r.
Qed.

Lemma response_line_recommendations (summary : string) (recs : list Recommendation)
  (raw_line : string) :
  snd (response_line (summary, recs) raw_line)
  = (recs ++ line_recommendations raw_line)%list.
Proof.
  unfold response_line, line_recommendations.
  destruct (severity_tag (strip raw_line)) as [sev|] eqn:T.
  - rewrite (tagged_line_not_summary summary _ sev T).
    destruct (tagged_line sev (strip raw_line)); cbn [snd]; [reflexivity|].
    now rewrite app_nil_r.
  - destruct (summary_line summary (strip raw_line)); cbn [snd]; now rewrite app_nil_r.
Qed.

Lemma response_lines_recommendations (lines : list string) :
  forall summary recs,
    snd (fold_left response_line lines (summary, recs))
    = (recs ++ flat_map line_recommendations lines)%list.
Proof.
  induction lines as [|l lines IH]; intros summary recs; cbn [fold_left flat_map].
  - now rewrite app_nil_r.
  - destruct (response_line (summary, recs) l) as [s' recs'] eqn:E.
    rewrite IH. pose proof (response_line_recommendations summary recs l) as R.
    rewrite E in R. cbn [snd] in R. rewrite R. now rewrite <- app_assoc.
Qed.

Lemma parse_openai_response_snd (text : string) :
  snd (_parse_openai_response text)
  = flat_map line_recommendations (split_on nl text).
Proof.
  unfold _parse_openai_response.
  pose proof (response_lines_recommendations (split_on nl text) EmptyString []) as R.
  destruct (fold_left response_line (split_on nl text) (EmptyString, []))
    as [summary recs]. exact R.
Qed.

Lemma split_on_not_nil (sep : ascii) (s : string) : split_on sep s <> [].
Proof.
  destruct s as [|c s]; cbn [split_on]; [discriminate|].
  destruct (Ascii.eqb c sep); [discriminate|].
  destruct (split_on sep s); discriminate.
Qed.

Lemma split_on_append (sep : ascii) (a b : string) :
  split_on sep (a ++ String sep b) = (split_on sep a ++ split_on sep b)%list.
Proof.
  induction a as [|c a IH].
  - cbn [append split_on]. now rewrite Ascii.eqb_refl.
  - cbn [append split_on]. rewrite IH.
    destruct (Ascii.eqb c sep); [reflexivity|].
    destruct (split_on sep a) as [|p ps] eqn:E; [|reflexivity].
    now apply split_on_not_nil in E.
Qed.


Lemma flat_map_length_le {A B : Type} (f : A -> list B) (xs : list A) :
  (forall x, List.length (f x) <= 1)%nat ->
  (List.length (flat_map f xs) <= List.length xs)%nat.
Proof.
  intros F. induction xs as [|x xs IH]; [cbn; lia|].
  cbn [flat_map]. rewrite length_app. specialize (F x). cbn [List.length]. lia.
Qed.

(** ** Properties of the reply parser *)

(** X15. The recommendations of a reply are read line by line, in
    order and whatever the summary is: a tagged line is never taken
    for the summary, each line gives at most one recommendation, and
    the recommendations of two replies joined by a line feed are those
    of the first followed by those of the second. *)
Theorem recommendations_are_read_line_by_line (text more : string) :
  snd (_parse_openai_response text)
  = flat_map line_recommendations (split_on nl text) /\
  snd (_parse_openai_response (text ++ NL ++ more))
  = (snd (_parse_openai_response text) ++ snd (_parse_openai_response more))%list /\
  (List.length (snd (_parse_openai_response text))
   <= List.length (split_on nl text))%nat.
Proof.
  split; [apply parse_openai_response_snd|]. split.
  - rewrite !parse_openai_response_snd. change (NL ++ more) with (String nl more).
    now rewrite split_on_append, flat_map_app.
  - rewrite parse_openai_response_snd. apply flat_map_length_le.
    intros l. unfold line_recommendations.
    destruct (severity_tag (strip l)) as [sev|]; [|cbn; lia].
    destruct (tagged_line sev (strip l)); cbn; lia.
Qed.









(** * Selections of recommendations *)

Import Selection.

Lemma filter_none {A : Type} (p : A -> bool) (xs : list A) :
  (forall x, In x xs -> p x = false) -> filter p xs = [].
Proof.
  induction xs as [|x xs IH]; intros H; [reflexivity|].
  cbn [filter]. rewrite (H x (or_introl eq_refl)). apply IH.
  intros y I. apply H. now right.
Qed.

Lemma filter_all {A : Type} (p : A -> bool) (xs : list A) :
  (forall x, In x xs -> p x = true) -> filter p xs = xs.
Proof.
  induction xs as [|x xs IH]; intros H; [reflexivity|].
  cbn [filter]. rewrite (H x (or_introl eq_refl)). f_equal. apply IH.
  intros y I. apply H. now right.
Qed.

Lemma counts_add_up (shown : list Recommendation) :
  total_count shown
  = (critical_count shown + warning_count shown + info_count shown)%Z.
Proof.
  unfold total_count, critical_count, warning_count, info_count, count_of.
  induction shown as [|r shown IH]; [reflexivity|].
  cbn [filter List.length]. destruct (severity r); cbn [severity_value String.eqb
    Ascii.eqb Bool.eqb andb List.length]; lia.
Qed.

Lemma by_severity_known (name : string) (wanted : RecommendationSeverity)
  (recs : list Recommendation) :
  severity_map name = Some wanted ->
  by_severity name recs
  = Some (filter (fun r => severity_eqb (severity r) wanted) recs).
Proof.
  intros M. induction recs as [|r recs IH]; [reflexivity|].
  cbn [by_severity filter]. rewrite M, IH.
  now destruct (severity_eqb (severity r) wanted).
Qed.

Lemma by_severity_unknown (name : string) (recs : list Recommendation) :
  severity_map name = None ->
  by_severity name recs = match recs with [] => Some [] | _ :: _ => None end.
Proof. intros M. destruct recs as [|r recs]; cbn [by_severity]; now rewrite ?M. Qed.

Lemma severity_map_names (name : string) :
  match severity_map name with
  | Some wanted => severity_value wanted = name
  | None => ~ In name ["critical"; "warning"; "info"]
  end.
Proof.
  unfold severity_map.
  destruct (String.eqb_spec name "critical") as [->|N1]; [reflexivity|].
  destruct (String.eqb_spec name "warning") as [->|N2]; [reflexivity|].
  destruct (String.eqb_spec name "info") as [->|N3]; [reflexivity|].
  cbn [In]. intros [H|[H|[H|[]]]]; congruence.
Qed.

Lemma filter_recommendations_fails (severity_filter category_filter : string)
  (recs : list Recommendation) :
  filter_recommendations severity_filter category_filter recs = None <->
  ~ In severity_filter ["all"; "critical"; "warning"; "info"] /\ recs <> [].
Proof.
  unfold filter_recommendations. cbn [In].
  destruct (String.eqb_spec severity_filter "all") as [->|N0];
    [split; [discriminate | tauto]|].
  pose proof (severity_map_names severity_filter) as S.
  destruct (severity_map severity_filter) as [wanted|] eqn:M.
  - rewrite (by_severity_known _ wanted recs M). split; [discriminate|].
    intros [N _]. exfalso. apply N. right.
    destruct wanted; cbn [severity_value] in S; subst severity_filter; tauto.
  - rewrite (by_severity_unknown _ recs M). cbn [In] in S.
    destruct recs as [|r recs].
    + split; [discriminate | intros [_ E]; now elim E].
    + split; [|reflexivity]. intros _. split; [|discriminate].
      intros [H|H]; [congruence | tauto].
Qed.

(** X17. The filters of the tool [get_recommendations]: a severity
    filter other than [all], [critical], [warning] and [info] (the
    names in lower case only) makes the request fail, unless the
    analysis has no recommendation at all; otherwise a recommendation
    is shown exactly when it is in the analysis and passes both
    filters, in the order of the analysis, and the total is the sum of
    the three counts. *)
Theorem shown_recommendations (severity_filter category_filter : string)
  (recs : list Recommendation) :
  (filter_recommendations severity_filter category_filter recs = None <->
   ~ In severity_filter ["all"; "critical"; "warning"; "info"] /\ recs <> []) /\
  (forall shown,
     filter_recommendations severity_filter category_filter recs = Some shown ->
     total_count shown
     = (critical_count shown + warning_count shown + info_count shown)%Z /\
     (forall r, In r shown <->
                In r recs /\
                (severity_filter = "all" \/
                 severity_value (severity r) = severity_filter) /\
                (category_filter = "all" \/ category r = category_filter)) /\
     (severity_filter = "all" -> category_filter = "all" -> shown = recs)).
Proof.
  split; [apply filter_recommendations_fails|].
  unfold filter_recommendations.
  intros shown H. split; [apply counts_add_up|].
  assert (SV : forall (r : Recommendation) (wanted : RecommendationSeverity),
             severity_eqb (severity r) wanted = true <->
             severity_value (severity r) = severity_value wanted).
  { intros r wanted. destruct (severity r), wanted; cbn; split;
      (reflexivity || discriminate). }
  assert (CF : forall (base : list Recommendation) (r : Recommendation),
             In r (if String.eqb category_filter "all" then base
                   else filter (fun r => String.eqb (category r) category_filter) base)
             <-> In r base /\ (category_filter = "all" \/ category r = category_filter)).
  { intros base r. destruct (String.eqb_spec category_filter "all") as [->|N].
    - tauto.
    - rewrite filter_In, String.eqb_eq. tauto. }
  destruct (String.eqb_spec severity_filter "all") as [->|N0].
  - injection H as <-. split.
    + intros r. rewrite CF. tauto.
    + intros _ ->. reflexivity.
  - split; [|intros E; congruence].
    pose proof (severity_map_names severity_filter) as S.
    destruct (severity_map severity_filter) as [wanted|] eqn:M.
    + rewrite (by_severity_known _ wanted recs M) in H. injection H as <-.
      intros r. rewrite CF, filter_In, SV, S. tauto.
    + rewrite (by_severity_unknown _ recs M) in H.
      destruct recs as [|r0 recs]; [|discriminate H]. injection H as <-.
      intros r. rewrite CF. cbn [In]. tauto.
Qed.

Lemma shown_recommendations_witness :
  total_count [excessive_driver_memory "20g"]
  = (critical_count [excessive_driver_memory "20g"]
     + warning_count [excessive_driver_memory "20g"]
     + info_count [excessive_driver_memory "20g"])%Z /\
  filter_recommendations "Critical" "all"
    [excessive_driver_memory "20g"; enable_dynamic_allocation] = None.
Proof.
  split.
  - apply (proj2 (shown_recommendations "critical" "all"
                    [excessive_driver_memory "20g"; enable_dynamic_allocation])
             [excessive_driver_memory "20g"] eq_refl).
  - apply (proj1 (shown_recommendations "Critical" "all"
                    [excessive_driver_memory "20g"; enable_dynamic_allocation])).
    split; [|discriminate]. cbn [In]. intros [H|[H|[H|[H|[]]]]]; discriminate H.
Defined.

Lemma rule_categories (c : SparkConfig) (m : option ExecutionMetrics) :
  (forall r, In r (check_driver_memory c) ->
             severity r = CRITICAL /\ category r = "resource_allocation") /\
  (forall r, In r (check_shuffle_partitions c m) ->
             severity r = WARNING /\ category r = "performance_tuning") /\
  (forall r, In r (check_dynamic_allocation c) ->
             severity r = INFO /\ category r = "best_practices") /\
  (forall r, In r (check_memory_spilling c m) ->
             severity r = WARNING /\ category r = "performance_tuning").
Proof.
  assert (O : forall (xs : list Recommendation) (x r : Recommendation),
             xs = [] \/ xs = [x] -> In r xs -> r = x).
  { intros xs x r [->| ->] I; [destruct I|]. destruct I as [<-|[]]. reflexivity. }
  refine (conj _ (conj _ (conj _ _))); intros r I.
  - destruct (check_driver_memory_cases c) as [E|[s E]].
    + rewrite E in I. destruct I.
    + rewrite (O _ _ r (or_intror E) I). now split.
  - destruct (check_shuffle_partitions_cases c m) as [E|[n E]].
    + rewrite E in I. destruct I.
    + rewrite (O _ _ r (or_intror E) I). now split.
  - destruct (check_dynamic_allocation_cases c) as [E|E].
    + rewrite E in I. destruct I.
    + rewrite (O _ _ r (or_intror E) I). now split.
  - destruct (check_memory_spilling_cases c m) as [E|[s E]].
    + rewrite E in I. destruct I.
    + rewrite (O _ _ r (or_intror E) I). now split.
Qed.

(** X18. The selections of an analysis made without the
    text-generation service: the critical recommendations and the
    category [resource_allocation] are the driver-memory check,
    [best_practices] is the dynamic-allocation check, and
    [performance_tuning] holds the two warnings; the tool's severity
    filter [critical] shows the same as [get_critical_recommendations]. *)
Theorem selections_of_the_rules
  (prompt_of : SparkConfig -> option ExecutionMetrics -> option string)
  (now : string) (cfg : SparkConfig) (m : option ExecutionMetrics) :
  let result := analyze None prompt_of now cfg m in
  get_critical_recommendations result = check_driver_memory cfg /\
  get_by_category result "resource_allocation" = check_driver_memory cfg /\
  get_by_category result "best_practices" = check_dynamic_allocation cfg /\
  get_by_category result "performance_tuning"
  = (check_shuffle_partitions cfg m ++ check_memory_spilling cfg m)%list /\
  filter_recommendations "critical" "all" (recommendations result)
  = Some (get_critical_recommendations result).
Proof.
  cbv zeta. unfold get_critical_recommendations, get_by_category, analyze.
  cbn [recommendations]. unfold _rule_based_analysis.
  destruct (rule_categories cfg m) as (D & S & A & P).
  rewrite !filter_app.
  assert (F : forall (p : Recommendation -> bool) (xs : list Recommendation)
                (sev : RecommendationSeverity) (cat : string),
             (forall r, In r xs -> severity r = sev /\ category r = cat) ->
             (forall r, severity r = sev -> category r = cat -> p r = true) ->
             filter p xs = xs).
  { intros p xs sev cat H Q. apply filter_all. intros r I.
    destruct (H r I). now apply Q. }
  assert (G : forall (p : Recommendation -> bool) (xs : list Recommendation)
                (sev : RecommendationSeverity) (cat : string),
             (forall r, In r xs -> severity r = sev /\ category r = cat) ->
             (forall r, severity r = sev -> category r = cat -> p r = false) ->
             filter p xs = []).
  { intros p xs sev cat H Q. apply filter_none. intros r I.
    destruct (H r I). now apply Q. }
  repeat split.
  - rewrite (F _ _ _ _ D), (G _ _ _ _ S), (G _ _ _ _ A), (G _ _ _ _ P);
      try (intros r H1 H2; rewrite ?H1, ?H2; reflexivity).
    cbn [app]. now rewrite ?app_nil_r.
  - rewrite (F _ _ _ _ D), (G _ _ _ _ S), (G _ _ _ _ A), (G _ _ _ _ P);
      try (intros r H1 H2; rewrite ?H1, ?H2; reflexivity).
    cbn [app]. now rewrite ?app_nil_r.
  - rewrite (G _ _ _ _ D), (G _ _ _ _ S), (F _ _ _ _ A), (G _ _ _ _ P);
      try (intros r H1 H2; rewrite ?H1, ?H2; reflexivity).
    cbn [app]. now rewrite ?app_nil_r.
  - rewrite (G _ _ _ _ D), (F _ _ _ _ S), (G _ _ _ _ A), (F _ _ _ _ P);
      try (intros r H1 H2; rewrite ?H1, ?H2; reflexivity).
    cbn [app]. now rewrite ?app_nil_r.
  - unfold filter_recommendations.
    change (String.eqb "critical" "all") with false.
    change (String.eqb "all" "all") with true.
    cbv iota. rewrite (by_severity_known "critical" CRITICAL _ eq_refl).
    now rewrite !filter_app.
Qed.

(** * The metrics client *)

Import HistoryServerClient.

Lemma or_int_zero (x : Z) : or_int (Some x) 0 = x.
Proof. cbn [or_int]. destruct (Z.eqb_spec x 0); congruence. Qed.

Lemma sum_of_none (f : Stage -> option Z) (stages : list Stage) :
  any_has f stages = false -> sum_of f stages = 0%Z.
Proof.
  unfold any_has, sum_of. induction stages as [|s stages IH]; [reflexivity|].
  cbn [existsb fold_right]. destruct (f s); [discriminate|].
  cbn [orb or_zero]. intros H. rewrite (IH H). reflexivity.
Qed.

Lemma fold_add_bytes (f : Stage -> option Z) (stages : list Stage) :
  forall acc,
    fold_left add_bytes (map f stages) acc
    = if any_has f stages then Some (or_int acc 0 + sum_of f stages)%Z else acc.
Proof.
  induction stages as [|s stages IH]; intros acc; [reflexivity|].
  cbn [map fold_left]. rewrite IH.
  pose proof (sum_of_none f stages) as Z0.
  unfold any_has in *. cbn [existsb]. unfold sum_of in *. cbn [fold_right].
  unfold add_bytes. destruct (f s) as [v|]; cbn [orb or_zero].
  - rewrite or_int_zero.
    destruct (existsb _ stages); [f_equal; lia|].
    rewrite (Z0 eq_refl). f_equal. lia.
  - destruct (existsb _ stages); [f_equal; lia | reflexivity].
Qed.

Lemma fold_stage_step (stages : list Stage) :
  forall m,
    fold_left stage_step stages m
    = mkExecutionMetrics (app_id m) (metrics_app_name m) (duration_ms m)
        (total_tasks m + sum_of s_numTasks stages)
        (failed_tasks m + sum_of s_numFailedTasks stages)
        (total_stages m) (failed_stages m)
        (executor_memory_used m) (executor_memory_spilled m)
        (fold_left add_bytes (map s_shuffleReadBytes stages) (shuffle_read_bytes m))
        (fold_left add_bytes (map s_shuffleWriteBytes stages) (shuffle_write_bytes m))
        (fold_left add_bytes (map s_inputBytes stages) (input_bytes m))
        (fold_left add_bytes (map s_outputBytes stages) (output_bytes m))
        (peak_memory_usage m) (gc_time_ms m).
Proof.
  induction stages as [|s stages IH]; intros m.
  - cbn [fold_left map sum_of fold_right]. rewrite !Z.add_0_r. now destruct m.
  - cbn [fold_left]. rewrite IH. unfold stage_step at 1 2 3 4 5 6 7 8 9 10 11 12 13 14 15.
    cbn [app_id metrics_app_name duration_ms total_tasks failed_tasks total_stages
         failed_stages executor_memory_used executor_memory_spilled
         shuffle_read_bytes shuffle_write_bytes input_bytes output_bytes
         peak_memory_usage gc_time_ms map fold_left sum_of fold_right].
    fold (sum_of s_numTasks stages). fold (sum_of s_numFailedTasks stages).
    f_equal; lia.
Qed.

(** The record that [_parse_metrics] returns, field by field. *)
Lemma parse_metrics_fields (d : AppData) :
  _parse_metrics d
  = mkExecutionMetrics (or_empty (d_id d)) (or_empty (d_name d))
      match d_attempts d with
      | [] => None
      | first :: rest => a_duration (last rest first)
      end
      (sum_of s_numTasks (d_stages d))
      (sum_of s_numFailedTasks (d_stages d))
      (Z.of_nat (List.length (d_stages d)))
      (Z.of_nat (List.length (filter is_failed (d_stages d))))
      match d_executorSummary d with
      | [] => None
      | _ :: _ => Some (get_int "memoryUsed" (d_executorSummary d) 0)
      end
      match d_executorSummary d with
      | [] => None
      | _ :: _ => Some (get_int "diskUsed" (d_executorSummary d) 0)
      end
      (total_of s_shuffleReadBytes (d_stages d))
      (total_of s_shuffleWriteBytes (d_stages d))
      (total_of s_inputBytes (d_stages d))
      (total_of s_outputBytes (d_stages d))
      None None.
Proof.
  unfold _parse_metrics. cbv zeta. rewrite fold_stage_step.
  cbn [app_id metrics_app_name duration_ms total_tasks failed_tasks total_stages
       failed_stages executor_memory_used executor_memory_spilled
       shuffle_read_bytes shuffle_write_bytes input_bytes output_bytes
       peak_memory_usage gc_time_ms].
  rewrite !fold_add_bytes. unfold total_of. cbn [or_int]. rewrite !Z.add_0_l.
  reflexivity.
Qed.

Lemma filter_length_le {A : Type} (p : A -> bool) (xs : list A) :
  (List.length (filter p xs) <= List.length xs)%nat.
Proof.
  induction xs as [|x xs IH]; [cbn; lia|]. cbn [filter].
  destruct (p x); cbn [List.length]; lia.
Qed.

Lemma sum_of_permutation (f : Stage -> option Z) (xs ys : list Stage) :
  Permutation xs ys -> sum_of f xs = sum_of f ys.
Proof.
  unfold sum_of. induction 1; cbn [fold_right]; lia.
Qed.

Lemma any_has_permutation (f : Stage -> option Z) (xs ys : list Stage) :
  Permutation xs ys -> any_has f xs = any_has f ys.
Proof.
  unfold any_has. induction 1; cbn [existsb].
  - reflexivity.
  - now rewrite IHPermutation.
  - now rewrite !orb_assoc, (orb_comm (match f y with Some _ => true | None => false end)).
  - congruence.
Qed.

Lemma total_of_permutation (f : Stage -> option Z) (xs ys : list Stage) :
  Permutation xs ys -> total_of f xs = total_of f ys.
Proof.
  intros P. unfold total_of.
  now rewrite (any_has_permutation f xs ys P), (sum_of_permutation f xs ys P).
Qed.

Lemma failed_permutation (xs ys : list Stage) :
  Permutation xs ys ->
  List.length (filter is_failed xs) = List.length (filter is_failed ys).
Proof.
  induction 1; cbn [filter].
  - reflexivity.
  - destruct (is_failed x); cbn [List.length]; lia.
  - destruct (is_failed x), (is_failed y); reflexivity.
  - congruence.
Qed.

(** ** Properties of the metrics client *)

(** X19. What [_parse_metrics] makes of a payload: the stage count is
    the number of stages and the failed ones are among them; the task
    counts are sums over the stages, a stage without the key counting
    for nothing; each of the four byte sizes is absent when no stage has
    it and the sum of the stages that have it otherwise; and the peak
    memory and the garbage-collection time are never filled in. *)
Theorem parse_metrics_totals (d : AppData) :
  let m := _parse_metrics d in
  app_id m = or_empty (d_id d) /\
  total_stages m = Z.of_nat (List.length (d_stages d)) /\
  (0 <= failed_stages m <= total_stages m)%Z /\
  total_tasks m = sum_of s_numTasks (d_stages d) /\
  failed_tasks m = sum_of s_numFailedTasks (d_stages d) /\
  shuffle_read_bytes m = total_of s_shuffleReadBytes (d_stages d) /\
  shuffle_write_bytes m = total_of s_shuffleWriteBytes (d_stages d) /\
  input_bytes m = total_of s_inputBytes (d_stages d) /\
  output_bytes m = total_of s_outputBytes (d_stages d) /\
  peak_memory_usage m = None /\
  gc_time_ms m = None.
Proof.
  cbv zeta. rewrite parse_metrics_fields.
  cbn [app_id total_tasks failed_tasks total_stages failed_stages
       shuffle_read_bytes shuffle_write_bytes input_bytes output_bytes
       peak_memory_usage gc_time_ms].
  repeat split; try reflexivity; try lia.
  apply inj_le. apply filter_length_le.
Qed.

(** X20. The order of the stages in the payload does not matter to
    what is computed from them: payloads that differ only in it give
    the same typed fields, every field but [raw_metrics], which keeps
    the payload as it came; so the rules recommend the same for both. *)
Theorem stage_order_does_not_matter (d : AppData) (stages : list Stage) :
  Permutation (d_stages d) stages ->
  typed_fields (_parse_metrics (mkAppData (d_id d) (d_name d) (d_attempts d)
                                  (d_executorSummary d) stages))
  = typed_fields (_parse_metrics d) /\
  forall c,
    _rule_based_analysis c
      (Some (_parse_metrics (mkAppData (d_id d) (d_name d) (d_attempts d)
                               (d_executorSummary d) stages)))
    = _rule_based_analysis c (Some (_parse_metrics d)).
Proof.
  intros P.
  assert (T : typed_fields
                (_parse_metrics (mkAppData (d_id d) (d_name d) (d_attempts d)
                                   (d_executorSummary d) stages))
              = typed_fields (_parse_metrics d)).
  { rewrite !parse_metrics_fields. unfold typed_fields.
    cbn [d_id d_name d_attempts d_executorSummary d_stages
         app_id metrics_app_name duration_ms total_tasks failed_tasks total_stages
         failed_stages executor_memory_used executor_memory_spilled
         shuffle_read_bytes shuffle_write_bytes input_bytes output_bytes
         peak_memory_usage gc_time_ms].
    rewrite <- !(total_of_permutation _ _ _ P), <- !(sum_of_permutation _ _ _ P).
    rewrite <- (failed_permutation _ _ P), <- (Permutation_length P).
    reflexivity. }
  split; [exact T|]. intros c.
  unfold typed_fields in T.
  injection T as _ _ _ _ _ _ _ U S _ _ I _ _ _.
  unfold _rule_based_analysis, check_shuffle_partitions, check_memory_spilling.
  now rewrite U, S, I.
Qed.

Lemma stage_order_does_not_matter_witness :
  typed_fields
    (_parse_metrics
       (mkAppData (Some "app-1") (Some "etl") [] []
          [mkStage None None None None None (Some 7%Z) None;
           mkStage (Some "FAILED") (Some 3%Z) None None None None None]))
  = typed_fields
      (_parse_metrics
         (mkAppData (Some "app-1") (Some "etl") [] []
            [mkStage (Some "FAILED") (Some 3%Z) None None None None None;
             mkStage None None None None None (Some 7%Z) None])).
Proof.
  apply (proj1 (stage_order_does_not_matter
                  (mkAppData (Some "app-1") (Some "etl") [] []
                     [mkStage (Some "FAILED") (Some 3%Z) None None None None None;
                      mkStage None None None None None (Some 7%Z) None])
                  _ (perm_swap _ _ _))).
Defined.

(** X21. Metrics read from a payload keep two rules silent whatever the
    record says: the spilling rule when the payload has no executor
    summary or one without disk use, and the shuffle rule when no stage
    reports its input or the inputs add up to nothing. *)
Theorem payload_without_sizes_is_silent (d : AppData) (c : SparkConfig) :
  (get_int "diskUsed" (d_executorSummary d) 0 = 0%Z ->
   check_memory_spilling c (Some (_parse_metrics d)) = []) /\
  (sum_of s_inputBytes (d_stages d) = 0%Z ->
   check_shuffle_partitions c (Some (_parse_metrics d)) = []).
Proof.
  rewrite parse_metrics_fields. split; intros H.
  - unfold check_memory_spilling. cbn [executor_memory_spilled].
    destruct (d_executorSummary d); [reflexivity|]. now rewrite H.
  - unfold check_shuffle_partitions. cbn [input_bytes]. unfold total_of. rewrite H.
    destruct (shuffle_partitions c) as [n|]; [|reflexivity].
    destruct (negb (n =? 0)%Z && (200 <? n)%Z); [|reflexivity].
    now destruct (any_has s_inputBytes (d_stages d)).
Qed.

Lemma payload_without_sizes_is_silent_witness :
  check_memory_spilling (new_config "run.sh")
    (Some (_parse_metrics (mkAppData (Some "app-1") None [] [] []))) = [] /\
  check_shuffle_partitions partitions_500
    (Some (_parse_metrics (mkAppData (Some "app-1") None [] [] []))) = [].
Proof.
  split.
  - apply (proj1 (payload_without_sizes_is_silent
                    (mkAppData (Some "app-1") None [] [] []) (new_config "run.sh"))).
    reflexivity.
  - apply (proj2 (payload_without_sizes_is_silent
                    (mkAppData (Some "app-1") None [] [] []) partitions_500)).
    reflexivity.
Defined.

Lemma default_metrics_rules (cfg : SparkConfig) (i : string) :
  _rule_based_analysis cfg (Some (default_metrics i)) = _rule_based_analysis cfg None.
Proof.
  unfold _rule_based_analysis.
  rewrite shuffle_without_metrics, spilling_without_metrics.
  assert (E : check_shuffle_partitions cfg (Some (default_metrics i)) = []).
  { unfold check_shuffle_partitions. destruct (shuffle_partitions cfg) as [n|];
      [|reflexivity].
    now destruct (negb (n =? 0)%Z && (200 <? n)%Z). }
  assert (F : check_memory_spilling cfg (Some (default_metrics i)) = []) by reflexivity.
  now rewrite E, F.
Qed.

(** X22. Without a mock file the client answers every request with the
    same built-in numbers, under the identifier asked for or, when the
    pattern occurs in the name of the built-in application, under that
    application's identifier; and with these numbers the rules
    recommend exactly what they recommend without metrics. *)
Theorem built_in_metrics_change_nothing (name_pattern : string) (cfg : SparkConfig) :
  exists i,
    find_application_by_name None name_pattern = Found (default_metrics i) /\
    i = (if contains (lower name_pattern) "production_data_pipeline_v1"
         then "app-20260126-001" else name_pattern) /\
    _get_mock_metrics None i = Found (default_metrics i) /\
    _rule_based_analysis cfg (Some (default_metrics i))
    = _rule_based_analysis cfg None.
Proof.
  eexists. split; [|split; [reflexivity|split; [reflexivity|apply default_metrics_rules]]].
  unfold find_application_by_name, list_applications, first_by_name.
  cbn [default_application d_name d_id or_empty].
  change (lower "Production_Data_Pipeline_v1") with "production_data_pipeline_v1".
  now destruct (contains (lower name_pattern) "production_data_pipeline_v1").
Qed.

Lemma matching_application_first (before after : list AppData) (app : AppData)
  (key : string) :
  Forall (fun a => exists i, d_id a = Some i /\ i <> key /\
                             or_empty (d_name a) <> key) before ->
  (exists i, d_id app = Some i /\ (i = key \/ or_empty (d_name app) = key)) ->
  matching_application (before ++ app :: after) key = Found (Some app).
Proof.
  intros B (i & I & M). induction B as [|a before (j & J & N1 & N2) B IH].
  - cbn [List.app matching_application]. rewrite I.
    destruct M as [->| ->].
    + now rewrite String.eqb_refl.
    + now rewrite String.eqb_refl, orb_true_r.
  - cbn [List.app matching_application]. rewrite J.
    apply String.eqb_neq in N1, N2. now rewrite N1, N2.
Qed.

Lemma matching_application_none (apps : list AppData) (key : string) :
  Forall (fun a => exists i, d_id a = Some i /\ i <> key /\
                             or_empty (d_name a) <> key) apps ->
  matching_application apps key = Found None.
Proof.
  induction 1 as [|a apps (j & J & N1 & N2) B IH]; [reflexivity|].
  cbn [matching_application]. rewrite J.
  apply String.eqb_neq in N1, N2. now rewrite N1, N2.
Qed.

(** X23. With a mock file the first application whose identifier or
    name is the one asked for is parsed and returned, and when the
    file has none the built-in numbers are returned under the
    identifier asked for. *)
Theorem first_matching_application_is_parsed (before after : list AppData)
  (app : AppData) (key : string) :
  Forall (fun a => exists i, d_id a = Some i /\ i <> key /\
                             or_empty (d_name a) <> key) before ->
  ((exists i, d_id app = Some i /\ (i = key \/ or_empty (d_name app) = key)) ->
   _get_mock_metrics (Some (before ++ app :: after)%list) key
   = Found (_parse_metrics app)) /\
  _get_mock_metrics (Some before) key = Found (default_metrics key).
Proof.
  intros B. split.
  - intros M. unfold _get_mock_metrics.
    now rewrite (matching_application_first before after app key B M).
  - unfold _get_mock_metrics. now rewrite (matching_application_none before key B).
Qed.

Lemma first_matching_application_is_parsed_witness :
  _get_mock_metrics
    (Some ([mkAppData (Some "app-1") (Some "etl") [] [] []] ++
           mkAppData (Some "app-2") (Some "report") [] [] [] ::
           [mkAppData (Some "app-3") (Some "report") [] [] []])%list)
    "report"
  = Found (_parse_metrics (mkAppData (Some "app-2") (Some "report") [] [] [])) /\
  _get_mock_metrics (Some [mkAppData (Some "app-1") (Some "etl") [] [] []]) "report"
  = Found (default_metrics "report").
Proof.
  assert (B : Forall (fun a => exists i, d_id a = Some i /\ i <> "report" /\
                                         or_empty (d_name a) <> "report")
                [mkAppData (Some "app-1") (Some "etl") [] [] []]).
  { constructor; [|constructor]. exists "app-1". repeat split; discriminate. }
  split.
  - apply (proj1 (first_matching_application_is_parsed
                    [mkAppData (Some "app-1") (Some "etl") [] [] []]
                    [mkAppData (Some "app-3") (Some "report") [] [] []]
                    (mkAppData (Some "app-2") (Some "report") [] [] [])
                    "report" B)).
    exists "app-2". split; [reflexivity | now right].
  - apply (proj2 (first_matching_application_is_parsed
                    [mkAppData (Some "app-1") (Some "etl") [] [] []]
                    [mkAppData (Some "app-3") (Some "report") [] [] []]
                    (mkAppData (Some "app-2") (Some "report") [] [] [])
                    "report" B)).
Defined.

(** * Records and their files *)

Lemma with_flags_source_file (buffer : string) (c : SparkConfig) :
  source_file (with_flags buffer c) = source_file c.
Proof.
  unfold with_flags.
  destruct (flag_found "--num-executors" isdigit buffer),
           (flag_found "--executor-cores" isdigit buffer),
           (flag_found "--executor-memory" Re.nonspace buffer),
           (flag_found "--driver-memory" Re.nonspace buffer),
           (flag_found "--deploy-mode" Re.nonspace buffer),
           (flag_found "--master" Re.nonspace buffer); reflexivity.
Qed.

Lemma parse_spark_submit_script_source (fs : filesystem) (path : string)
  (cfg : SparkConfig) :
  parse_spark_submit_script fs path = Ok cfg -> source_file cfg = path.
Proof.
  unfold parse_spark_submit_script. destruct (fs path) as [text|].
  - cbv zeta. set (buffer := full_command (TextIO.readlines text)).
    rewrite flags_pass_value. cbn [bind]. unfold conf_pass.
    destruct (conf_steps (Re.finditer Re.conf_flag buffer)
                (with_flags buffer (app_name_pass buffer (new_config path))))
      as [c3|e] eqn:C; cbn [bind]; [|discriminate].
    intros [= <-]. apply conf_steps_flag_part in C as [FP _].
    pose proof (name_pass_flag_part buffer c3) as NP.
    unfold flag_part in FP, NP. injection NP as -> _ _ _ _ _ _.
    injection FP as -> _ _ _ _ _ _.
    rewrite with_flags_source_file. unfold app_name_pass.
    now destruct (group1 (Re.search Re.app_name_assignment buffer)).
  - now intros [= <-].
Qed.

(** X24. Whatever dialect is chosen, the record names the file it was
    read from; and the settings dialect never fills in the master and
    the deploy mode, whatever the file sets. *)
Theorem record_names_its_file (fs : filesystem) (path : string) (cfg : SparkConfig) :
  (parse_file fs path = Ok cfg -> source_file cfg = path) /\
  (parse_spark_defaults fs path = Ok cfg ->
   source_file cfg = path /\ master cfg = None /\ deploy_mode cfg = None).
Proof.
  assert (D : parse_spark_defaults fs path = Ok cfg ->
              source_file cfg = path /\ master cfg = None /\ deploy_mode cfg = None).
  { intros P. apply parse_spark_defaults_settled in P as (_ & SF & M & DM & _).
    now repeat split. }
  split; [|exact D]. unfold parse_file.
  destruct (endswith "spark-defaults.conf" path); [intros P; now apply D|].
  destruct (endswith ".sh" path); [apply parse_spark_submit_script_source|].
  destruct (fs path) as [text|]; [|intros P; now apply D].
  destruct (contains "spark-submit" (TextIO.read text));
    [apply parse_spark_submit_script_source | intros P; now apply D].
Qed.

Lemma record_names_its_file_witness :
  exists cfg,
    parse_spark_defaults
      (single_file "conf/spark-defaults.conf" "spark.master yarn") 
      "conf/spark-defaults.conf" = Ok cfg /\
    Dict.get "spark.master" (raw_configs cfg) = Some "yarn" /\
    source_file cfg = "conf/spark-defaults.conf" /\
    master cfg = None /\ deploy_mode cfg = None.
Proof.
  eexists. split; [reflexivity|]. split; [reflexivity|].
  apply (proj2 (record_names_its_file
                  (single_file "conf/spark-defaults.conf" "spark.master yarn")
                  "conf/spark-defaults.conf" _) eq_refl).
Defined.

(** * Scanning a directory *)

Import Directory.

Lemma parse_conf_files_done (fs : filesystem) (files : list string) :
  forall configs result,
    parse_conf_files fs files configs = Done result <->
    exists settings,
      result = (configs ++ settings)%list /\
      Forall2 (fun f c => parse_spark_defaults fs f = Ok c) files settings.
Proof.
  induction files as [|f files IH]; intros configs result; cbn [parse_conf_files].
  - split.
    + intros [= <-]. exists []. split; [now rewrite app_nil_r | constructor].
    + intros (settings & -> & F). inversion F. now rewrite app_nil_r.
  - destruct (parse_spark_defaults fs f) as [c|e] eqn:P.
    + rewrite IH. split.
      * intros (settings & -> & F). exists (c :: settings). split.
        -- now rewrite <- app_assoc.
        -- now constructor.
      * intros (settings & -> & F). inversion F as [|f' c' fs' cs' Pc F']; subst.
        assert (c' = c) by congruence. subst c'.
        exists cs'. split; [now rewrite <- app_assoc | exact F'].
    + split; [discriminate|].
      intros (settings & _ & F). inversion F; congruence.
Qed.

Lemma parse_script_files_done (fs : filesystem) (files : list string) :
  forall configs result,
    parse_script_files fs files configs = Done result <->
    Forall (fun f => fs f <> None) files /\
    exists scripts,
      result = (configs ++ scripts)%list /\
      Forall2 (fun f c => parse_spark_submit_script fs f = Ok c)
        (filter (mentions_submit fs) files) scripts.
Proof.
  induction files as [|f files IH]; intros configs result;
    cbn [parse_script_files filter].
  - split.
    + intros [= <-]. split; [constructor|].
      exists []. split; [now rewrite app_nil_r | constructor].
    + intros (_ & scripts & -> & F). inversion F. now rewrite app_nil_r.
  - unfold mentions_submit at 1.
    destruct (fs f) as [text|] eqn:T.
    + destruct (contains "spark-submit" (TextIO.read text)).
      * destruct (parse_spark_submit_script fs f) as [c|e] eqn:P.
        -- rewrite IH. split.
           ++ intros (R & scripts & -> & F). split.
              ** constructor; [congruence | exact R].
              ** exists (c :: scripts). split; [now rewrite <- app_assoc|].
                 now constructor.
           ++ intros (R & scripts & -> & F). inversion R; subst. split; [assumption|].
              inversion F as [|f' c' fs' cs' Pc F']; subst.
              assert (c' = c) by congruence. subst c'.
              exists cs'. split; [now rewrite <- app_assoc | exact F'].
        -- split; [discriminate|].
           intros (_ & scripts & _ & F). inversion F; congruence.
      * rewrite IH. split.
        -- intros (R & S). split; [|exact S]. constructor; [congruence | exact R].
        -- intros (R & S). inversion R; subst. now split.
    + split; [discriminate|]. intros (R & _). inversion R; subst. congruence.
Qed.

Lemma parse_conf_files_fails (fs : filesystem) (files : list string) (f : string)
  (e : exn) :
  In f files -> parse_spark_defaults fs f = Raise e ->
  forall configs, exists e', parse_conf_files fs files configs = Failed (ParseError e').
Proof.
  induction files as [|g files IH]; intros I P configs; [destruct I|].
  cbn [parse_conf_files].
  destruct (parse_spark_defaults fs g) as [c|e0] eqn:G; [|now exists e0].
  destruct I as [->|I]; [congruence|]. now apply IH.
Qed.

(** X25. Scanning a directory: a directory that does not exist gives no
    record.  A scan ends with a list of records exactly when every
    listed script can be read and that list is the records that
    [parse_spark_defaults] returns for the listed settings files, in
    their order, followed by the records that
    [parse_spark_submit_script] returns for the listed scripts whose
    text mentions [spark-submit], in theirs; a script that does not
    mention it gives no record.  One settings file that cannot be
    parsed makes the whole scan fail, with no record returned. *)
Theorem directory_scan (fs : filesystem) (found : listing) :
  parse_directory fs None = Done [] /\
  (forall configs,
     parse_directory fs (Some found) = Done configs <->
     Forall (fun f => fs f <> None) (script_files found) /\
     exists settings scripts,
       configs = (settings ++ scripts)%list /\
       Forall2 (fun f c => parse_spark_defaults fs f = Ok c)
         (conf_files found) settings /\
       Forall2 (fun f c => parse_spark_submit_script fs f = Ok c)
         (filter (mentions_submit fs) (script_files found)) scripts) /\
  (forall f e,
     In f (conf_files found) -> parse_spark_defaults fs f = Raise e ->
     exists e', parse_directory fs (Some found) = Failed (ParseError e')).
Proof.
  split; [reflexivity|]. split.
  - intros configs. unfold parse_directory.
    destruct (parse_conf_files fs (conf_files found) []) as [cs|fl] eqn:C.
    + apply parse_conf_files_done in C as (settings & -> & F1). cbn [List.app].
      rewrite parse_script_files_done. split.
      * intros (R & scripts & -> & F2). split; [exact R|].
        now exists settings, scripts.
      * intros (R & settings' & scripts & -> & F1' & F2). split; [exact R|].
        assert (E : settings' = settings).
        { clear - F1 F1'. revert settings' F1'.
          induction F1 as [|f c fs' cs' P F IH]; intros settings' F1';
            inversion F1'; subst; [reflexivity|].
          f_equal; [congruence | now apply IH]. }
        subst settings'. now exists scripts.
    + split; [discriminate|].
      intros (_ & settings & scripts & _ & F1 & _). exfalso.
      assert (D : parse_conf_files fs (conf_files found) [] = Done ([] ++ settings)%list).
      { apply parse_conf_files_done. now exists settings. }
      congruence.
  - intros f e I P. unfold parse_directory.
    destruct (parse_conf_files_fails fs (conf_files found) f e I P []) as [e' ->].
    now exists e'.
Qed.

Lemma directory_scan_witness :
  (exists e',
     parse_directory cores_not_a_number
       (Some (mkListing ["spark-defaults.conf"] []))
     = Failed (ParseError e')) /\
  parse_directory
    (fun p => if String.eqb p "conf/spark-defaults.conf"
              then Some "spark.executor.cores 4"
              else if String.eqb p "bin/run.sh"
                   then Some "spark-submit --executor-cores 8 job.py"
                   else if String.eqb p "bin/env.sh"
                        then Some "spark.executor.cores 2"
                        else None)
    (Some (mkListing ["conf/spark-defaults.conf"] ["bin/env.sh"; "bin/run.sh"]))
  = Done [set_executor_cores 4
            (set_raw "spark.executor.cores" "4"
               (new_config "conf/spark-defaults.conf"));
          set_executor_cores 8 (new_config "bin/run.sh")].
Proof.
  split.
  - apply (proj2 (proj2 (directory_scan cores_not_a_number
                           (mkListing ["spark-defaults.conf"] [])))
             "spark-defaults.conf" ValueError).
    + now left.
    + reflexivity.
  - apply (proj1 (proj2 (directory_scan _
                           (mkListing ["conf/spark-defaults.conf"]
                              ["bin/env.sh"; "bin/run.sh"])))).
    split.
    + repeat constructor; discriminate.
    + exists [set_executor_cores 4
                (set_raw "spark.executor.cores" "4"
                   (new_config "conf/spark-defaults.conf"))],
             [set_executor_cores 8 (new_config "bin/run.sh")].
      split; [reflexivity|]. split.
      * repeat constructor.
      * repeat constructor.
Defined.

(** * Sizes in the prompt *)

Import Formatting.

Open Scope Z_scope.

Lemma round_half_even_scale (c a b : Z) :
  0 < c -> 0 < b ->
  Float.round_half_even (c * a) (c * b) = Float.round_half_even a b.
Proof.
  intros C B. unfold Float.round_half_even.
  rewrite Z.div_mul_cancel_l by lia.
  rewrite Zmult_mod_distr_l.
  assert (E1 : (2 * (c * (a mod b)) <? c * b) = (2 * (a mod b) <? b)).
  { destruct (Z.ltb_spec (2 * (a mod b)) b);
      [apply Z.ltb_lt | apply Z.ltb_ge]; nia. }
  assert (E2 : (c * b <? 2 * (c * (a mod b))) = (b <? 2 * (a mod b))).
  { destruct (Z.ltb_spec b (2 * (a mod b)));
      [apply Z.ltb_lt | apply Z.ltb_ge]; nia. }
  now rewrite E1, E2.
Qed.

Lemma round_half_even_one (a : Z) : Float.round_half_even a 1 = a.
Proof.
  unfold Float.round_half_even. rewrite Z.div_1_r, Z.mod_1_r. reflexivity.
Qed.

Lemma round_half_even_multiple (q d : Z) :
  0 < d -> Float.round_half_even (q * d) d = q.
Proof.
  intros D. unfold Float.round_half_even.
  rewrite Z.div_mul by lia. rewrite Z.mod_mul by lia.
  replace (2 * 0 <? d) with true by (symmetry; apply Z.ltb_lt; lia). reflexivity.
Qed.

(** An integer below 2^53 is a float. *)
Lemma float_of_small_int (n : Z) :
  0 < n < 2 ^ 53 ->
  exists t, 0 <= t /\ float_of_int n = Some (n * 2 ^ t, - t).
Proof.
  intros N. unfold float_of_int, Float.nearest.
  replace (n =? 0) with false by (symmetry; apply Z.eqb_neq; lia).
  rewrite Z.abs_eq by lia.
  change (Z.log2 1) with 0. rewrite Z.sub_0_r.
  pose proof (Z.log2_spec n (proj1 N)) as [L1 L2].
  pose proof (Z.log2_nonneg n) as L0.
  assert (L53 : Z.log2 n < 53) by (apply Z.log2_lt_pow2; lia).
  unfold Float.reaches.
  replace (0 <=? Z.log2 n) with true by (symmetry; apply Z.leb_le; lia).
  rewrite Z.mul_1_l.
  replace (2 ^ Z.log2 n <=? n) with true by (symmetry; apply Z.leb_le; lia).
  exists (52 - Z.log2 n). split; [lia|].
  set (s := Z.log2 n - 52).
  assert (M : (if 0 <=? s
               then Float.round_half_even n (1 * 2 ^ s)
               else Float.round_half_even (n * 2 ^ (- s)) 1)
              = n * 2 ^ (- s)).
  { destruct (Z.leb_spec 0 s) as [S|S].
    - assert (E : s = 0) by (unfold s in *; lia). rewrite E.
      change (1 * 2 ^ 0) with 1. change (- 0) with 0.
      rewrite round_half_even_one. change (2 ^ 0) with 1. lia.
    - apply round_half_even_one. }
  rewrite M.
  assert (V : Z.shiftl (n * 2 ^ (- s)) s = n).
  { rewrite <- (Z.opp_involutive s) at 2.
    rewrite Z.shiftl_opp_r, Z.shiftr_div_pow2 by (unfold s; lia).
    apply Z.div_mul. apply Z.pow_nonzero; unfold s; lia. }
  rewrite V.
  replace (2 ^ 1024 <=? n) with false.
  - replace (52 - Z.log2 n) with (- s) by (unfold s; lia).
    now rewrite Z.opp_involutive.
  - symmetry. apply Z.leb_gt.
    assert (2 ^ 53 < 2 ^ 1024) by reflexivity. lia.
Qed.

Lemma pow_1024 (j : Z) : 0 <= j -> 1024 ^ j = 2 ^ (10 * j).
Proof. intros J. change 1024 with (2 ^ 10). now rewrite <- Z.pow_mul_r by lia. Qed.

(** After [j] divisions of the float of [n]: the comparison and the
    hundredths are those of the exact quotient. *)
Lemma below_1024_exact (n t j : Z) :
  0 <= n -> 0 <= t -> 0 <= j ->
  below_1024 (n * 2 ^ t) (- t - 10 * j) = (n <? 1024 ^ (j + 1)).
Proof.
  intros N T J. unfold below_1024.
  rewrite (pow_1024 (j + 1)) by lia.
  assert (P : 0 < 2 ^ t) by (apply Z.pow_pos_nonneg; lia).
  destruct (Z.leb_spec 0 (- t - 10 * j)) as [S|S].
  - assert (t = 0) by lia. assert (j = 0) by lia. subst t j.
    change (- 0 - 10 * 0) with 0. change (2 ^ 0) with 1.
    rewrite !Z.mul_1_r. reflexivity.
  - replace (- (- t - 10 * j)) with (t + 10 * j) by lia.
    rewrite Z.pow_add_r by lia.
    replace (10 * (j + 1)) with (10 + 10 * j) by lia.
    rewrite (Z.pow_add_r 2 10) by lia. change (2 ^ 10) with 1024.
    assert (Q : 0 < 2 ^ (10 * j)) by (apply Z.pow_pos_nonneg; lia).
    destruct (Z.ltb_spec n (1024 * 2 ^ (10 * j)));
      [apply Z.ltb_lt | apply Z.ltb_ge]; nia.
Qed.

Lemma hundredths_exact (n t j : Z) :
  0 <= t -> 0 <= j ->
  hundredths (n * 2 ^ t) (- t - 10 * j)
  = Float.round_half_even (100 * n) (1024 ^ j).
Proof.
  intros T J. unfold hundredths. rewrite (pow_1024 j) by lia.
  assert (P : 0 < 2 ^ t) by (apply Z.pow_pos_nonneg; lia).
  destruct (Z.leb_spec 0 (- t - 10 * j)) as [S|S].
  - assert (t = 0) by lia. assert (j = 0) by lia. subst t j.
    change (- 0 - 10 * 0) with 0. change (10 * 0) with 0. change (2 ^ 0) with 1.
    rewrite round_half_even_one. lia.
  - replace (- (- t - 10 * j)) with (t + 10 * j) by lia.
    rewrite Z.pow_add_r by lia.
    replace (100 * (n * 2 ^ t)) with (2 ^ t * (100 * n)) by lia.
    apply round_half_even_scale; [exact P|]. apply Z.pow_pos_nonneg; lia.
Qed.

Lemma format_small_int (n : Z) :
  0 <= n < 2 ^ 53 ->
  _format_bytes (Some n)
  = Ok (hundredths_text
          (Float.round_half_even (100 * n) (1024 ^ unit_index n))
        ++ " " ++ unit_name (unit_index n)).
Proof.
  intros N. unfold _format_bytes.
  destruct (Z.eq_dec n 0) as [->|NZ]; [reflexivity|].
  destruct (float_of_small_int n) as (t & T & ->); [lia|].
  replace (n <? 0) with false by (symmetry; apply Z.ltb_ge; lia).
  assert (B : forall j, 0 <= j ->
              below_1024 (n * 2 ^ t) (- t - 10 * j) = (n <? 1024 ^ (j + 1)))
    by (intros; apply below_1024_exact; lia).
  assert (H : forall j, 0 <= j ->
              fixed2 false (n * 2 ^ t) (- t - 10 * j)
              = hundredths_text (Float.round_half_even (100 * n) (1024 ^ j))).
  { intros j J. unfold fixed2. now rewrite hundredths_exact by lia. }
  unfold unit_index. f_equal.
  cbn [units_loop orb].
  replace (- t) with (- t - 10 * 0) by lia.
  rewrite (B 0), (H 0) by lia. change (1024 ^ (0 + 1)) with 1024.
  destruct (n <? 1024); [reflexivity|].
  replace (- t - 10 * 0 - 10) with (- t - 10 * 1) by lia.
  rewrite (B 1), (H 1) by lia. change (1 + 1) with 2.
  destruct (n <? 1024 ^ 2); [reflexivity|].
  replace (- t - 10 * 1 - 10) with (- t - 10 * 2) by lia.
  rewrite (B 2), (H 2) by lia. change (2 + 1) with 3.
  destruct (n <? 1024 ^ 3); [reflexivity|].
  replace (- t - 10 * 2 - 10) with (- t - 10 * 3) by lia.
  rewrite (B 3), (H 3) by lia. change (3 + 1) with 4.
  destruct (n <? 1024 ^ 4); [reflexivity|].
  replace (- t - 10 * 3 - 10) with (- t - 10 * 4) by lia.
  rewrite (B 4), (H 4) by lia. change (4 + 1) with 5.
  destruct (n <? 1024 ^ 5); [reflexivity|].
  replace (- t - 10 * 4 - 10) with (- t - 10 * 5) by lia.
  rewrite (H 5) by lia. reflexivity.
Qed.

Lemma unit_index_multiple (q k : Z) :
  1 <= q < 1024 -> 0 <= k <= 5 -> unit_index (q * 1024 ^ k) = k.
Proof.
  intros Q K. unfold unit_index.
  assert (C : k = 0 \/ k = 1 \/ k = 2 \/ k = 3 \/ k = 4 \/ k = 5) by lia.
  change (1024 ^ 2) with 1048576. change (1024 ^ 3) with 1073741824.
  change (1024 ^ 4) with 1099511627776. change (1024 ^ 5) with 1125899906842624.
  destruct C as [->|[->|[->|[->|[->| ->]]]]].
  - change (1024 ^ 0) with 1.
    replace (q * 1 <? 1024) with true by (symmetry; apply Z.ltb_lt; lia). reflexivity.
  - change (1024 ^ 1) with 1024.
    replace (q * 1024 <? 1024) with false by (symmetry; apply Z.ltb_ge; lia).
    replace (q * 1024 <? 1048576) with true by (symmetry; apply Z.ltb_lt; lia).
    reflexivity.
  - change (1024 ^ 2) with 1048576.
    replace (q * 1048576 <? 1024) with false by (symmetry; apply Z.ltb_ge; lia).
    replace (q * 1048576 <? 1048576) with false by (symmetry; apply Z.ltb_ge; lia).
    replace (q * 1048576 <? 1073741824) with true by (symmetry; apply Z.ltb_lt; lia).
    reflexivity.
  - change (1024 ^ 3) with 1073741824.
    replace (q * 1073741824 <? 1024) with false by (symmetry; apply Z.ltb_ge; lia).
    replace (q * 1073741824 <? 1048576) with false by (symmetry; apply Z.ltb_ge; lia).
    replace (q * 1073741824 <? 1073741824) with false
      by (symmetry; apply Z.ltb_ge; lia).
    replace (q * 1073741824 <? 1099511627776) with true
      by (symmetry; apply Z.ltb_lt; lia).
    reflexivity.
  - change (1024 ^ 4) with 1099511627776.
    replace (q * 1099511627776 <? 1024) with false by (symmetry; apply Z.ltb_ge; lia).
    replace (q * 1099511627776 <? 1048576) with false
      by (symmetry; apply Z.ltb_ge; lia).
    replace (q * 1099511627776 <? 1073741824) with false
      by (symmetry; apply Z.ltb_ge; lia).
    replace (q * 1099511627776 <? 1099511627776) with false
      by (symmetry; apply Z.ltb_ge; lia).
    replace (q * 1099511627776 <? 1125899906842624) with true
      by (symmetry; apply Z.ltb_lt; lia).
    reflexivity.
  - change (1024 ^ 5) with 1125899906842624.
    replace (q * 1125899906842624 <? 1024) with false
      by (symmetry; apply Z.ltb_ge; lia).
    replace (q * 1125899906842624 <? 1048576) with false
      by (symmetry; apply Z.ltb_ge; lia).
    replace (q * 1125899906842624 <? 1073741824) with false
      by (symmetry; apply Z.ltb_ge; lia).
    replace (q * 1125899906842624 <? 1099511627776) with false
      by (symmetry; apply Z.ltb_ge; lia).
    replace (q * 1125899906842624 <? 1125899906842624) with false
      by (symmetry; apply Z.ltb_ge; lia).
    reflexivity.
Qed.

Lemma hundredths_text_whole (q : Z) :
  hundredths_text (100 * q) = str q ++ ".00".
Proof.
  unfold hundredths_text. rewrite (Z.mul_comm 100 q), Z.div_mul, Z.mod_mul by lia.
  reflexivity.
Qed.

(** X26. How a size below 2^53 bytes is shown in the prompt: divided
    by 1024 until it is below 1024, five times at most, with the
    hundredths rounded to the nearest, halves to the even one, so that
    a whole number of units ends in [.00]; an absent size is shown as
    [N/A]. *)
Theorem format_bytes_of_sizes (n : Z) :
  0 <= n < 2 ^ 53 ->
  _format_bytes (Some n)
  = Ok (hundredths_text
          (Float.round_half_even (100 * n) (1024 ^ unit_index n))
        ++ " " ++ unit_name (unit_index n)) /\
  (forall q k, 1 <= q < 1024 -> 0 <= k <= 5 -> n = q * 1024 ^ k ->
               _format_bytes (Some n) = Ok (str q ++ ".00" ++ " " ++ unit_name k)) /\
  _format_bytes None = Ok "N/A".
Proof.
  intros N. split; [now apply format_small_int|]. split; [|reflexivity].
  intros q k Q K E. rewrite (format_small_int n N). subst n.
  rewrite (unit_index_multiple q k Q K).
  replace (100 * (q * 1024 ^ k)) with (100 * q * 1024 ^ k) by lia.
  rewrite round_half_even_multiple by (apply Z.pow_pos_nonneg; lia).
  rewrite hundredths_text_whole. now rewrite append_assoc.
Qed.

Lemma format_bytes_of_sizes_witness :
  _format_bytes (Some 1536)
  = Ok (hundredths_text
          (Float.round_half_even (100 * 1536) (1024 ^ unit_index 1536))
        ++ " " ++ unit_name (unit_index 1536)) /\
  hundredths_text (Float.round_half_even (100 * 1536) (1024 ^ unit_index 1536))
  ++ " " ++ unit_name (unit_index 1536) = "1.50 KB" /\
  _format_bytes (Some (1024 ^ 2 - 1)) = Ok "1024.00 KB".
Proof.
  split; [|split; reflexivity].
  refine (proj1 (format_bytes_of_sizes 1536 _)). lia.
Defined.

(** * The tool [get_recommendations] *)

Import Server.

Lemma find_without_mock_file (identifier : string) :
  exists i, find_application_by_name None identifier = Found (default_metrics i).
Proof.
  unfold find_application_by_name, list_applications, first_by_name.
  cbn [default_application d_name d_id or_empty].
  destruct (contains (lower identifier) (lower "Production_Data_Pipeline_v1"));
    eexists; reflexivity.
Qed.

(** X27. Asked about a file that does not exist, the tool does not
    fail: without the text-generation service and without a mock file,
    and whatever application is named, it answers with the one
    recommendation to enable dynamic allocation. *)
Theorem missing_file_is_answered (fs : filesystem)
  (prompt_of : SparkConfig -> option ExecutionMetrics -> option string)
  (now config_path : string) (app_identifier : option string) :
  fs config_path = None ->
  get_recommendations fs None None prompt_of now config_path app_identifier
    "all" "all"
  = Success (mkAnswer summary_without_client [enable_dynamic_allocation] 1 0 0 1).
Proof.
  intros F. unfold get_recommendations.
  assert (P : parse_file fs config_path = Ok (new_config config_path)).
  { unfold parse_file, parse_spark_defaults, parse_spark_submit_script. rewrite F.
    destruct (endswith "spark-defaults.conf" config_path); [reflexivity|].
    now destruct (endswith ".sh" config_path). }
  rewrite P.
  assert (R : forall m, requested_metrics None app_identifier = Found m ->
              _rule_based_analysis (new_config config_path) m
              = [enable_dynamic_allocation]).
  { intros m. unfold requested_metrics.
    destruct app_identifier as [identifier|]; [|now intros [= <-]].
    destruct (is_empty identifier); [now intros [= <-]|].
    destruct (find_without_mock_file identifier) as [i ->]. intros [= <-].
    now rewrite default_metrics_rules. }
  destruct (requested_metrics None app_identifier) as [m|] eqn:M.
  - unfold analyze. cbn [recommendations summary]. rewrite (R m eq_refl). reflexivity.
  - unfold requested_metrics in M.
    destruct app_identifier as [identifier|]; [|discriminate].
    destruct (is_empty identifier); [discriminate|].
    destruct (find_without_mock_file identifier) as [i E]. now rewrite E in M.
Qed.

Lemma missing_file_is_answered_witness :
  get_recommendations (single_file "spark-defaults.conf" "spark.app.name etl")
    None None (fun _ _ => None) "2026-01-26T14:00:00" "conf/job.sh"
    (Some "Production") "all" "all"
  = Success (mkAnswer summary_without_client [enable_dynamic_allocation] 1 0 0 1).
Proof.
  apply (missing_file_is_answered
           (single_file "spark-defaults.conf" "spark.app.name etl")
           (fun _ _ => None) "2026-01-26T14:00:00" "conf/job.sh" (Some "Production")).
  reflexivity.
Defined.

(** X28. When the tool fails and what an answer tells.  The tool
    fails when the file cannot be parsed, and it fails when the
    severity filter is not one of [all], [critical], [warning] and
    [info] while dynamic allocation is not enabled in the file, the
    analysis then having a recommendation to look the filter up for.
    An answer with success comes from a file that was parsed, its
    filter is one of the four names unless it shows nothing, what it
    shows is in the analysis, and its total is the sum of its three
    counts. *)
Theorem tool_failures (fs : filesystem)
  (mock_file : option (list AppData))
  (client : option (string -> option string))
  (prompt_of : SparkConfig -> option ExecutionMetrics -> option string)
  (now config_path : string) (app_identifier : option string)
  (severity_filter category_filter : string) :
  let reply := get_recommendations fs mock_file client prompt_of now config_path
                 app_identifier severity_filter category_filter in
  ((exists e, parse_file fs config_path = Raise e) -> reply = Failure) /\
  (forall cfg,
     parse_file fs config_path = Ok cfg ->
     dynamic_allocation_enabled cfg = false ->
     ~ In severity_filter ["all"; "critical"; "warning"; "info"] ->
     reply = Failure) /\
  (forall a,
     reply = Success a ->
     (exists cfg m,
        parse_file fs config_path = Ok cfg /\
        requested_metrics mock_file app_identifier = Found m /\
        answer_summary a = summary (analyze client prompt_of now cfg m) /\
        forall r, In r (answer_recommendations a) ->
                  In r (recommendations (analyze client prompt_of now cfg m))) /\
     (In severity_filter ["all"; "critical"; "warning"; "info"] \/
      answer_recommendations a = []) /\
     answer_total_count a
     = answer_critical_count a + answer_warning_count a + answer_info_count a).
Proof.
  cbv zeta. unfold get_recommendations.
  destruct (parse_file fs config_path) as [cfg|e].
  - destruct (requested_metrics mock_file app_identifier) as [m|].
    + pose proof (filter_recommendations_fails severity_filter category_filter
                    (recommendations (analyze client prompt_of now cfg m))) as SF.
      assert (NE : dynamic_allocation_enabled cfg = false ->
                   recommendations (analyze client prompt_of now cfg m) <> []).
      { intros DA E.
        assert (I : In enable_dynamic_allocation
                      (recommendations (analyze client prompt_of now cfg m))).
        { assert (R : In enable_dynamic_allocation (_rule_based_analysis cfg m)).
          { unfold _rule_based_analysis, check_dynamic_allocation. rewrite DA.
            cbn [negb]. apply in_or_app. right. apply in_or_app. right.
            apply in_or_app. left. now left. }
          unfold analyze. destruct client as [call|]; [|exact R].
          destruct (ai_stage prompt_of call cfg m) as [[s ai]|];
            cbn [recommendations]; [apply in_or_app; now left | exact R]. }
        rewrite E in I. destruct I. }
      destruct (filter_recommendations severity_filter category_filter
                  (recommendations (analyze client prompt_of now cfg m)))
        as [shown|] eqn:FR.
      * split; [|split].
        -- intros [e E]. discriminate E.
        -- intros c [= <-] DA N. exfalso.
           assert (Q : Some shown = None) by (apply SF; split; [exact N | now apply NE]).
           discriminate Q.
        -- intros a [= <-]. cbn [answer_summary answer_recommendations
             answer_total_count answer_critical_count answer_warning_count
             answer_info_count].
           split; [|split].
           ++ exists cfg, m. repeat split.
              intros r I. unfold filter_recommendations in FR.
              assert (B : forall kept,
                         (if String.eqb severity_filter "all"
                          then Some (recommendations (analyze client prompt_of now cfg m))
                          else by_severity severity_filter
                                 (recommendations (analyze client prompt_of now cfg m)))
                         = Some kept ->
                         forall x, In x kept ->
                                   In x (recommendations
                                           (analyze client prompt_of now cfg m))).
              { intros kept K x IX.
                destruct (String.eqb severity_filter "all"); [now injection K as <-|].
                destruct (severity_map severity_filter) as [wanted|] eqn:M.
                - rewrite (by_severity_known _ wanted _ M) in K. injection K as <-.
                  now apply filter_In in IX as [IX _].
                - rewrite (by_severity_unknown _ _ M) in K.
                  destruct (recommendations (analyze client prompt_of now cfg m));
                    [injection K as <-; destruct IX | discriminate K]. }
              destruct (if String.eqb severity_filter "all"
                        then Some (recommendations (analyze client prompt_of now cfg m))
                        else by_severity severity_filter
                               (recommendations (analyze client prompt_of now cfg m)))
                as [kept|] eqn:K; [|discriminate FR].
              injection FR as <-. apply (B kept eq_refl).
              destruct (String.eqb category_filter "all"); [exact I|].
              now apply filter_In in I as [I _].
           ++ destruct (in_dec string_dec severity_filter
                          ["all"; "critical"; "warning"; "info"]) as [Y|N];
                [now left|]. right.
              destruct (recommendations (analyze client prompt_of now cfg m))
                as [|r0 rs] eqn:R.
              ** unfold filter_recommendations in FR.
                 destruct (String.eqb severity_filter "all");
                   cbn [by_severity] in FR; injection FR as <-;
                   now destruct (String.eqb category_filter "all").
              ** exfalso.
                 assert (Q : Some shown = None)
                   by (apply SF; split; [exact N | discriminate]).
                 discriminate Q.
           ++ apply counts_add_up.
      * split; [|split]; [reflexivity | reflexivity | discriminate].
    + split; [|split]; [reflexivity | reflexivity | discriminate].
  - split; [|split]; [reflexivity | discriminate | discriminate].
Qed.

Lemma tool_failures_witness :
  get_recommendations cores_not_a_number None None (fun _ _ => None)
    "2026-01-26T14:00:00" "spark-defaults.conf" None "all" "all" = Failure /\
  get_recommendations cores_twice None None (fun _ _ => None)
    "2026-01-26T14:00:00" "spark-defaults.conf" None "Critical" "all" = Failure.
Proof.
  split.
  - apply (proj1 (tool_failures cores_not_a_number None None (fun _ _ => None)
                    "2026-01-26T14:00:00" "spark-defaults.conf" None "all" "all")).
    now exists ValueError.
  - apply (proj1 (proj2 (tool_failures cores_twice None None (fun _ _ => None)
                    "2026-01-26T14:00:00" "spark-defaults.conf" None "Critical" "all"))
             cores_twice_record).
    + reflexivity.
    + reflexivity.
    + cbn [In]. intros [H|[H|[H|[H|[]]]]]; discriminate H.
Defined.
